(** * PyBaMM concatenations: a shallow embedding of
      [pybamm/expression_tree/concatenations.py]

    The development follows the Python module top to bottom: the domain
    validator of [Concatenation], the name merge of [ConcatenationVariable],
    the simplifying constructors, and the mesh-driven slice layout of
    [DomainConcatenation] together with its evaluation and Jacobian rules.
    A last part treats further methods of the classes and the pressure
    variables of the convection submodel, which calls [concatenation].

    Python exceptions are modelled by a small error monad; dictionaries whose
    iteration order is observable are insertion-ordered association lists;
    numpy column vectors are lists over an arbitrary element type. *)

From Stdlib Require Import Ascii String.
From stdpp Require Import base list strings.

Open Scope string_scope.
Open Scope nat_scope.
Open Scope list_scope.

(* ===================================================================== *)
(** * Python exceptions as an error monad *)
(* ===================================================================== *)

Inductive Exception :=
| TypeError
| ValueError
| IndexError
| AttributeError
| StopIteration
| DomainError
| NotImplementedError.

Inductive result (A : Type) :=
| Ok (a : A)
| Raise (e : Exception).
Arguments Ok {A} a.
Arguments Raise {A} e.

Definition bind {A B} (r : result A) (k : A -> result B) : result B :=
  match r with
  | Ok a => k a
  | Raise e => Raise e
  end.

Notation "x <- r ;; k" := (bind r (fun x => k))
  (at level 100, r at next level, right associativity).
Notation "r ;;; k" := (bind r (fun _ => k))
  (at level 100, right associativity).

(** A [for] loop whose body may raise: the state is threaded left to right
    and the first exception aborts the loop. *)
Fixpoint for_each {A S} (body : S -> A -> result S) (xs : list A) (s : S)
  : result S :=
  match xs with
  | [] => Ok s
  | x :: xs' => s' <- body s x ;; for_each body xs' s'
  end.

(** [[f(x) for x in xs]] with a fallible [f]. *)
Fixpoint map_result {A B} (f : A -> result B) (xs : list A) : result (list B) :=
  match xs with
  | [] => Ok []
  | x :: xs' => y <- f x ;; ys <- map_result f xs' ;; Ok (y :: ys)
  end.

(** [xs[i]] and [xs[-1]] on a Python list. *)
Definition py_index {A} (xs : list A) (i : nat) : result A :=
  match xs !! i with
  | Some x => Ok x
  | None => Raise IndexError
  end.

Definition py_last {A} (xs : list A) : result A :=
  match last xs with
  | Some x => Ok x
  | None => Raise IndexError
  end.

(* ===================================================================== *)
(** * Domains, slices and symbols *)
(* ===================================================================== *)

(** The four levels of a symbol's [domains] dictionary, in the order in
    which the dictionary lists them. *)
Inductive Level := Primary | Secondary | Tertiary | Quaternary.

Record Domains := mkDomains {
  primary : list string;
  secondary : list string;
  tertiary : list string;
  quaternary : list string
}.

Definition domains_get (d : Domains) (level : Level) : list string :=
  match level with
  | Primary => primary d
  | Secondary => secondary d
  | Tertiary => tertiary d
  | Quaternary => quaternary d
  end.

(** [d.items()]. *)
Definition domains_items (d : Domains) : list (Level * list string) :=
  [(Primary, primary d); (Secondary, secondary d);
   (Tertiary, tertiary d); (Quaternary, quaternary d)].

(** [{**d, "primary": domain}]. *)
Definition domains_with_primary (d : Domains) (domain : list string) : Domains :=
  {| primary := domain; secondary := secondary d;
     tertiary := tertiary d; quaternary := quaternary d |}.

(** [{"primary": []}], completed with empty auxiliary levels. *)
Definition EMPTY_DOMAINS : Domains := mkDomains [] [] [] [].

Definition Level_eqb (a b : Level) : bool :=
  match a, b with
  | Primary, Primary | Secondary, Secondary
  | Tertiary, Tertiary | Quaternary, Quaternary => true
  | _, _ => false
  end.

(** Python [slice(start, stop)] with both bounds given. *)
Record slice := Slice { start : nat; stop : nat }.

(** The classes of expression-tree nodes that the module tells apart. *)
Inductive SymbolClass :=
| ClsSymbol
| ClsVariable
| ClsStateVector
| ClsBroadcast
| ClsPrimaryBroadcast
| ClsFullBroadcast
| ClsConcatenation
| ClsNumpyConcatenation
| ClsDomainConcatenation
| ClsSparseStack
| ClsConcatenationVariable.

Global Instance SymbolClass_eq_dec : EqDecision SymbolClass.
Proof. solve_decision. Defined.

(** Class-specific attributes read by this module. Scale, reference and
    bounds are only ever compared with [==]; they are kept as integer
    tokens. *)
Inductive Attrs :=
| NoAttrs
| VariableAttrs (scale reference : Z) (bounds : Z * Z) (raw_print_name : string)
| StateVectorAttrs (y_slices : list slice) (evaluation_array : list bool).

(** Modelled from the spec: the expression node ("a name, an ordered
    sequence of owned children, and a domain descriptor"); the class
    [pybamm.Symbol] itself is not part of this module. *)
#[warnings="-register-all"]
Inductive Symbol := mkSymbol {
  sym_class : SymbolClass;
  name : string;
  children : list Symbol;
  domains : Domains;
  attrs : Attrs
}.

(** [symbol.domain] is the primary level of [symbol.domains]. *)
Definition domain (s : Symbol) : list string := primary (domains s).

(** Arguments as Python passes them: a symbol, [None], or some other
    object that is not a symbol. *)
Inductive PyObject :=
| PyNone
| PySymbol (s : Symbol)
| PyOther.

Definition is_not_None (x : PyObject) : bool :=
  match x with PyNone => false | _ => true end.

Definition isinstance (classes : list SymbolClass) (x : PyObject) : bool :=
  match x with
  | PySymbol s =>
      existsb (fun c => bool_decide (sym_class s = c)) classes
  | _ => false
  end.

(** [isinstance(x, pybamm.Variable)] and friends: a class together with the
    subclasses this module knows. *)
Definition isinstance_Variable := isinstance [ClsVariable].
Definition isinstance_StateVector := isinstance [ClsStateVector].
Definition isinstance_Broadcast :=
  isinstance [ClsBroadcast; ClsPrimaryBroadcast; ClsFullBroadcast].
Definition isinstance_PrimaryBroadcast := isinstance [ClsPrimaryBroadcast].
Definition isinstance_NumpyConcatenation := isinstance [ClsNumpyConcatenation].

(* ===================================================================== *)
(** * The rest of the package, as an interface *)
(* ===================================================================== *)

(** What this module takes from code that lives elsewhere in the package
    (or in the Python runtime) and that it treats as a black box. *)
Class Pybamm := {
  (** the order in which a Python [set] holding the given elements is
      iterated; any order is possible, but it is an order of that set *)
  set_iter : list string -> list string;
  set_iter_perm : forall l, set_iter l ≡ₚ l;
  (** [Symbol.__eq__]; symbols that compare equal have the same domain *)
  symbol_eq : Symbol -> Symbol -> bool;
  symbol_eq_domain : forall a b, symbol_eq a b = true -> domain a = domain b;
  (** [pybamm.PrimaryBroadcast(child, domain)] and
      [pybamm.FullBroadcast(child, broadcast_domains=domains)] *)
  PrimaryBroadcast : Symbol -> list string -> result Symbol;
  FullBroadcast : Symbol -> Domains -> result Symbol;
  (** [child.evaluates_to_number()] and [child * pybamm.Vector([1])] *)
  evaluates_to_number : Symbol -> bool;
  times_unit_vector : Symbol -> Symbol;
  (** [pybamm.simplify_if_constant(symbol)] *)
  simplify_if_constant : Symbol -> Symbol
}.

(* ===================================================================== *)
(** * [Concatenation] *)
(* ===================================================================== *)

(** [set(a).isdisjoint(b)] *)
Definition isdisjoint (a b : list string) : bool :=
  forallb (fun x => negb (bool_decide (x ∈ a))) b.

(** One turn of the first loop of [get_children_domains]. *)
Definition combine_domain (acc : list string) (child : PyObject)
  : result (list string) :=
  match child with
  | PySymbol c =>
      let child_domain := domain c in
      if bool_decide (child_domain = []) then
        (* "Cannot concatenate child '{}' with empty domain" *)
        Raise DomainError
      else if isdisjoint acc child_domain then Ok (acc ++ child_domain)
      else
        (* "domain of children must be disjoint" *)
        Raise DomainError
  | _ =>
      (* "{} is not a pybamm symbol" *)
      Raise TypeError
  end.

(** [child.domains[level] not in [dom, []]] raises for one child. *)
Definition check_auxiliary_child (level : Level) (dom : list string)
    (_ : unit) (child : PyObject) : result unit :=
  match child with
  | PySymbol c =>
      let d := domains_get (domains c) level in
      if bool_decide (d = dom) || bool_decide (d = []) then Ok tt
      else
        (* "children must have same or empty auxiliary domains" *)
        Raise DomainError
  | _ => Raise AttributeError
  end.

Definition check_auxiliary_level (rest : list PyObject)
    (_ : unit) (item : Level * list string) : result unit :=
  let '(level, dom) := item in
  if negb (Level_eqb level Primary) && negb (bool_decide (dom = [])) then
    for_each (check_auxiliary_child level dom) rest tt
  else Ok tt.

Definition get_children_domains (children : list PyObject) : result Domains :=
  (* combine domains from children *)
  domain <- for_each combine_domain children [] ;;
  child0 <- py_index children 0 ;;
  auxiliary_domains <-
    match child0 with
    | PySymbol c => Ok (domains c)
    | _ => Raise AttributeError
    end ;;
  for_each (check_auxiliary_level (tail children))
    (domains_items auxiliary_domains) tt ;;;
  Ok (domains_with_primary auxiliary_domains domain).

(** Modelled from the spec: [Symbol.__init__] stores the children in order;
    an object that is not a symbol cannot become a child. *)
Definition as_symbols (children : list PyObject) : result (list Symbol) :=
  map_result (fun x => match x with
                       | PySymbol s => Ok s
                       | _ => Raise AttributeError
                       end) children.

(** [Concatenation.__init__], run for an instance of class [cls]. The
    numeric [concat_fun] plays no part in what follows and is left out;
    [attrs] are the attributes the subclass sets around the call. *)
Definition Concatenation_init (cls : SymbolClass) (children : list PyObject)
    (name : option string) (check_domain : bool) (attrs : Attrs)
  : result Symbol :=
  if forallb isinstance_Variable children
     && bool_decide (cls = ClsConcatenation)
  then Raise TypeError
  else
    let name := default "concatenation" name in
    domains <- (if check_domain then get_children_domains children
                else Ok EMPTY_DOMAINS) ;;
    cs <- as_symbols children ;;
    Ok (mkSymbol cls name cs domains attrs).

(* ===================================================================== *)
(** * [substrings], [intersect] and [ConcatenationVariable] *)
(* ===================================================================== *)

(** [s[i : j + 1]] for [i] in [range(len(s))], [j] in [range(i, len(s))].
    Names are ASCII strings here: one character is one byte. *)
Definition substrings (s : string) : list string :=
  flat_map
    (fun i => map (fun j => substring i (j + 1 - i) s)
                  (seq i (String.length s - i)))
    (seq 0 (String.length s)).

Definition mem_string (x : string) (l : list string) : bool :=
  existsb (String.eqb x) l.

(** [set(xs)]: the distinct elements of [xs]. *)
Fixpoint set_of (xs : list string) : list string :=
  match xs with
  | [] => []
  | x :: xs' => if mem_string x xs' then set_of xs' else x :: set_of xs'
  end.

(** [a & b] on sets. *)
Definition set_intersection (a b : list string) : list string :=
  List.filter (fun x => mem_string x b) a.

(** [max(xs, key=len)] after the first element: the first element of
    greatest length wins. *)
Fixpoint max_by_len (best : string) (xs : list string) : string :=
  match xs with
  | [] => best
  | x :: xs' =>
      if String.length best <? String.length x then max_by_len x xs'
      else max_by_len best xs'
  end.

(** ASCII white space as [str.isspace] sees it. *)
Definition is_space (c : ascii) : bool :=
  let n := nat_of_ascii c in
  ((9 <=? n) && (n <=? 13)) || ((28 <=? n) && (n <=? 32)).

Fixpoint lstrip (s : string) : string :=
  match s with
  | String c s' => if is_space c then lstrip s' else s
  | EmptyString => EmptyString
  end.

Fixpoint rstrip (s : string) : string :=
  match s with
  | String c s' =>
      match rstrip s' with
      | EmptyString => if is_space c then EmptyString else String c EmptyString
      | r => String c r
      end
  | EmptyString => EmptyString
  end.

(** [set(substrings(s1)) & set(substrings(s2))] *)
Definition all_intersects (s1 s2 : string) : list string :=
  set_intersection (set_of (substrings s1)) (set_of (substrings s2)).

Definition intersect `{Pybamm} (s1 s2 : string) : string :=
  (* find all the common strings between two strings;
     intersect is the longest such intercept *)
  match set_iter (all_intersects s1 s2) with
  | [] => ""
  | x :: xs =>
      let intersect := max_by_len x xs in
      (* remove leading and trailing white space *)
      rstrip (lstrip intersect)
  end.

(** [c.capitalize()] for a one-character ASCII string. *)
Definition capitalize (c : ascii) : ascii :=
  let n := nat_of_ascii c in
  if (97 <=? n) && (n <=? 122) then ascii_of_nat (n - 32) else c.

Definition sym_name (x : PyObject) : result string :=
  match x with
  | PySymbol s => Ok (name s)
  | _ => Raise AttributeError
  end.

(** The name a [ConcatenationVariable] gives itself; [None] when the
    children's names have nothing in common. *)
Definition merged_name `{Pybamm} (children : list PyObject)
  : result (option string) :=
  c0 <- py_index children 0 ;; n0 <- sym_name c0 ;;
  c1 <- py_index children 1 ;; n1 <- sym_name c1 ;;
  name <- for_each (fun name child => n <- sym_name child ;;
                                    Ok (intersect name n))
                   (drop 2 children) (intersect n0 n1) ;;
  match name with
  | EmptyString => Ok None
  | String c EmptyString =>
      (* name is unchanged if its length is 1 *)
      Ok (Some name)
  | String c rest => Ok (Some (String (capitalize c) rest))
  end.

(** Attributes of a variable; any other object has none of them. *)
Definition variable_attr {A} (proj : Z -> Z -> Z * Z -> string -> A)
    (x : PyObject) : result A :=
  match x with
  | PySymbol s =>
      match attrs s with
      | VariableAttrs scale reference bounds raw_print_name =>
          Ok (proj scale reference bounds raw_print_name)
      | _ => Raise AttributeError
      end
  | _ => Raise AttributeError
  end.

Definition sym_scale := variable_attr (fun s _ _ _ => s).
Definition sym_reference := variable_attr (fun _ r _ _ => r).
Definition sym_bounds := variable_attr (fun _ _ b _ => b).
Definition sym_raw_print_name := variable_attr (fun _ _ _ p => p).

(** [all(p(x) for x in xs)]: stops at the first false. *)
Fixpoint py_all {A} (p : A -> result bool) (xs : list A) : result bool :=
  match xs with
  | [] => Ok true
  | x :: xs' => b <- p x ;; if b then py_all p xs' else Ok false
  end.

(** [all(get(child) == get(children[0]) for child in children)] *)
Definition all_agree {A} `{EqDecision A} (get : PyObject -> result A)
    (children : list PyObject) : result bool :=
  py_all (fun child => a <- get child ;;
                       c0 <- py_index children 0 ;;
                       a0 <- get c0 ;;
                       Ok (bool_decide (a = a0))) children.

Definition endswith_underscore (s : string) : bool :=
  match get (String.length s - 1) s with
  | Some c => bool_decide (c = "_"%char)
  | None => false
  end.

Definition ConcatenationVariable_init `{Pybamm} (children : list PyObject)
  : result Symbol :=
  (* Name is the intersection of the children names *)
  name <- merged_name children ;;
  (* [len(children) > 0] holds from here on: the name needed two children *)
  same_scale <- all_agree sym_scale children ;;
  (if same_scale then Ok tt
   else (* "Cannot concatenate symbols with different scales" *)
     Raise ValueError) ;;;
  same_reference <- all_agree sym_reference children ;;
  (if same_reference then Ok tt
   else (* "Cannot concatenate symbols with different references" *)
     Raise ValueError) ;;;
  same_lower <- all_agree (fun c => b <- sym_bounds c ;; Ok b.1) children ;;
  same_upper <- (if same_lower
                 then all_agree (fun c => b <- sym_bounds c ;; Ok b.2) children
                 else Ok false) ;;
  (if same_upper then Ok tt
   else (* "Cannot concatenate symbols with different bounds" *)
     Raise ValueError) ;;;
  c0 <- py_index children 0 ;;
  scale <- sym_scale c0 ;;
  reference <- sym_reference c0 ;;
  bounds <- sym_bounds c0 ;;
  node <- Concatenation_init ClsConcatenationVariable children name true
            NoAttrs ;;
  p0 <- sym_raw_print_name c0 ;;
  c1 <- py_index children 1 ;; p1 <- sym_raw_print_name c1 ;;
  print_name <- for_each (fun p child => q <- sym_raw_print_name child ;;
                                         Ok (intersect p q))
                         (drop 2 children) (intersect p0 p1) ;;
  let print_name :=
    if endswith_underscore print_name
    then substring 0 (String.length print_name - 1) print_name
    else print_name in
  let 'mkSymbol cls node_name node_children node_domains _ := node in
  Ok (mkSymbol cls node_name node_children node_domains
        (VariableAttrs scale reference bounds print_name)).

(* ===================================================================== *)
(** * [concatenation] and [numpy_concatenation] *)
(* ===================================================================== *)

(** [broadcast.child]: the single child of a broadcast node. *)
Definition broadcast_child (x : PyObject) : option Symbol :=
  match x with
  | PySymbol s => head (children s)
  | _ => None
  end.

(** [isinstance(child, pybamm.Broadcast) and
     child.child == children[0].child] *)
Definition same_broadcast `{Pybamm} (first child : PyObject) : bool :=
  isinstance_Broadcast child &&
  match broadcast_child child, broadcast_child first with
  | Some a, Some b => symbol_eq a b
  | _, _ => false
  end.

Definition simplified_concatenation `{Pybamm} (args : list PyObject)
  : result PyObject :=
  (* remove children that are None *)
  let children := List.filter is_not_None args in
  match children with
  | [] =>
      (* "Cannot create empty concatenation" *)
      Raise ValueError
  | [child] => Ok child
  | first :: _ =>
      if forallb isinstance_Variable children then
        node <- ConcatenationVariable_init children ;; Ok (PySymbol node)
      else
        (* Create Concatenation to easily read domains *)
        concat <- Concatenation_init ClsConcatenation children None true
                    NoAttrs ;;
        if forallb (same_broadcast first) children then
          match broadcast_child first with
          | Some unique_child =>
              if isinstance_PrimaryBroadcast first then
                node <- PrimaryBroadcast unique_child (domain concat) ;;
                Ok (PySymbol node)
              else
                node <- FullBroadcast unique_child (domains concat) ;;
                Ok (PySymbol node)
          | None => Raise IndexError
          end
        else Ok (PySymbol concat)
  end.

Definition concatenation `{Pybamm} (args : list PyObject) : result PyObject :=
  simplified_concatenation args.

Definition NumpyConcatenation_init `{Pybamm} (args : list PyObject)
  : result Symbol :=
  (* Turn objects that evaluate to scalars to objects that evaluate to
     vectors, so that we can concatenate them *)
  children <- map_result
    (fun child => match child with
                  | PySymbol c =>
                      if evaluates_to_number c
                      then Ok (PySymbol (times_unit_vector c))
                      else Ok child
                  | _ => Raise AttributeError
                  end) args ;;
  Concatenation_init ClsNumpyConcatenation children
    (Some "numpy_concatenation") false NoAttrs.

(** The loop of [simplified_numpy_concatenation] that builds
    [new_children]. *)
Definition new_children (args : list PyObject) : list PyObject :=
  flat_map (fun child =>
              match child with
              | PySymbol c =>
                  (* extract any children from numpy concatenation *)
                  if isinstance_NumpyConcatenation child
                  then map PySymbol (children c)
                  else [child]
              | _ => [child]
              end) args.

Definition simplified_numpy_concatenation `{Pybamm} (args : list PyObject)
  : result Symbol :=
  (* Turn a concatenation of concatenations into a single concatenation *)
  node <- NumpyConcatenation_init (new_children args) ;;
  Ok (simplify_if_constant node).

Definition numpy_concatenation `{Pybamm} (args : list PyObject)
  : result Symbol :=
  simplified_numpy_concatenation args.

(* ===================================================================== *)
(** * [DomainConcatenation]: the slice layout *)
(* ===================================================================== *)

(** Modelled from the spec: the mesh is "queried only for
    [mesh[domain_name].npts]", an integer point count. The module indexes
    it with one domain name ([npts]) and with the list of names of an
    auxiliary level ([npts_of_level]). *)
Record Mesh := mkMesh {
  npts : string -> nat;
  npts_of_level : list string -> nat
}.

(** A [defaultdict(list)] from domain name to slices; Python dictionaries
    keep their keys in insertion order. *)
Definition SliceDict := list (string * list slice).

(** [slices[dom]] *)
Fixpoint dd_get (slices : SliceDict) (dom : string) : list slice :=
  match slices with
  | [] => []
  | (k, v) :: rest => if String.eqb k dom then v else dd_get rest dom
  end.

(** [slices[dom].append(x)] *)
Fixpoint dd_append (slices : SliceDict) (dom : string) (x : slice)
  : SliceDict :=
  match slices with
  | [] => [(dom, [x])]
  | (k, v) :: rest =>
      if String.eqb k dom then (k, v ++ [x]) :: rest
      else (k, v) :: dd_append rest dom x
  end.

Record DomainConcatenation := mkDomainConcatenation {
  node : Symbol;
  _full_mesh : Mesh;
  secondary_dimensions_npts : nat;
  _slices : SliceDict;
  _size : nat;
  _children_slices : list SliceDict
}.

Definition full_mesh (self : DomainConcatenation) : Mesh := _full_mesh self.

(** Helper method to read the 'auxiliary_domain' meshes. *)
Definition _get_auxiliary_domain_repeats (self : DomainConcatenation)
    (auxiliary_domains : Domains) : nat :=
  fold_left
    (fun mesh_pts '(level, dom) =>
       if negb (Level_eqb level Primary) && negb (bool_decide (dom = []))
       then mesh_pts * npts_of_level (full_mesh self) dom
       else mesh_pts)
    (domains_items auxiliary_domains) 1.

(** The loop variables [start], [end] and [slices] of [create_slices]. *)
Record slicing := mkSlicing {
  sl_start : nat;
  sl_end : nat;
  sl_slices : SliceDict
}.

(** Body of the inner loop: [for dom in node.domain]. *)
Definition slice_domain (self : DomainConcatenation) (st : slicing)
    (dom : string) : slicing :=
  let end_ := sl_end st + npts (full_mesh self) dom in
  let slices := dd_append (sl_slices st) dom (Slice (sl_start st) end_) in
  mkSlicing end_ end_ slices.

(** Body of the outer loop: [for i in range(second_pts)]. *)
Definition slice_repeat (self : DomainConcatenation) (of_node : Symbol)
    (st : slicing) (i : nat) : slicing :=
  fold_left (slice_domain self) (domain of_node) st.

Definition create_slices (self : DomainConcatenation) (of_node : Symbol)
  : result SliceDict :=
  let second_pts := _get_auxiliary_domain_repeats self (domains (node self)) in
  if negb (second_pts =? secondary_dimensions_npts self) then
    (* "Concatenation and children must have the same number of points in
       secondary dimensions" *)
    Raise ValueError
  else
    Ok (sl_slices
          (fold_left (slice_repeat self of_node) (seq 0 second_pts)
             (mkSlicing 0 0 []))).

Definition DomainConcatenation_init (args : list PyObject)
    (mesh : Mesh) (copy_this : option DomainConcatenation)
  : result DomainConcatenation :=
  (* Allow the base class to sort the domains into the correct order *)
  base <- Concatenation_init ClsDomainConcatenation args
            (Some "domain_concatenation") true NoAttrs ;;
  match copy_this with
  | None =>
      (* store mesh *)
      let self := mkDomainConcatenation base mesh 0 [] 0 [] in
      (* create dict of domain => slice of final vector *)
      let self := mkDomainConcatenation base mesh
                    (_get_auxiliary_domain_repeats self (domains base))
                    [] 0 [] in
      slices <- create_slices self base ;;
      let self := mkDomainConcatenation base mesh
                    (secondary_dimensions_npts self) slices 0 [] in
      (* store size of final vector *)
      last_dom <- py_last (domain base) ;;
      last_slice <- py_last (dd_get slices last_dom) ;;
      let self := mkDomainConcatenation base mesh
                    (secondary_dimensions_npts self) slices
                    (stop last_slice) [] in
      (* create disc of domain => slice for each child *)
      children_slices <- map_result (create_slices self) (children base) ;;
      Ok (mkDomainConcatenation base mesh (secondary_dimensions_npts self)
            slices (stop last_slice) children_slices)
  | Some other =>
      Ok (mkDomainConcatenation base (_full_mesh other)
            (secondary_dimensions_npts other) (_slices other) (_size other)
            (_children_slices other))
  end.

(* ===================================================================== *)
(** * [DomainConcatenation]: evaluation and Jacobian *)
(* ===================================================================== *)

(** [vector[s]] on a column vector: the bounds are clipped to the vector. *)
Definition np_getitem {A} (vector : list A) (s : slice) : list A :=
  drop (start s) (take (stop s) vector).

(** [vector[s] = value]: the value must have the shape of the target
    range, or be a single row that numpy repeats over it. *)
Definition np_setitem {A} (vector : list A) (s : slice) (value : list A)
  : result (list A) :=
  let a := start s `min` length vector in
  let b := a `max` (stop s `min` length vector) in
  if length value =? b - a then
    Ok (take a vector ++ value ++ drop b vector)
  else
    match value with
    | [x] => Ok (take a vector ++ replicate (b - a) x ++ drop b vector)
    | _ => Raise ValueError
    end.

(** [enumerate(xs)] *)
Definition enumerate {A} (xs : list A) : list (nat * A) :=
  zip (seq 0 (length xs)) xs.

Section evaluation.
Context {A : Type}.
(** [np.empty((n, 1))]: [n] rows of whatever the memory holds. *)
Variable np_empty : nat -> list A.

Definition write_slice (self : DomainConcatenation) (child_vector : list A)
    (child_dom : string) (vector : list A) (item : nat * slice)
  : result (list A) :=
  let '(i, _slice) := item in
  target <- py_index (dd_get (_slices self) child_dom) i ;;
  np_setitem vector target (np_getitem child_vector _slice).

Definition write_domain (self : DomainConcatenation) (child_vector : list A)
    (vector : list A) (item : string * list slice) : result (list A) :=
  let '(child_dom, child_slice) := item in
  for_each (write_slice self child_vector child_dom)
    (enumerate child_slice) vector.

Definition write_child (self : DomainConcatenation) (vector : list A)
    (item : list A * SliceDict) : result (list A) :=
  let '(child_vector, slices) := item in
  for_each (write_domain self child_vector) slices vector.

Definition _concatenation_evaluate (self : DomainConcatenation)
    (children_eval : list (list A)) : result (list A) :=
  (* preallocate vector *)
  let vector := np_empty (_size self) in
  (* loop through domains of children writing subvectors to final vector *)
  for_each (write_child self) (zip children_eval (_children_slices self))
    vector.
End evaluation.

(** The nodes a Jacobian is assembled from: [pybamm.Index(child, slice)]
    and the [SparseStack] of such blocks. *)
Inductive IndexNode (J : Type) := Index (child : J) (index : slice).
Arguments Index {J} child index.

Inductive StackNode (J : Type) := SparseStack (blocks : list (IndexNode J)).
Arguments SparseStack {J} blocks.

Definition jac_child {J} (i : nat) (jacs : list (IndexNode J))
    (item : J * SliceDict) : result (list (IndexNode J)) :=
  let '(child_jac, slices) := item in
  if 1 <? length slices then
    (* "jacobian only implemented for when each child has a single domain" *)
    Raise NotImplementedError
  else
    child_slice <- match slices with
                   | [] => Raise StopIteration
                   | (_, v) :: _ => Ok v
                   end ;;
    s <- py_index child_slice i ;;
    Ok (jacs ++ [Index child_jac s]).

Definition _concatenation_jac {J} (self : DomainConcatenation)
    (children_jacs : list J) : result (StackNode J) :=
  jacs <- for_each
            (fun jacs i =>
               for_each (jac_child i)
                 (zip children_jacs (_children_slices self)) jacs)
            (seq 0 (secondary_dimensions_npts self)) [] ;;
  Ok (SparseStack jacs).

(* ===================================================================== *)
(** * [simplified_domain_concatenation] *)
(* ===================================================================== *)

Definition state_vector_attr {A} (proj : list slice -> list bool -> A)
    (x : PyObject) : result A :=
  match x with
  | PySymbol s =>
      match attrs s with
      | StateVectorAttrs y_slices evaluation_array =>
          Ok (proj y_slices evaluation_array)
      | _ => Raise AttributeError
      end
  | _ => Raise AttributeError
  end.

Definition y_slices := state_vector_attr (fun y _ => y).
Definition evaluation_array := state_vector_attr (fun _ e => e).

(** Modelled from the spec: [pybamm.StateVector(y_slice, domains=...)], a
    node that denotes "pick contiguous rows [a,b) of the solver's state
    vector unchanged", with its indicator array over the state vector. *)
Definition StateVector (y_slice : slice) (domains : Domains) : Symbol :=
  mkSymbol ClsStateVector "y" [] domains
    (StateVectorAttrs [y_slice]
       (replicate (start y_slice `min` stop y_slice) false
        ++ replicate (stop y_slice - start y_slice) true)).

(** A dictionary keyed by symbols, in insertion order: [d[key] = value]. *)
Fixpoint dict_set `{Pybamm} {V} (d : list (Symbol * V)) (key : Symbol)
    (value : V) : list (Symbol * V) :=
  match d with
  | [] => [(key, value)]
  | (k, v) :: rest =>
      if symbol_eq k key then (k, value) :: rest
      else (k, v) :: dict_set rest key value
  end.

(** [np.concatenate([evaluation_array, np.zeros(n - len(evaluation_array))])]
    with the truth values read as numbers. *)
Definition padded_array (longest_eval_array : nat) (evaluation_array : list bool)
  : result (list nat) :=
  if longest_eval_array <? length evaluation_array then
    (* numpy: "negative dimensions are not allowed" *)
    Raise ValueError
  else
    Ok (map (fun b : bool => if b then 1 else 0) evaluation_array
        ++ replicate (longest_eval_array - length evaluation_array) 0).

(** [sum(arrays)] for arrays of one length: Python starts from the number
    0 and adds the arrays elementwise; without arrays the sum is not an
    array and cannot be sliced. *)
Definition sum_arrays (arrays : list (list nat)) : result (list nat) :=
  match arrays with
  | [] => Raise TypeError
  | a :: rest => Ok (fold_left (zip_with Nat.add) rest a)
  end.

(** The two things the simplification may return. *)
Inductive SimplifiedDomainConcatenation :=
| Collapsed (state_vector : Symbol)
| SimplifyIfConstant (concat : DomainConcatenation).

Definition simplified_domain_concatenation `{Pybamm} (children : list PyObject)
    (mesh : Mesh) (copy_this : option DomainConcatenation)
  : result SimplifiedDomainConcatenation :=
  (* Create the DomainConcatenation to read domain and child domain *)
  concat <- DomainConcatenation_init children mesh copy_this ;;
  (* Simplify Concatenation of StateVectors to a single StateVector.
     The sum of the evalation arrays of the StateVectors must be exactly 1 *)
  if forallb isinstance_StateVector children then
    last_child <- py_last children ;;
    last_array <- evaluation_array last_child ;;
    let longest_eval_array := length last_array in
    eval_arrays <- for_each
      (fun eval_arrays child =>
         array <- evaluation_array child ;;
         padded <- padded_array longest_eval_array array ;;
         match child with
         | PySymbol c => Ok (dict_set eval_arrays c padded)
         | _ => Raise TypeError
         end) children [] ;;
    first_child <- py_index children 0 ;;
    first_slices <- y_slices first_child ;;
    first_slice <- py_index first_slices 0 ;;
    let first_start := start first_slice in
    last_slices <- y_slices last_child ;;
    last_slice <- py_last last_slices ;;
    let last_stop := stop last_slice in
    total <- sum_arrays (map snd eval_arrays) ;;
    if forallb (fun x => x =? 1)
         (np_getitem total (Slice first_start last_stop))
    then Ok (Collapsed (StateVector (Slice first_start last_stop)
                          (domains (node concat))))
    else Ok (SimplifyIfConstant concat)
  else Ok (SimplifyIfConstant concat).

Definition domain_concatenation `{Pybamm} (children : list PyObject)
    (mesh : Mesh) : result SimplifiedDomainConcatenation :=
  simplified_domain_concatenation children mesh None.

(* ===================================================================== *)
(** * Further methods of the classes *)
(* ===================================================================== *)

(** [Concatenation.__str__]; [str] is the children's own [__str__]. *)
Definition __str__ (str : Symbol -> string) (self : Symbol) : string :=
  let out := String.append (name self) "(" in
  let out := fold_left
               (fun out child =>
                  String.append out (String.append (str child) ", "))
               (children self) out in
  (* out[:-2] + ")" *)
  String.append (substring 0 (String.length out - 2) out) ")".

(** Modelled from numpy: [np.concatenate] stacks the rows of column
    vectors and needs at least one array. *)
Definition np_concatenate {A} (arrays : list (list A)) : result (list A) :=
  match arrays with
  | [] => Raise ValueError
  | _ => Ok (concat arrays)
  end.

(** [Concatenation._concatenation_evaluate] of the base class, which a
    [NumpyConcatenation] uses with [np.concatenate]. *)
Definition Concatenation_concatenation_evaluate {A}
    (concatenation_function : list (list A) -> result (list A))
    (children_eval : list (list A)) : result (list A) :=
  if length children_eval =? 0 then Ok []
  else concatenation_function children_eval.

(** [Concatenation.evaluate], as a [DomainConcatenation] inherits it:
    the children are evaluated in order ([evaluate_child] is their own
    [evaluate] at the given time, state and inputs) and the results are
    handed to [_concatenation_evaluate]. *)
Definition evaluate {A} (np_empty : nat -> list A)
    (evaluate_child : Symbol -> result (list A))
    (self : DomainConcatenation) : result (list A) :=
  children_eval <- map_result evaluate_child (children (node self)) ;;
  _concatenation_evaluate np_empty self children_eval.

(** [Concatenation._evaluate_for_shape]; [evaluate_for_shape] is the
    children's own method, and [concatenation_function] the attribute that
    [Concatenation.__init__] stores ([None] for a domain concatenation). *)
Definition _evaluate_for_shape {A}
    (concatenation_function : option (list (list A) -> result (list A)))
    (evaluate_for_shape : Symbol -> result (list A)) (self : Symbol)
  : result (list A) :=
  if length (children self) =? 0 then Ok []
  else
    (* Default: use np.concatenate *)
    let concatenation_function :=
      default np_concatenate concatenation_function in
    children_eval <- map_result evaluate_for_shape (children self) ;;
    concatenation_function children_eval.

(** [DomainConcatenation._concatenation_new_copy] and the [create_copy] of
    the base class that calls it; [new_copy] is the children's own
    [new_copy] method. *)
Definition _concatenation_new_copy `{Pybamm} (self : DomainConcatenation)
    (children : list PyObject) : result SimplifiedDomainConcatenation :=
  simplified_domain_concatenation children (full_mesh self) (Some self).

Definition create_copy `{Pybamm} (new_copy : Symbol -> Symbol)
    (self : DomainConcatenation) : result SimplifiedDomainConcatenation :=
  let new_children :=
    map (fun child => PySymbol (new_copy child)) (children (node self)) in
  _concatenation_new_copy self new_children.

(* ===================================================================== *)
(** * A caller: the pressure variables of the convection submodel *)
(* ===================================================================== *)

(** [s.capitalize()] on an ASCII string: the first character in upper
    case, the others in lower case. *)
Definition lower (c : ascii) : ascii :=
  let n := nat_of_ascii c in
  if (65 <=? n) && (n <=? 90) then ascii_of_nat (n + 32) else c.

Fixpoint lower_string (s : string) : string :=
  match s with
  | EmptyString => EmptyString
  | String c s' => String (lower c) (lower_string s')
  end.

Definition str_capitalize (s : string) : string :=
  match s with
  | EmptyString => EmptyString
  | String c rest => String (capitalize c) (lower_string rest)
  end.

(** What a call that looks variables up by name comes to: a value, the
    KeyError of a missing name, or an exception of the concatenation. *)
Inductive Outcome (A : Type) :=
| Returned (a : A)
| KeyError (key : string)
| Raised (e : Exception).
Arguments Returned {A} a.
Arguments KeyError {A} key.
Arguments Raised {A} e.

(** A dictionary with string keys, in insertion order: [d[key]] and
    [d[key] = value]. *)
Fixpoint dict_getitem {V} (d : list (string * V)) (key : string) : option V :=
  match d with
  | [] => None
  | (k, v) :: rest => if String.eqb k key then Some v else dict_getitem rest key
  end.

Fixpoint dict_setitem {V} (d : list (string * V)) (key : string) (value : V)
  : list (string * V) :=
  match d with
  | [] => [(key, value)]
  | (k, v) :: rest =>
      if String.eqb k key then (k, value) :: rest
      else (k, v) :: dict_setitem rest key value
  end.

(** The loop [for domain in self.options.whole_cell_domains] that fills
    [p_dict]. *)
Fixpoint fill_p_dict (variables : list (string * PyObject))
    (whole_cell_domains : list string) (p_dict : list (string * PyObject))
  : Outcome (list (string * PyObject)) :=
  match whole_cell_domains with
  | [] => Returned p_dict
  | domain :: rest =>
      let Domain := str_capitalize domain in
      match dict_getitem variables (String.append Domain " pressure") with
      | Some v => fill_p_dict variables rest (dict_setitem p_dict domain v)
      | None => KeyError (String.append Domain " pressure")
      end
  end.

Definition _get_standard_whole_cell_pressure_variables `{Pybamm}
    (whole_cell_domains : list string) (variables : list (string * PyObject))
  : Outcome (list (string * PyObject)) :=
  match fill_p_dict variables whole_cell_domains [] with
  | Returned p_dict =>
      match concatenation (map snd p_dict) with
      | Ok p => Returned [("Pressure", p)]
      | Raise e => Raised e
      end
  | KeyError key => KeyError key
  | Raised e => Raised e
  end.

(* ===================================================================== *)
(** * Specification-side vocabulary *)
(* ===================================================================== *)

(** A reference instance of the interface, used to run the definitions on
    concrete inputs: sets are iterated in the order of their elements,
    symbols are equal when class, name and domain agree, constant folding
    leaves nodes alone. *)
Definition plain_symbol_eq (a b : Symbol) : bool :=
  bool_decide (sym_class a = sym_class b)
  && String.eqb (name a) (name b)
  && bool_decide (domain a = domain b).

Lemma plain_symbol_eq_domain a b :
  plain_symbol_eq a b = true -> domain a = domain b.
Proof.
  unfold plain_symbol_eq. intros H.
  apply andb_prop in H as [_ H]. by apply bool_decide_eq_true_1 in H.
Defined.

Definition plain_pybamm : Pybamm := {|
  set_iter := fun l => l;
  set_iter_perm := fun l => reflexivity l;
  symbol_eq := plain_symbol_eq;
  symbol_eq_domain := plain_symbol_eq_domain;
  PrimaryBroadcast := fun child dom =>
    Ok (mkSymbol ClsPrimaryBroadcast "broadcast" [child]
          (mkDomains dom [] [] []) NoAttrs);
  FullBroadcast := fun child doms =>
    Ok (mkSymbol ClsFullBroadcast "broadcast" [child] doms NoAttrs);
  evaluates_to_number := fun _ => false;
  times_unit_vector := fun s => s;
  simplify_if_constant := fun s => s
|}.

(** Primary domains of a sequence of children are pairwise disjoint. *)
Definition pairwise_disjoint (ds : list (list string)) : Prop :=
  forall i j a b, i < j -> ds !! i = Some a -> ds !! j = Some b ->
    forall x, x ∈ a -> x ∉ b.

(** What the first loop of the validator accepts, given the names [acc]
    collected before it starts. *)
Definition primary_accepted (acc : list string) (cs : list Symbol) : Prop :=
  Forall (fun c => domain c <> []) cs
  /\ (forall c x, c ∈ cs -> x ∈ domain c -> x ∉ acc)
  /\ pairwise_disjoint (map domain cs).

(** Every later child has, at each auxiliary level the first child fills,
    the same names or none. *)
Definition auxiliary_accepted (c0 : Symbol) (rest : list Symbol) : Prop :=
  forall level, level <> Primary -> domains_get (domains c0) level <> [] ->
    forall c, c ∈ rest ->
      domains_get (domains c) level = domains_get (domains c0) level
      \/ domains_get (domains c) level = [].

(** The first child whose sequence at [level] is non-empty, if any. *)
Definition first_nonempty (level : Level) (cs : list Symbol) : list string :=
  match List.filter (fun c => negb (bool_decide (domains_get (domains c) level = [])))
          cs with
  | c :: _ => domains_get (domains c) level
  | [] => []
  end.

(** Example symbols: a plain node with a primary and a secondary domain. *)
Definition example_symbol (nm : string) (dom sec : list string) : Symbol :=
  mkSymbol ClsSymbol nm [] (mkDomains dom sec [] []) NoAttrs.

(** The child lists from which [concatenation] builds a node of its own:
    two or more children that are not [None] and that are all variables,
    or not all broadcasts of one common child. *)
Definition builds_concatenation_node `{Pybamm} (args : list PyObject) : bool :=
  match List.filter is_not_None args with
  | (first :: _ :: _) as cs =>
      forallb isinstance_Variable cs
      || negb (forallb (same_broadcast first) cs)
  | _ => false
  end.

(** What a second simplification pass is applied to: the children of the
    node the first pass returned. *)
Definition children_of (x : PyObject) : result (list PyObject) :=
  match x with
  | PySymbol s => Ok (map PySymbol (children s))
  | _ => Raise AttributeError
  end.

(** A second pass of [concatenation], over the children of a first result. *)
Definition concatenation_again `{Pybamm} (r : PyObject) : result PyObject :=
  kids <- children_of r ;; concatenation kids.

(** A variable with default scale, reference and bounds. *)
Definition example_variable (nm : string) (dom : list string) : Symbol :=
  mkSymbol ClsVariable nm [] (mkDomains dom [] [] [])
    (VariableAttrs 1 0 (0, 1)%Z nm).

(** The mesh of the running example: 5, 3 and 4 points in the electrodes
    and the separator, and 2 points along an auxiliary level. *)
Definition example_mesh : Mesh :=
  mkMesh (fun dom =>
            if String.eqb dom "negative electrode" then 5
            else if String.eqb dom "separator" then 3
            else if String.eqb dom "positive electrode" then 4
            else 1)
         (fun _ => 2).

(** The check that [x] is the one longest element of [l], as a boolean. *)
Definition unique_longest (x : string) (l : list string) : bool :=
  mem_string x l
  && forallb (fun y => String.eqb y x
                       || (String.length y <? String.length x)) l.

(** Points in one pass over a list of domain names. *)
Definition pattern_size (mesh : Mesh) (doms : list string) : nat :=
  sum_list_with (npts mesh) doms.

(** How often a domain name occurs in a list of names. *)
Definition occurrences (dom : string) (doms : list string) : nat :=
  length (List.filter (fun k => String.eqb k dom) doms).

(** The slices recorded for the names [ks], one after the other from
    [cursor] on, in the order they are recorded. *)
Fixpoint layout (mesh : Mesh) (ks : list string) (cursor : nat)
  : list (string * slice) :=
  match ks with
  | [] => []
  | k :: ks' =>
      (k, Slice cursor (cursor + npts mesh k))
      :: layout mesh ks' (cursor + npts mesh k)
  end.

(** Filing recorded slices under their names. *)
Definition dd_of_log (log : list (string * slice)) (d : SliceDict) : SliceDict :=
  fold_left (fun d e => dd_append d e.1 e.2) log d.

(** The table [create_slices] builds for the names [doms] and [reps]
    repeats. *)
Definition slice_table (mesh : Mesh) (doms : list string) (reps : nat)
  : SliceDict :=
  dd_of_log (layout mesh (concat (replicate reps doms)) 0) [].

(** The points of a slice. *)
Definition in_slice (x : nat) (s : slice) : Prop := start s <= x < stop s.

(** The blocks of the Jacobian, repeat by repeat and child by child: child
    [c], whose own layout has [pattern_size mesh (domain c)] rows per
    repeat, contributes the rows of repeat [r]. *)
Definition jacobian_blocks {J} (mesh : Mesh) (reps : nat)
    (children_jacs : list J) (cs : list Symbol) : list (IndexNode J) :=
  flat_map
    (fun r =>
       zip_with
         (fun jac c =>
            Index jac (Slice (r * pattern_size mesh (domain c))
                             (r * pattern_size mesh (domain c)
                              + pattern_size mesh (domain c))))
         children_jacs cs)
    (seq 0 reps).

(** Two slices one of which ends before the other begins. *)
Definition separated (s t : slice) : Prop :=
  stop s <= start t \/ stop t <= start s.

(** One assignment of the evaluation loop, as a request: the name and
    position of the target slice in the table [slices], and the rows to
    store there. *)
Definition write_request {A} (slices : SliceDict) (vector : list A)
    (request : string * nat * list A) : result (list A) :=
  let '(dom, i, value) := request in
  target <- py_index (dd_get slices dom) i ;;
  np_setitem vector target value.

(** The requests one child makes, in the order of its slice table. *)
Definition child_requests {A} (item : list A * SliceDict)
  : list (string * nat * list A) :=
  let '(child_vector, slices) := item in
  flat_map (fun '(dom, child_slice) =>
              map (fun '(i, s) => (dom, i, np_getitem child_vector s))
                  (enumerate child_slice))
           slices.

(** Rows a child's vector must have: its own pattern once per repeat. *)
Definition child_size (mesh : Mesh) (reps : nat) (c : Symbol) : nat :=
  reps * pattern_size mesh (domain c).

(** The state-vector attributes of a symbol (none for other symbols). *)
Definition indicator_array (c : Symbol) : list bool :=
  match attrs c with
  | StateVectorAttrs _ evaluation_array => evaluation_array
  | _ => []
  end.

Definition slices_of (c : Symbol) : list slice :=
  match attrs c with
  | StateVectorAttrs y_slices _ => y_slices
  | _ => []
  end.

Definition is_state_vector (c : Symbol) : Prop :=
  sym_class c = ClsStateVector
  /\ attrs c = StateVectorAttrs (slices_of c) (indicator_array c).

(** What a state vector contributes at index [k] of the state: 1 where
    its indicator array is true, 0 elsewhere and beyond its end. *)
Definition indicator (c : Symbol) (k : nat) : nat :=
  match indicator_array c !! k with
  | Some true => 1
  | _ => 0
  end.

Definition indicator_sum (cs : list Symbol) (k : nat) : nat :=
  sum_list_with (fun c => indicator c k) cs.

(** A state vector over the given slices, with the indicator array its
    constructor derives from them. *)
Definition example_state_vector (dom : list string) (y_slices : list slice)
    (evaluation_array : list bool) : Symbol :=
  mkSymbol ClsStateVector "y" [] (mkDomains dom [] [] [])
    (StateVectorAttrs y_slices evaluation_array).

(** [x] occurs in [s] as a contiguous, non-empty piece. *)
Definition contiguous_substring (x s : string) : Prop :=
  x <> EmptyString
  /\ exists pre post, s = String.append pre (String.append x post).

(** ** Vocabulary of the further properties *)

(** Scale, reference and bounds of a variable (none for other symbols). *)
Definition variable_attrs_of (c : Symbol) : option (Z * Z * (Z * Z)) :=
  match attrs c with
  | VariableAttrs scale reference bounds _ => Some (scale, reference, bounds)
  | _ => None
  end.

(** The first and the last character of a string. *)
Definition first_char (s : string) : option ascii := get 0 s.
Definition last_char (s : string) : option ascii :=
  get (String.length s - 1) s.

(** A variable whose scale is 2 rather than the default 1. *)
Definition example_scaled_variable (nm : string) (dom : list string) : Symbol :=
  mkSymbol ClsVariable nm [] (mkDomains dom [] [] [])
    (VariableAttrs 2 0 (0, 1)%Z nm).

(** What [numpy_concatenation] makes of its arguments: the children of a
    numpy concatenation stand in for it, and a child that evaluates to a
    number is multiplied by the unit vector. *)
Definition spliced (cs : list Symbol) : list Symbol :=
  flat_map (fun c => if bool_decide (sym_class c = ClsNumpyConcatenation)
                     then children c else [c]) cs.

Definition as_vector `{Pybamm} (c : Symbol) : Symbol :=
  if evaluates_to_number c then times_unit_vector c else c.

(** A broadcast of the symbol [u] (or of one that compares equal to it). *)
Definition broadcast_of `{Pybamm} (u b : Symbol) : Prop :=
  isinstance_Broadcast (PySymbol b) = true
  /\ exists x, head (children b) = Some x /\ symbol_eq x u = true.

(** A primary broadcast of [child] over the domain [dom]. *)
Definition example_broadcast (child : Symbol) (dom : list string) : Symbol :=
  mkSymbol ClsPrimaryBroadcast "broadcast" [child]
    (mkDomains dom [] [] []) NoAttrs.

(** Points of an auxiliary level of the mesh; a level without names counts
    once. *)
Definition level_npts (mesh : Mesh) (dom : list string) : nat :=
  if bool_decide (dom = []) then 1 else npts_of_level mesh dom.

(** The number of times the pattern of primary domains is repeated: the
    product of the points of the auxiliary levels. *)
Definition auxiliary_repeats (mesh : Mesh) (d : Domains) : nat :=
  level_npts mesh (secondary d) * level_npts mesh (tertiary d)
  * level_npts mesh (quaternary d).

(** The rows of repeat [r] in the vector of child [c], and the vector made
    of these blocks, repeat by repeat and within a repeat child by
    child. *)
Definition repeat_rows {A} (mesh : Mesh) (r : nat) (cv : list A)
    (c : Symbol) : list A :=
  np_getitem cv (Slice (r * pattern_size mesh (domain c))
                       (r * pattern_size mesh (domain c)
                        + pattern_size mesh (domain c))).

Definition stacked_rows {A} (mesh : Mesh) (reps : nat)
    (children_eval : list (list A)) (cs : list Symbol) : list A :=
  flat_map (fun r => concat (zip_with (repeat_rows mesh r) children_eval cs))
           (seq 0 reps).

(** The rows a Jacobian block [Index(child, slice)] selects, read on a
    vector in place of the child's Jacobian. *)
Definition block_rows {A} (b : IndexNode (list A)) : list A :=
  match b with Index cv s => np_getitem cv s end.

(** An argument that is not an expression node. *)
Definition not_a_symbol (x : PyObject) : Prop :=
  match x with PySymbol _ => False | _ => True end.

(** The class of the node [concatenation] builds for the given children. *)
Definition node_class (cs : list Symbol) : SymbolClass :=
  if forallb isinstance_Variable (map PySymbol cs)
  then ClsConcatenationVariable else ClsConcatenation.

(* ===================================================================== *)
(** * Generic facts about the error monad and loops *)
(* ===================================================================== *)

Lemma bind_Ok {A B} (r : result A) (k : A -> result B) b :
  bind r k = Ok b -> exists a, r = Ok a /\ k a = Ok b.
Proof. destruct r; simpl; [eauto | discriminate]. Qed.

(** Peel every [bind] off a hypothesis [H : ... = Ok _], keeping the
    intermediate results and their equations. *)
Ltac invert_binds H := repeat (apply bind_Ok in H as (? & ? & H)).

Lemma for_each_app {A S} (body : S -> A -> result S) xs ys s :
  for_each body (xs ++ ys) s = (s' <- for_each body xs s ;; for_each body ys s').
Proof.
  revert s. induction xs as [|x xs IH]; intros s; simpl; [done|].
  destruct (body s x); simpl; auto.
Qed.

Lemma for_each_flat_map {A B S} (body : S -> B -> result S)
    (f : A -> list B) xs s :
  for_each body (flat_map f xs) s
  = for_each (fun s x => for_each body (f x) s) xs s.
Proof.
  revert s. induction xs as [|x xs IH]; intros s; simpl; [done|].
  rewrite for_each_app. destruct (for_each body (f x) s); simpl; auto.
Qed.

Lemma for_each_ext {A S} (f g : S -> A -> result S) xs s :
  (forall s x, x ∈ xs -> f s x = g s x) -> for_each f xs s = for_each g xs s.
Proof.
  revert s. induction xs as [|x xs IH]; intros s Hfg; simpl; [done|].
  rewrite Hfg by left. destruct (g s x); simpl; [|done].
  apply IH. intros. apply Hfg. by right.
Qed.

Lemma as_symbols_map cs : as_symbols (map PySymbol cs) = Ok cs.
Proof.
  unfold as_symbols. induction cs as [|c cs IH]; simpl; [done|].
  by rewrite IH.
Qed.

Lemma as_symbols_Ok args cs : as_symbols args = Ok cs -> args = map PySymbol cs.
Proof.
  unfold as_symbols. revert cs.
  induction args as [|x args IH]; intros cs; simpl.
  - by intros [= <-].
  - destruct x; simpl; try discriminate.
    destruct (map_result _ args) as [cs'|]; simpl; [|discriminate].
    intros [= <-]. simpl. f_equal. by apply IH.
Qed.

(* ===================================================================== *)
(** * The domain validator *)
(* ===================================================================== *)

Lemma isdisjoint_true a b :
  isdisjoint a b = true <-> forall x, x ∈ b -> x ∉ a.
Proof.
  unfold isdisjoint. rewrite forallb_forall. split.
  - intros H x Hx. apply list_elem_of_In, H in Hx.
    apply negb_true_iff, bool_decide_eq_false in Hx. done.
  - intros H x Hx. apply list_elem_of_In, H in Hx.
    by apply negb_true_iff, bool_decide_eq_false.
Qed.

Lemma pairwise_disjoint_cons a ds :
  pairwise_disjoint (a :: ds)
  <-> (forall b x, b ∈ ds -> x ∈ a -> x ∉ b) /\ pairwise_disjoint ds.
Proof.
  unfold pairwise_disjoint. split.
  - intros H. split.
    + intros b x Hb Hx. apply list_elem_of_lookup in Hb as [j Hj].
      apply (H 0 (S j) a b); [lia|done|done|done].
    + intros i j u v Hij Hi Hj. apply (H (S i) (S j)); [lia|done|done].
  - intros [H0 H] i j u v Hij Hi Hj.
    destruct j as [|j]; [lia|]. simpl in Hj.
    destruct i as [|i]; simpl in Hi.
    + injection Hi as <-. intros x Hx. eapply H0; [|done].
      eapply list_elem_of_lookup_2; done.
    + apply (H i j); [lia|done|done].
Qed.

Lemma primary_accepted_cons acc c cs :
  primary_accepted acc (c :: cs)
  <-> domain c <> [] /\ (forall x, x ∈ domain c -> x ∉ acc)
      /\ primary_accepted (acc ++ domain c) cs.
Proof.
  unfold primary_accepted. simpl. rewrite Forall_cons, pairwise_disjoint_cons.
  split.
  - intros ((Hc & Hcs) & Hacc & Hdis & Hpw). repeat split; try done.
    + intros x Hx. apply (Hacc c); [left|done].
    + intros c' x Hc' Hx Hin. apply elem_of_app in Hin as [Hin|Hin].
      * eapply (Hacc c'); [by right|done|done].
      * eapply (Hdis (domain c') x); [|done|done].
        apply list_elem_of_fmap. eauto.
  - intros (Hc & Hacc & Hcs & Hacc' & Hpw). repeat split; try done.
    + intros c' x Hc' Hx Hin. apply elem_of_cons in Hc' as [->|Hc'].
      * by eapply Hacc.
      * eapply Hacc'; [done|done|]. apply elem_of_app. by left.
    + intros b x Hb Hx Hxb. apply list_elem_of_fmap in Hb as (c' & -> & Hc').
      eapply Hacc'; [done|done|]. apply elem_of_app. by right.
Qed.

(** The first loop either collects the children's domains in order or
    stops with [DomainError]. *)
Lemma combine_domain_loop cs acc :
  (primary_accepted acc cs
   /\ for_each combine_domain (map PySymbol cs) acc
      = Ok (acc ++ concat (map domain cs)))
  \/ (~ primary_accepted acc cs
      /\ for_each combine_domain (map PySymbol cs) acc = Raise DomainError).
Proof.
  revert acc. induction cs as [|c cs IH]; intros acc.
  - left. split; [|by rewrite app_nil_r].
    repeat split; [constructor| |].
    + intros c x Hc. by apply elem_of_nil in Hc.
    + intros i j a b _ Hi. done.
  - cbn [map for_each]. rewrite primary_accepted_cons.
    destruct (decide (domain c = [])) as [Hempty|Hempty].
    { right. split; [by intros (H & _)|].
      unfold combine_domain. by rewrite bool_decide_eq_true_2. }
    destruct (isdisjoint acc (domain c)) eqn:Hdis.
    + assert (combine_domain acc (PySymbol c) = Ok (acc ++ domain c)) as ->.
      { unfold combine_domain. rewrite bool_decide_eq_false_2 by done.
        by rewrite Hdis. }
      rewrite isdisjoint_true in Hdis. cbn [bind].
      destruct (IH (acc ++ domain c)) as [[Hacc ->]|[Hrej ->]].
      * left. split; [done|]. simpl. by rewrite <- app_assoc.
      * right. split; [|done]. intros (_ & _ & H). done.
    + assert (combine_domain acc (PySymbol c) = Raise DomainError) as ->.
      { unfold combine_domain. rewrite bool_decide_eq_false_2 by done.
        by rewrite Hdis. }
      right. split; [|done]. intros (_ & H & _).
      rewrite <- isdisjoint_true in H. congruence.
Qed.

Lemma check_auxiliary_child_loop level dom rest :
  ((forall c, c ∈ rest -> domains_get (domains c) level = dom
                         \/ domains_get (domains c) level = [])
   /\ for_each (check_auxiliary_child level dom) (map PySymbol rest) tt = Ok tt)
  \/ (~ (forall c, c ∈ rest -> domains_get (domains c) level = dom
                              \/ domains_get (domains c) level = [])
      /\ for_each (check_auxiliary_child level dom) (map PySymbol rest) tt
         = Raise DomainError).
Proof.
  induction rest as [|c rest IH]; simpl.
  - left. split; [|done]. intros c Hc. by apply elem_of_nil in Hc.
  - destruct (decide (domains_get (domains c) level = dom)) as [Heq|Hne];
      [|destruct (decide (domains_get (domains c) level = [])) as [Hnil|Hnn]].
    + rewrite bool_decide_eq_true_2 by done. simpl.
      destruct IH as [[H ->]|[H ->]]; [left|right]; split; try done.
      * intros c' [->|Hc']%elem_of_cons; auto.
      * intros H'. apply H. intros c' Hc'. apply H'. by right.
    + rewrite (bool_decide_eq_true_2 (_ = [])) by done. rewrite orb_true_r.
      simpl.
      destruct IH as [[H ->]|[H ->]]; [left|right]; split; try done.
      * intros c' [->|Hc']%elem_of_cons; auto.
      * intros H'. apply H. intros c' Hc'. apply H'. by right.
    + rewrite !bool_decide_eq_false_2 by done. simpl.
      right. split; [|done]. intros H. destruct (H c); [left|done|done].
Qed.

Lemma check_auxiliary_loop c0 rest :
  (auxiliary_accepted c0 rest
   /\ for_each (check_auxiliary_level (map PySymbol rest))
        (domains_items (domains c0)) tt = Ok tt)
  \/ (~ auxiliary_accepted c0 rest
      /\ for_each (check_auxiliary_level (map PySymbol rest))
           (domains_items (domains c0)) tt = Raise DomainError).
Proof.
  unfold auxiliary_accepted, domains_items. simpl.
  assert (Hlevel : forall level, level <> Primary ->
    ((domains_get (domains c0) level <> [] -> forall c, c ∈ rest ->
        domains_get (domains c) level = domains_get (domains c0) level
        \/ domains_get (domains c) level = [])
     /\ check_auxiliary_level (map PySymbol rest) tt
          (level, domains_get (domains c0) level) = Ok tt)
    \/ (~ (domains_get (domains c0) level <> [] -> forall c, c ∈ rest ->
        domains_get (domains c) level = domains_get (domains c0) level
        \/ domains_get (domains c) level = [])
        /\ check_auxiliary_level (map PySymbol rest) tt
             (level, domains_get (domains c0) level) = Raise DomainError)).
  { intros level Hl. unfold check_auxiliary_level.
    replace (negb (Level_eqb level Primary)) with true by (by destruct level).
    simpl. case_bool_decide as Hd; simpl.
    - left. split; [|done]. intros H. done.
    - destruct (check_auxiliary_child_loop level
                  (domains_get (domains c0) level) rest) as [[H ->]|[H ->]].
      + left. split; [|done]. auto.
      + right. split; [|done]. intros H'. apply H. auto. }
  destruct (Hlevel Secondary) as [[H2 E2]|[H2 E2]]; [done| |];
    simpl in E2; rewrite E2; simpl.
  2:{ right. split; [|done]. intros H. apply H2. by apply H. }
  destruct (Hlevel Tertiary) as [[H3 E3]|[H3 E3]]; [done| |];
    simpl in E3; rewrite E3; simpl.
  2:{ right. split; [|done]. intros H. apply H3. by apply H. }
  destruct (Hlevel Quaternary) as [[H4 E4]|[H4 E4]]; [done| |];
    simpl in E4; rewrite E4; simpl.
  2:{ right. split; [|done]. intros H. apply H4. by apply H. }
  left. split; [|done]. intros [] Hl; try done.
Qed.

(** The validator on a non-empty list of symbols: the three ways it can
    end. *)
Lemma get_children_domains_cases c0 rest :
  let cs := c0 :: rest in
  (primary_accepted [] cs /\ auxiliary_accepted c0 rest
   /\ get_children_domains (map PySymbol cs)
      = Ok (domains_with_primary (domains c0) (concat (map domain cs))))
  \/ (primary_accepted [] cs /\ ~ auxiliary_accepted c0 rest
      /\ get_children_domains (map PySymbol cs) = Raise DomainError)
  \/ (~ primary_accepted [] cs
      /\ get_children_domains (map PySymbol cs) = Raise DomainError).
Proof.
  intros cs.
  assert (get_children_domains (map PySymbol cs)
          = (d <- for_each combine_domain (map PySymbol cs) [] ;;
             for_each (check_auxiliary_level (map PySymbol rest))
               (domains_items (domains c0)) tt ;;;
             Ok (domains_with_primary (domains c0) d))) as -> by reflexivity.
  destruct (combine_domain_loop cs []) as [[Hp ->]|[Hp ->]]; cbn [bind].
  2:{ right. right. done. }
  destruct (check_auxiliary_loop c0 rest) as [[Ha ->]|[Ha ->]]; cbn [bind].
  - left. done.
  - right. left. done.
Qed.

(** A concatenation node is only built from symbols. *)
Lemma get_children_domains_symbols args d :
  get_children_domains args = Ok d ->
  exists c0 rest, args = map PySymbol (c0 :: rest).
Proof.
  unfold get_children_domains. intros H.
  apply bind_Ok in H as (acc & Hloop & H).
  assert (Hsym : forall xs a b, for_each combine_domain xs a = Ok b ->
                   exists cs, xs = map PySymbol cs).
  { clear. induction xs as [|x xs IH]; intros a b; simpl.
    - exists []. done.
    - destruct x as [|c|]; simpl; try discriminate.
      intros H. apply bind_Ok in H as (a' & _ & H).
      apply IH in H as [cs ->]. by exists (c :: cs). }
  apply Hsym in Hloop as [cs ->].
  destruct cs as [|c0 rest]; [discriminate|]. eauto.
Qed.

(** C6: for children with non-empty, pairwise disjoint primary domains the
    validator's primary domain is the children's primary domains
    concatenated in child order (it returns exactly that when the auxiliary
    levels are compatible, and nothing else is ever returned); a child with
    an empty primary domain, or two children sharing a primary-domain name,
    make the validator fail with DomainError; a concatenation node built
    with domain checking carries that concatenated primary domain. *)
Theorem C6_primary_domain_is_concatenation (c0 : Symbol) (rest : list Symbol) :
  let cs := c0 :: rest in
  (Forall (fun c => domain c <> []) cs ->
   pairwise_disjoint (map domain cs) ->
     (auxiliary_accepted c0 rest ->
        get_children_domains (map PySymbol cs)
        = Ok (domains_with_primary (domains c0) (concat (map domain cs))))
     /\ (~ auxiliary_accepted c0 rest ->
           get_children_domains (map PySymbol cs) = Raise DomainError))
  /\ (forall d, get_children_domains (map PySymbol cs) = Ok d ->
        primary d = concat (map domain cs))
  /\ (forall cls nm at_ nd,
        Concatenation_init cls (map PySymbol cs) nm true at_ = Ok nd ->
        children nd = cs /\ domain nd = concat (map domain cs))
  /\ (Exists (fun c => domain c = []) cs ->
        get_children_domains (map PySymbol cs) = Raise DomainError)
  /\ (forall i j ci cj x, i < j -> cs !! i = Some ci -> cs !! j = Some cj ->
        x ∈ domain ci -> x ∈ domain cj ->
        get_children_domains (map PySymbol cs) = Raise DomainError).
Proof.
  intros cs.
  assert (Hok : forall d, get_children_domains (map PySymbol cs) = Ok d ->
                  primary d = concat (map domain cs)).
  { intros d Hd.
    destruct (get_children_domains_cases c0 rest) as [(_ & _ & E)|[(_ & _ & E)|(_ & E)]];
      fold cs in E; rewrite E in Hd; try discriminate.
    by injection Hd as <-. }
  assert (Hrej : ~ primary_accepted [] cs ->
                 get_children_domains (map PySymbol cs) = Raise DomainError).
  { intros Hn.
    destruct (get_children_domains_cases c0 rest) as [(H & _)|[(H & _)|(_ & E)]];
      done. }
  split; [|split; [done|split; [|split]]].
  - intros Hne Hpw.
    assert (Hp : primary_accepted [] cs).
    { repeat split; [done| |done]. intros c x _ _ Hx. by apply elem_of_nil in Hx. }
    destruct (get_children_domains_cases c0 rest) as [(_ & Ha & E)|[(_ & Ha & E)|(Hn & _)]];
      done.
  - intros cls nm at_ nd. unfold Concatenation_init.
    destruct (_ && _); [discriminate|].
    intros H. apply bind_Ok in H as (d & Hd & H).
    rewrite as_symbols_map in H. simpl in H. injection H as <-.
    split; [done|]. by apply Hok.
  - intros Hex. apply Hrej. intros (Hne & _).
    apply Exists_exists in Hex as (c & Hc & Hempty).
    rewrite Forall_forall in Hne. by apply (Hne c).
  - intros i j ci cj x Hij Hi Hj Hxi Hxj. apply Hrej. intros (_ & _ & Hpw).
    apply (Hpw i j (domain ci) (domain cj) Hij) with x; try done.
    + by rewrite list_lookup_fmap, Hi.
    + by rewrite list_lookup_fmap, Hj.
Qed.

(** The validator accepts three electrode-wise children and returns their
    primary domains in order. *)
Lemma C6_witness :
  get_children_domains
    [PySymbol (example_symbol "c_n" ["negative electrode"] []);
     PySymbol (example_symbol "c_s" ["separator"] []);
     PySymbol (example_symbol "c_p" ["positive electrode"] [])]
  = Ok (mkDomains ["negative electrode"; "separator"; "positive electrode"]
          [] [] []).
Proof.
  apply (C6_primary_domain_is_concatenation
           (example_symbol "c_n" ["negative electrode"] [])
           [example_symbol "c_s" ["separator"] [];
            example_symbol "c_p" ["positive electrode"] []]).
  - repeat constructor; discriminate.
  - intros i j a b Hij Hi Hj x Hxa Hxb.
    destruct i as [|[|[|i]]], j as [|[|[|j]]]; simpl in Hi, Hj;
      try lia; try discriminate;
      injection Hi as <-; injection Hj as <-;
      apply list_elem_of_In in Hxa, Hxb; simpl in Hxa, Hxb;
      intuition congruence.
  - intros level Hl Hne. destruct level; simpl in Hne; congruence.
Defined.

(** C7 (as amended): every auxiliary level of the merged descriptor is the
    first child's sequence at that level, and every later child has there
    the same sequence or none; the validator fails with DomainError
    whenever a level that is non-empty in the first child is neither empty
    nor equal in a later child. *)
Theorem C7_auxiliary_levels_of_first_child (c0 : Symbol) (rest : list Symbol) :
  let cs := c0 :: rest in
  (forall d, get_children_domains (map PySymbol cs) = Ok d ->
     secondary d = secondary (domains c0)
     /\ tertiary d = tertiary (domains c0)
     /\ quaternary d = quaternary (domains c0)
     /\ auxiliary_accepted c0 rest)
  /\ (forall level c, level <> Primary ->
        domains_get (domains c0) level <> [] -> c ∈ rest ->
        domains_get (domains c) level <> domains_get (domains c0) level ->
        domains_get (domains c) level <> [] ->
        get_children_domains (map PySymbol cs) = Raise DomainError).
Proof.
  intros cs. split.
  - intros d Hd.
    destruct (get_children_domains_cases c0 rest) as [(_ & Ha & E)|[(_ & _ & E)|(_ & E)]];
      fold cs in E; rewrite E in Hd; try discriminate.
    by injection Hd as <-.
  - intros level c Hl H0 Hc Hne Hnn.
    destruct (get_children_domains_cases c0 rest) as [(_ & Ha & _)|[(_ & _ & E)|(_ & E)]];
      try done.
    destruct (Ha level Hl H0 c Hc); done.
Qed.

Lemma C7_witness :
  get_children_domains
    [PySymbol (example_symbol "c_n" ["negative electrode"] ["current collector"]);
     PySymbol (example_symbol "c_s" ["separator"] ["surface"])]
  = Raise DomainError.
Proof.
  apply (C7_auxiliary_levels_of_first_child
           (example_symbol "c_n" ["negative electrode"] ["current collector"])
           [example_symbol "c_s" ["separator"] ["surface"]])
    with (level := Secondary) (c := example_symbol "c_s" ["separator"] ["surface"]);
    simpl; try discriminate.
  left.
Defined.

(** C7 as stated fails: with an empty secondary level in the first child
    the merged descriptor's secondary level is empty although a later
    child has one, and two later children with different non-empty
    secondary levels are accepted. *)
Lemma C7_counterexample :
  let cs := [example_symbol "c_n" ["negative electrode"] [];
             example_symbol "c_s" ["separator"] ["current collector"];
             example_symbol "c_p" ["positive electrode"] ["surface"]] in
  exists d, get_children_domains (map PySymbol cs) = Ok d
    /\ secondary d = []
    /\ first_nonempty Secondary cs = ["current collector"]
    /\ secondary d <> first_nonempty Secondary cs
    /\ cs !! 1 ≫= (fun c => Some (secondary (domains c)))
       = Some ["current collector"]
    /\ cs !! 2 ≫= (fun c => Some (secondary (domains c))) = Some ["surface"].
Proof.
  eexists. split; [vm_compute; reflexivity|]. simpl.
  split; [done|]. split; [done|]. split; [discriminate|]. done.
Qed.

(* ===================================================================== *)
(** * The simplifying constructors *)
(* ===================================================================== *)

Lemma filter_not_None_symbols cs :
  List.filter is_not_None (map PySymbol cs) = map PySymbol cs.
Proof. induction cs as [|c cs IH]; simpl; [done|]. by rewrite IH. Qed.

Lemma Concatenation_init_children cls args nm chk at_ nd :
  Concatenation_init cls args nm chk at_ = Ok nd ->
  args = map PySymbol (children nd).
Proof.
  unfold Concatenation_init. destruct (_ && _); [discriminate|].
  intros H. apply bind_Ok in H as (d & _ & H).
  apply bind_Ok in H as (cs & Hcs & H). injection H as <-. simpl.
  by apply as_symbols_Ok.
Qed.

Lemma ConcatenationVariable_init_children `{Pybamm} args nd :
  ConcatenationVariable_init args = Ok nd ->
  args = map PySymbol (children nd).
Proof.
  unfold ConcatenationVariable_init. intros H0. invert_binds H0.
  match goal with
  | Hnd : Concatenation_init _ _ _ _ _ = Ok ?n |- _ =>
      apply Concatenation_init_children in Hnd; destruct n
  end.
  by injection H0 as <-.
Qed.

(** C10: [None] arguments are dropped first, and a single remaining child
    is returned as it is, not wrapped in a concatenation node; so
    concatenation(c) and concatenation(c, None) both return c. *)
Theorem C10_single_child_returned_unchanged `{Pybamm} :
  (forall args child, List.filter is_not_None args = [child] ->
     concatenation args = Ok child)
  /\ (forall c, concatenation [PySymbol c] = Ok (PySymbol c))
  /\ (forall c, concatenation [PySymbol c; PyNone] = Ok (PySymbol c)).
Proof.
  assert (Hgen : forall args child, List.filter is_not_None args = [child] ->
                   concatenation args = Ok child).
  { intros args child Hf. unfold concatenation, simplified_concatenation.
    by rewrite Hf. }
  split; [exact Hgen|]. split; intros c; apply Hgen; reflexivity.
Qed.

Lemma C10_witness :
  @concatenation plain_pybamm
    [PyNone; PySymbol (example_symbol "c_n" ["negative electrode"] []); PyNone]
  = Ok (PySymbol (example_symbol "c_n" ["negative electrode"] [])).
Proof.
  apply (proj1 (@C10_single_child_returned_unchanged plain_pybamm)
           [PyNone; PySymbol (example_symbol "c_n" ["negative electrode"] []);
            PyNone]
           (PySymbol (example_symbol "c_n" ["negative electrode"] []))).
  reflexivity.
Defined.

(** C9 (as amended): when [concatenation] builds a node of its own (two or
    more children that are not None, all variables or not all broadcasts of
    one common child), that node's children are the arguments that are not
    None, and applying [concatenation] to them again returns the same
    result; when [numpy_concatenation] returns the numpy concatenation node
    it built (constant folding left it as it is) and no child of that node
    is itself a numpy concatenation or evaluates to a number, applying
    [numpy_concatenation] to the node's children returns the same node. *)
Theorem C9_second_pass_returns_same_node `{Pybamm} :
  (forall args r,
     builds_concatenation_node args = true ->
     concatenation args = Ok r ->
     children_of r = Ok (List.filter is_not_None args)
     /\ concatenation_again r = Ok r)
  /\ (forall args nd,
        NumpyConcatenation_init (new_children args) = Ok nd ->
        simplify_if_constant nd = nd ->
        Forall (fun c => sym_class c <> ClsNumpyConcatenation
                         /\ evaluates_to_number c = false) (children nd) ->
        numpy_concatenation args = Ok nd
        /\ numpy_concatenation (map PySymbol (children nd)) = Ok nd).
Proof.
  split.
  - intros args r Hb Hr. unfold concatenation_again.
    unfold builds_concatenation_node in Hb.
    unfold concatenation, simplified_concatenation in Hr |- *.
    destruct (List.filter is_not_None args) as [|first [|second cs]] eqn:Hf;
      try discriminate.
    change (forallb isinstance_Variable (first :: second :: cs)
            || negb (forallb (same_broadcast first) (first :: second :: cs))
            = true) in Hb.
    assert (Hkids : children_of r = Ok (first :: second :: cs)).
    { destruct (forallb isinstance_Variable (first :: second :: cs)) eqn:Hv;
        cbn [orb] in Hb.
      - apply bind_Ok in Hr as (nd & Hnd & Hr). injection Hr as <-.
        apply ConcatenationVariable_init_children in Hnd. simpl.
        by rewrite Hnd.
      - apply bind_Ok in Hr as (nd & Hnd & Hr).
        apply negb_true_iff in Hb. rewrite Hb in Hr.
        injection Hr as <-.
        apply Concatenation_init_children in Hnd. simpl. by rewrite Hnd. }
    split; [done|]. rewrite Hkids. cbn [bind].
    assert (List.filter is_not_None (first :: second :: cs)
            = first :: second :: cs) as ->; [|exact Hr].
    destruct r as [|s|]; try discriminate. simpl in Hkids.
    injection Hkids as Hk. rewrite <- Hk. apply filter_not_None_symbols.
  - intros args nd Hnd Hfix Hall.
    unfold numpy_concatenation, simplified_numpy_concatenation.
    rewrite Hnd. cbn [bind]. rewrite Hfix. split; [done|].
    assert (new_children (map PySymbol (children nd)) = map PySymbol (children nd))
      as ->.
    { clear Hnd Hfix. induction Hall as [|c cs [Hc _] _ IH]; [done|].
      unfold new_children in *. cbn [map flat_map]. rewrite IH.
      unfold isinstance_NumpyConcatenation, isinstance. cbn [existsb].
      by rewrite bool_decide_eq_false_2. }
    unfold NumpyConcatenation_init in Hnd |- *.
    apply bind_Ok in Hnd as (kids & Hkids & Hnd).
    pose proof (Concatenation_init_children _ _ _ _ _ _ Hnd) as ->.
    assert (map_result
              (fun child => match child with
                            | PySymbol c =>
                                if evaluates_to_number c
                                then Ok (PySymbol (times_unit_vector c))
                                else Ok child
                            | _ => Raise AttributeError
                            end) (map PySymbol (children nd))
            = Ok (map PySymbol (children nd))) as ->.
    { clear Hkids Hnd Hfix. induction Hall as [|c cs [_ Hc] _ IH]; [done|].
      cbn [map map_result]. rewrite Hc, IH. done. }
    cbn [bind]. rewrite Hnd. cbn [bind]. by rewrite Hfix.
Qed.

Lemma C9_witness :
  @concatenation_again plain_pybamm
    (PySymbol (mkSymbol ClsConcatenation "concatenation"
                 [example_symbol "c_n" ["negative electrode"] [];
                  example_symbol "c_s" ["separator"] []]
                 (mkDomains ["negative electrode"; "separator"] [] [] [])
                 NoAttrs))
  = Ok (PySymbol (mkSymbol ClsConcatenation "concatenation"
                    [example_symbol "c_n" ["negative electrode"] [];
                     example_symbol "c_s" ["separator"] []]
                    (mkDomains ["negative electrode"; "separator"] [] [] [])
                    NoAttrs))
  /\ @numpy_concatenation plain_pybamm
       [PySymbol (example_symbol "c_n" ["negative electrode"] []);
        PySymbol (example_symbol "c_s" ["separator"] [])]
     = Ok (mkSymbol ClsNumpyConcatenation "numpy_concatenation"
             [example_symbol "c_n" ["negative electrode"] [];
              example_symbol "c_s" ["separator"] []]
             EMPTY_DOMAINS NoAttrs).
Proof.
  split.
  - apply (proj1 (@C9_second_pass_returns_same_node plain_pybamm)
             [PySymbol (example_symbol "c_n" ["negative electrode"] []); PyNone;
              PySymbol (example_symbol "c_s" ["separator"] [])]);
      reflexivity.
  - apply (proj2 (@C9_second_pass_returns_same_node plain_pybamm)
             [PySymbol (example_symbol "c_n" ["negative electrode"] []);
              PySymbol (example_symbol "c_s" ["separator"] [])]
             (mkSymbol ClsNumpyConcatenation "numpy_concatenation"
                [example_symbol "c_n" ["negative electrode"] [];
                 example_symbol "c_s" ["separator"] []]
                EMPTY_DOMAINS NoAttrs)).
    + reflexivity.
    + reflexivity.
    + repeat constructor; discriminate.
Defined.

(** C9 as stated fails: a single child is returned as it is, and a second
    pass over the children of a childless symbol has nothing to
    concatenate. *)
Lemma C9_counterexample :
  @concatenation plain_pybamm
    [PySymbol (example_symbol "c_n" ["negative electrode"] [])]
  = Ok (PySymbol (example_symbol "c_n" ["negative electrode"] []))
  /\ @concatenation_again plain_pybamm
       (PySymbol (example_symbol "c_n" ["negative electrode"] []))
     = Raise ValueError.
Proof. split; reflexivity. Qed.

(* ===================================================================== *)
(** * The merged name of a [ConcatenationVariable] *)
(* ===================================================================== *)

Lemma mem_string_true x l : mem_string x l = true <-> x ∈ l.
Proof.
  unfold mem_string. rewrite existsb_exists. split.
  - intros (y & Hy & Heq). apply String.eqb_eq in Heq as ->.
    by apply list_elem_of_In.
  - intros Hx. exists x. split; [by apply list_elem_of_In|].
    apply String.eqb_refl.
Qed.

(** [max(..., key=len)] returns an element, and none is longer. *)
Lemma max_by_len_spec best xs :
  max_by_len best xs ∈ best :: xs
  /\ forall y, y ∈ best :: xs ->
       String.length y <= String.length (max_by_len best xs).
Proof.
  revert best. induction xs as [|x xs IH]; intros best; simpl.
  - split; [left|]. intros y Hy. apply list_elem_of_singleton in Hy as ->. lia.
  - destruct (String.length best <? String.length x) eqn:Hlt.
    + apply Nat.ltb_lt in Hlt. destruct (IH x) as [Hin Hmax]. split.
      * by right.
      * intros y [->|Hy]%elem_of_cons; [|by apply Hmax].
        specialize (Hmax x (list_elem_of_here _ _)). lia.
    + apply Nat.ltb_ge in Hlt. destruct (IH best) as [Hin Hmax]. split.
      * apply elem_of_cons in Hin as [->|Hin]; [left|right; by right].
      * intros y [->|[->|Hy]%elem_of_cons]%elem_of_cons.
        -- apply Hmax. left.
        -- specialize (Hmax best (list_elem_of_here _ _)). lia.
        -- apply Hmax. by right.
Qed.

(** Whatever the iteration order of the set, a common substring that is
    strictly longer than all the others is the one [intersect] picks. *)
Lemma intersect_unique_longest `{Pybamm} s1 s2 x :
  x ∈ all_intersects s1 s2 ->
  (forall y, y ∈ all_intersects s1 s2 ->
     y = x \/ String.length y < String.length x) ->
  intersect s1 s2 = rstrip (lstrip x).
Proof.
  intros Hx Hlong. unfold intersect.
  pose proof (set_iter_perm (all_intersects s1 s2)) as Hperm.
  destruct (set_iter (all_intersects s1 s2)) as [|h t] eqn:Hit.
  - symmetry in Hperm. apply Permutation_nil_r in Hperm.
    rewrite Hperm in Hx. by apply elem_of_nil in Hx.
  - destruct (max_by_len_spec h t) as [Hin Hmax].
    rewrite Hperm in Hin. specialize (Hmax x).
    rewrite Hperm in Hmax. specialize (Hmax Hx).
    destruct (Hlong _ Hin) as [->|Hlt]; [done|lia].
Qed.

Lemma unique_longest_intersect `{Pybamm} s1 s2 x :
  unique_longest x (all_intersects s1 s2) = true ->
  intersect s1 s2 = rstrip (lstrip x).
Proof.
  unfold unique_longest. intros [Hmem Hall]%andb_prop.
  apply intersect_unique_longest.
  - by apply mem_string_true.
  - intros y Hy. rewrite forallb_forall in Hall.
    apply list_elem_of_In, Hall in Hy.
    apply orb_prop in Hy as [Hy|Hy].
    + left. by apply String.eqb_eq.
    + right. by apply Nat.ltb_lt.
Qed.

Lemma merged_name_pair `{Pybamm} (a b : Symbol) :
  merged_name [PySymbol a; PySymbol b]
  = Ok match intersect (name a) (name b) with
       | EmptyString => None
       | String c EmptyString => Some (String c EmptyString)
       | String c rest => Some (String (capitalize c) rest)
       end.
Proof.
  unfold merged_name. cbn.
  by destruct (intersect (name a) (name b)) as [|c [|c' rest]].
Qed.

(** ** [substrings] lists the contiguous pieces *)

Lemma append_length a b :
  String.length (String.append a b) = String.length a + String.length b.
Proof. induction a as [|c a IH]; simpl; [done|]. by rewrite IH. Qed.

Lemma substring_prefix x post :
  substring 0 (String.length x) (String.append x post) = x.
Proof.
  induction x as [|c x IH]; simpl; [by destruct post|]. by rewrite IH.
Qed.

Lemma substring_append pre x post :
  substring (String.length pre) (String.length x)
    (String.append pre (String.append x post)) = x.
Proof.
  induction pre as [|c pre IH]; [exact (substring_prefix x post)|simpl; exact IH].
Qed.

Lemma substring_split s i m :
  i + m <= String.length s ->
  exists pre post,
    s = String.append pre (String.append (substring i m s) post)
    /\ String.length pre = i /\ String.length (substring i m s) = m.
Proof.
  revert i m. induction s as [|c s IH]; intros i m Hle; simpl in Hle.
  - assert (i = 0) as -> by lia. assert (m = 0) as -> by lia.
    exists EmptyString, EmptyString. done.
  - destruct i as [|i].
    + destruct m as [|m].
      * exists EmptyString, (String c s). done.
      * destruct (IH 0 m) as (pre & post & Hs & Hpre & Hlen); [lia|].
        destruct pre; [|discriminate].
        exists EmptyString, post. split; [|split; [done|simpl; by rewrite Hlen]].
        change (String c s
                = String c (String.append (substring 0 m s) post)).
        f_equal. exact Hs.
    + destruct (IH i m) as (pre & post & Hs & Hpre & Hlen); [lia|].
      exists (String c pre), post.
      split; [|split; [simpl; by rewrite Hpre|exact Hlen]].
      change (String c s
              = String c (String.append pre
                            (String.append (substring i m s) post))).
      f_equal. exact Hs.
Qed.

Lemma elem_of_substrings x s :
  x ∈ substrings s <-> contiguous_substring x s.
Proof.
  unfold substrings, contiguous_substring.
  rewrite list_elem_of_In, in_flat_map. split.
  - intros (i & Hi & Hx). apply in_map_iff in Hx as (j & <- & Hj).
    apply in_seq in Hi, Hj.
    destruct (substring_split s i (j + 1 - i)) as (pre & post & Hs & _ & Hlen);
      [lia|].
    split; [|by exists pre, post].
    intros Hnil. rewrite Hnil in Hlen. simpl in Hlen. lia.
  - intros [Hne (pre & post & ->)].
    assert (1 <= String.length x) by (destruct x; [done|simpl; lia]).
    exists (String.length pre). split.
    + apply in_seq. rewrite !append_length. lia.
    + apply in_map_iff. exists (String.length pre + String.length x - 1).
      split.
      * replace (String.length pre + String.length x - 1 + 1
                 - String.length pre) with (String.length x) by lia.
        apply substring_append.
      * apply in_seq. rewrite !append_length. lia.
Qed.

Lemma elem_of_set_of x l : x ∈ set_of l <-> x ∈ l.
Proof.
  induction l as [|y l IH]; simpl; [done|].
  destruct (mem_string y l) eqn:Hm.
  - rewrite IH, elem_of_cons. split; [auto|].
    intros [->|Hx]; [by apply mem_string_true|done].
  - rewrite !elem_of_cons, IH. done.
Qed.

Lemma elem_of_all_intersects x s1 s2 :
  x ∈ all_intersects s1 s2
  <-> contiguous_substring x s1 /\ contiguous_substring x s2.
Proof.
  unfold all_intersects, set_intersection.
  rewrite list_elem_of_In, filter_In, <- list_elem_of_In.
  by rewrite mem_string_true, !elem_of_set_of, !elem_of_substrings.
Qed.

(** [intersect] returns, trimmed, a longest common contiguous substring of
    its arguments, and the empty string when they have none. *)
Lemma intersect_longest_common `{Pybamm} s1 s2 :
  (intersect s1 s2 = EmptyString
   /\ forall y, ~ (contiguous_substring y s1 /\ contiguous_substring y s2))
  \/ exists x,
       intersect s1 s2 = rstrip (lstrip x)
       /\ contiguous_substring x s1 /\ contiguous_substring x s2
       /\ forall y, contiguous_substring y s1 -> contiguous_substring y s2 ->
            String.length y <= String.length x.
Proof.
  unfold intersect.
  pose proof (set_iter_perm (all_intersects s1 s2)) as Hperm.
  destruct (set_iter (all_intersects s1 s2)) as [|h t] eqn:Hit.
  - left. split; [done|]. intros y Hy.
    apply elem_of_all_intersects in Hy. rewrite <- Hperm in Hy.
    by apply elem_of_nil in Hy.
  - right. exists (max_by_len h t).
    destruct (max_by_len_spec h t) as [Hin Hmax].
    rewrite Hperm in Hin. apply elem_of_all_intersects in Hin as [H1 H2].
    split; [done|]. split; [done|]. split; [done|].
    intros y Hy1 Hy2. apply Hmax. rewrite Hperm.
    by apply elem_of_all_intersects.
Qed.

(** C8 (as amended): whatever order Python iterates the set of common
    substrings in, concatenating variables named "Negative particle
    concentration" and "Positive particle concentration" gives the merged
    name "Tive particle concentration": [intersect] returns a longest
    common contiguous substring of two names, whitespace-trimmed, here
    "tive particle concentration"; being longer than one character, its
    first character is capitalized. A single-character result is left as
    it is. *)
Theorem C8_merged_name `{Pybamm} :
  intersect "Negative particle concentration" "Positive particle concentration"
  = "tive particle concentration"
  /\ (forall s1 s2,
        (intersect s1 s2 = EmptyString
         /\ forall y, ~ (contiguous_substring y s1 /\ contiguous_substring y s2))
        \/ exists x,
             intersect s1 s2 = rstrip (lstrip x)
             /\ contiguous_substring x s1 /\ contiguous_substring x s2
             /\ forall y, contiguous_substring y s1 ->
                  contiguous_substring y s2 ->
                  String.length y <= String.length x)
  /\ (forall a b,
        name a = "Negative particle concentration" ->
        name b = "Positive particle concentration" ->
        merged_name [PySymbol a; PySymbol b]
        = Ok (Some "Tive particle concentration")
        /\ forall nd, ConcatenationVariable_init [PySymbol a; PySymbol b] = Ok nd ->
             name nd = "Tive particle concentration")
  /\ (forall a b c,
        intersect (name a) (name b) = String c EmptyString ->
        merged_name [PySymbol a; PySymbol b] = Ok (Some (String c EmptyString)))
  /\ (forall a b c c' rest,
        intersect (name a) (name b) = String c (String c' rest) ->
        merged_name [PySymbol a; PySymbol b]
        = Ok (Some (String (capitalize c) (String c' rest)))).
Proof.
  assert (Hex : intersect "Negative particle concentration"
                  "Positive particle concentration"
                = "tive particle concentration").
  { rewrite (unique_longest_intersect _ _ "tive particle concentration");
      [reflexivity|]. vm_compute. reflexivity. }
  split; [done|]. split; [apply intersect_longest_common|]. split; [|split].
  - intros a b Ha Hb.
    assert (Hm : merged_name [PySymbol a; PySymbol b]
                 = Ok (Some "Tive particle concentration")).
    { rewrite merged_name_pair, Ha, Hb, Hex. reflexivity. }
    split; [done|].
    intros nd. unfold ConcatenationVariable_init. rewrite Hm. cbn [bind].
    intros H0. invert_binds H0.
    match goal with
    | Hnd : Concatenation_init _ _ _ _ _ = Ok ?n |- _ =>
        unfold Concatenation_init in Hnd;
        destruct (_ && _) in Hnd; [discriminate|];
        invert_binds Hnd; injection Hnd as <-
    end.
    by injection H0 as <-.
  - intros a b c Hi. by rewrite merged_name_pair, Hi.
  - intros a b c c' rest Hi. by rewrite merged_name_pair, Hi.
Qed.

Lemma C8_witness :
  @merged_name plain_pybamm
    [PySymbol (example_variable "Negative particle concentration"
                 ["negative particle"]);
     PySymbol (example_variable "Positive particle concentration"
                 ["positive particle"])]
  = Ok (Some "Tive particle concentration")
  /\ @merged_name plain_pybamm
       [PySymbol (example_variable "ab" ["negative particle"]);
        PySymbol (example_variable "cb" ["positive particle"])]
     = Ok (Some "b").
Proof.
  split.
  - apply (proj1 (proj2 (proj2 (@C8_merged_name plain_pybamm)))); reflexivity.
  - apply (proj1 (proj2 (proj2 (proj2 (@C8_merged_name plain_pybamm))))).
    vm_compute. reflexivity.
Defined.

(** C8 as stated fails: no iteration order of the set of common substrings
    makes the merged name "Particle concentration", and the
    single-character result "b" is not capitalized. *)
Lemma C8_counterexample :
  ~ (exists P : Pybamm,
       @merged_name P
         [PySymbol (example_variable "Negative particle concentration"
                      ["negative particle"]);
          PySymbol (example_variable "Positive particle concentration"
                      ["positive particle"])]
       = Ok (Some "Particle concentration"))
  /\ ~ (exists P : Pybamm,
          @merged_name P
            [PySymbol (example_variable "ab" ["negative particle"]);
             PySymbol (example_variable "cb" ["positive particle"])]
          = Ok (Some "B")).
Proof.
  split; intros [P HP].
  - rewrite merged_name_pair in HP. simpl name in HP.
    rewrite (unique_longest_intersect _ _ "tive particle concentration") in HP
      by (vm_compute; reflexivity).
    vm_compute in HP. discriminate.
  - rewrite merged_name_pair in HP. simpl name in HP.
    rewrite (unique_longest_intersect _ _ "b") in HP
      by (vm_compute; reflexivity).
    vm_compute in HP. discriminate.
Qed.

(* ===================================================================== *)
(** * The slice layout of [DomainConcatenation] *)
(* ===================================================================== *)

(** ** Sizes of prefixes *)

Lemma pattern_size_app mesh a b :
  pattern_size mesh (a ++ b) = pattern_size mesh a + pattern_size mesh b.
Proof. apply sum_list_with_app. Qed.

Lemma pattern_size_repeat mesh doms reps :
  pattern_size mesh (concat (replicate reps doms))
  = reps * pattern_size mesh doms.
Proof.
  induction reps as [|r IH]; simpl; [done|].
  rewrite pattern_size_app, IH. lia.
Qed.

Lemma pattern_size_take_S mesh ks t k :
  ks !! t = Some k ->
  pattern_size mesh (take (S t) ks) = pattern_size mesh (take t ks) + npts mesh k.
Proof.
  intros Hk. rewrite (take_S_r _ _ _ Hk), pattern_size_app.
  unfold pattern_size. simpl. lia.
Qed.

Lemma pattern_size_take_le mesh ks a b :
  a <= b -> pattern_size mesh (take a ks) <= pattern_size mesh (take b ks).
Proof.
  revert a b. induction ks as [|k ks IH]; intros a b Hab.
  - by rewrite !take_nil.
  - destruct a as [|a]; [simpl; lia|]. destruct b as [|b]; [lia|].
    simpl. unfold pattern_size in *. simpl.
    specialize (IH a b). lia.
Qed.

Lemma pattern_size_take_all mesh ks t :
  pattern_size mesh (take t ks) <= pattern_size mesh ks.
Proof.
  rewrite <- (firstn_all ks) at 2.
  destruct (decide (t <= length ks)).
  - by apply pattern_size_take_le.
  - rewrite take_ge by lia. by rewrite firstn_all.
Qed.

(** Every point below the total size falls into exactly one width. *)
Lemma pattern_size_cover mesh ks x :
  x < pattern_size mesh ks ->
  exists t k, ks !! t = Some k
    /\ pattern_size mesh (take t ks) <= x < pattern_size mesh (take (S t) ks).
Proof.
  revert x. induction ks as [|k ks IH]; intros x Hx.
  - unfold pattern_size in Hx. simpl in Hx. lia.
  - destruct (decide (x < npts mesh k)) as [Hlt|Hge].
    + exists 0, k. split; [done|]. unfold pattern_size. simpl. lia.
    + destruct (IH (x - npts mesh k)) as (t & k' & Hk' & Hr).
      { unfold pattern_size in *. simpl in Hx. lia. }
      exists (S t), k'. split; [done|].
      unfold pattern_size in *. simpl in *. lia.
Qed.

(** ** The recorded slices *)

Lemma layout_fst mesh ks c : map fst (layout mesh ks c) = ks.
Proof.
  revert c. induction ks as [|k ks IH]; intros c; simpl; [done|].
  by rewrite IH.
Qed.

Lemma layout_length mesh ks c : length (layout mesh ks c) = length ks.
Proof. by rewrite <- (layout_fst mesh ks c) at 2; rewrite length_map. Qed.

Lemma layout_lookup mesh ks c t k :
  ks !! t = Some k ->
  layout mesh ks c !! t
  = Some (k, Slice (c + pattern_size mesh (take t ks))
                   (c + pattern_size mesh (take (S t) ks))).
Proof.
  revert c t. induction ks as [|k0 ks IH]; intros c t Hk; [done|].
  destruct t as [|t]; simpl in *.
  - injection Hk as ->. unfold pattern_size. simpl.
    by rewrite !Nat.add_0_r.
  - rewrite (IH _ _ Hk). unfold pattern_size. simpl.
    by rewrite !Nat.add_assoc.
Qed.

Lemma layout_lookup_inv mesh ks c t e :
  layout mesh ks c !! t = Some e ->
  exists k, ks !! t = Some k
    /\ e = (k, Slice (c + pattern_size mesh (take t ks))
                     (c + pattern_size mesh (take (S t) ks))).
Proof.
  intros He.
  assert (Ht : t < length ks).
  { rewrite <- (layout_length mesh ks c). by eapply lookup_lt_Some. }
  apply lookup_lt_is_Some in Ht as [k Hk]. exists k. split; [done|].
  rewrite (layout_lookup _ _ _ _ _ Hk) in He. by injection He.
Qed.

Lemma layout_take mesh ks c t :
  take t (layout mesh ks c) = layout mesh (take t ks) c.
Proof.
  revert c t. induction ks as [|k ks IH]; intros c t.
  - by destruct t.
  - destruct t as [|t]; simpl; [done|]. by rewrite IH.
Qed.

(** ** The loops of [create_slices] *)

Lemma fold_slice_domain self ks c d :
  fold_left (slice_domain self) ks (mkSlicing c c d)
  = mkSlicing (c + pattern_size (full_mesh self) ks)
      (c + pattern_size (full_mesh self) ks)
      (dd_of_log (layout (full_mesh self) ks c) d).
Proof.
  revert c d. induction ks as [|k ks IH]; intros c d; simpl.
  - unfold pattern_size. simpl. f_equal; lia.
  - unfold slice_domain at 2. simpl. rewrite IH.
    unfold pattern_size. simpl. f_equal; lia.
Qed.

Lemma fold_slice_repeat self nd a reps st :
  fold_left (slice_repeat self nd) (seq a reps) st
  = fold_left (slice_domain self) (concat (replicate reps (domain nd))) st.
Proof.
  revert a st. induction reps as [|r IH]; intros a st; simpl; [done|].
  rewrite fold_left_app. apply IH.
Qed.

Lemma create_slices_table self nd :
  secondary_dimensions_npts self
  = _get_auxiliary_domain_repeats self (domains (node self)) ->
  create_slices self nd
  = Ok (slice_table (full_mesh self) (domain nd)
          (secondary_dimensions_npts self)).
Proof.
  intros Hreps. unfold create_slices. rewrite <- Hreps, Nat.eqb_refl. simpl.
  rewrite fold_slice_repeat, fold_slice_domain. done.
Qed.

(** ** Reading the table *)

Lemma dd_get_append d k x k' :
  dd_get (dd_append d k x) k'
  = if String.eqb k k' then dd_get d k' ++ [x] else dd_get d k'.
Proof.
  induction d as [|[k0 v] d IH]; simpl.
  - by destruct (String.eqb k k').
  - destruct (String.eqb k0 k) eqn:E0; simpl.
    + apply String.eqb_eq in E0 as ->. by destruct (String.eqb k k').
    + destruct (String.eqb k0 k') eqn:E1; [|done].
      apply String.eqb_eq in E1 as ->.
      rewrite String.eqb_sym in E0. by rewrite E0.
Qed.

Lemma dd_get_of_log log d k :
  dd_get (dd_of_log log d) k
  = dd_get d k ++ map snd (List.filter (fun e => String.eqb e.1 k) log).
Proof.
  unfold dd_of_log. revert d.
  induction log as [|[k0 s] log IH]; intros d; simpl.
  - by rewrite app_nil_r.
  - rewrite IH, dd_get_append.
    destruct (String.eqb k0 k); simpl; [|done]. by rewrite <- app_assoc.
Qed.

Lemma filter_lookup_of {A} (P : A -> bool) l t x :
  l !! t = Some x -> P x = true ->
  List.filter P l !! length (List.filter P (take t l)) = Some x.
Proof.
  revert t. induction l as [|y l IH]; intros t Hx HP; [done|].
  destruct t as [|t]; simpl in *.
  - injection Hx as ->. by rewrite HP.
  - destruct (P y); simpl; by apply IH.
Qed.

Lemma filter_lookup_inv {A} (P : A -> bool) l i x :
  List.filter P l !! i = Some x ->
  exists t, l !! t = Some x /\ P x = true
            /\ i = length (List.filter P (take t l)).
Proof.
  revert i. induction l as [|y l IH]; intros i Hi; [done|].
  simpl in Hi. destruct (P y) eqn:HP.
  - destruct i as [|i]; simpl in Hi.
    + injection Hi as ->. exists 0. done.
    + apply IH in Hi as (t & Ht & HPx & ->). exists (S t). simpl.
      by rewrite HP.
  - apply IH in Hi as (t & Ht & HPx & ->). exists (S t). simpl.
    by rewrite HP.
Qed.

Lemma filter_fst_length {B} (p : string -> bool) (l : list (string * B)) :
  length (List.filter (fun e => p e.1) l)
  = length (List.filter p (map fst l)).
Proof.
  induction l as [|[k v] l IH]; simpl; [done|].
  destruct (p k); simpl; by rewrite IH.
Qed.

(** An entry of the table is a recorded slice, and the other way round;
    its place in the table counts the earlier slices of the same name. *)
Lemma slice_table_lookup mesh ks dom i s :
  dd_get (dd_of_log (layout mesh ks 0) []) dom !! i = Some s
  <-> exists t, ks !! t = Some dom
        /\ s = Slice (pattern_size mesh (take t ks))
                     (pattern_size mesh (take (S t) ks))
        /\ i = occurrences dom (take t ks).
Proof.
  rewrite dd_get_of_log. simpl. rewrite list_lookup_fmap. split.
  - intros H. destruct (_ !! i) as [[k s']|] eqn:He; [|done].
    simpl in H. injection H as ->.
    apply filter_lookup_inv in He as (t & Ht & Hk & ->).
    simpl in Hk. apply String.eqb_eq in Hk as ->.
    apply layout_lookup_inv in Ht as (k & Hk & [= <- ->]).
    exists t. split; [done|]. split; [done|].
    rewrite layout_take, (filter_fst_length (fun k => String.eqb k dom)).
    by rewrite layout_fst.
  - intros (t & Ht & -> & ->).
    pose proof (layout_lookup mesh ks 0 t dom Ht) as Hl. simpl in Hl.
    apply (filter_lookup_of (fun e => String.eqb e.1 dom)) in Hl;
      [|simpl; apply String.eqb_refl].
    rewrite layout_take, (filter_fst_length (fun k => String.eqb k dom)) in Hl.
    rewrite layout_fst in Hl. unfold occurrences. by rewrite Hl.
Qed.

Lemma slice_table_length mesh ks dom :
  length (dd_get (dd_of_log (layout mesh ks 0) []) dom) = occurrences dom ks.
Proof.
  rewrite dd_get_of_log. simpl. rewrite length_map.
  rewrite (filter_fst_length (fun k => String.eqb k dom)).
  by rewrite layout_fst.
Qed.

(** ** Repeating the pattern *)

Lemma take_repeat {A} (D : list A) reps r j :
  r < reps -> j <= length D ->
  take (r * length D + j) (concat (replicate reps D))
  = concat (replicate r D) ++ take j D.
Proof.
  revert reps. induction r as [|r IH]; intros reps Hr Hj.
  - destruct reps as [|reps]; [lia|]. simpl. by rewrite take_app_le.
  - destruct reps as [|reps]; [lia|]. simpl.
    replace (length D + r * length D + j) with (length D + (r * length D + j))
      by lia.
    rewrite take_app_add, <- app_assoc. f_equal. apply IH; lia.
Qed.

Lemma lookup_repeat {A} (D : list A) reps r j x :
  r < reps -> D !! j = Some x ->
  concat (replicate reps D) !! (r * length D + j) = Some x.
Proof.
  revert reps. induction r as [|r IH]; intros reps Hr Hx.
  - destruct reps as [|reps]; [lia|]. simpl. by apply lookup_app_l_Some.
  - destruct reps as [|reps]; [lia|]. simpl.
    rewrite lookup_app_r by lia.
    replace (length D + r * length D + j - length D) with (r * length D + j)
      by lia.
    apply IH; [lia|done].
Qed.

Lemma occurrences_app dom a b :
  occurrences dom (a ++ b) = occurrences dom a + occurrences dom b.
Proof. unfold occurrences. by rewrite List.filter_app, length_app. Qed.

Lemma occurrences_repeat dom D reps :
  occurrences dom (concat (replicate reps D)) = reps * occurrences dom D.
Proof.
  induction reps as [|r IH]; simpl; [done|].
  by rewrite occurrences_app, IH.
Qed.

Lemma occurrences_pos dom D : dom ∈ D -> 1 <= occurrences dom D.
Proof.
  intros Hin. unfold occurrences.
  assert (dom ∈ List.filter (fun k => String.eqb k dom) D) as Hf.
  { apply list_elem_of_In, filter_In. split; [by apply list_elem_of_In|].
    apply String.eqb_refl. }
  destruct (List.filter _ D); [by apply elem_of_nil in Hf|simpl; lia].
Qed.

(** ** What a successful construction establishes *)

Lemma map_result_Ok_map {A B} (f : A -> result B) (g : A -> B) xs :
  (forall x, f x = Ok (g x)) -> map_result f xs = Ok (map g xs).
Proof.
  intros Hfg. induction xs as [|x xs IH]; simpl; [done|].
  by rewrite Hfg, IH.
Qed.

Lemma map_PySymbol_inj a b : map PySymbol a = map PySymbol b -> a = b.
Proof.
  revert b. induction a as [|x a IH]; intros [|y b]; simpl; try done.
  intros [= -> H]. f_equal. by apply IH.
Qed.

Lemma py_last_Ok {A} (l : list A) x : py_last l = Ok x -> last l = Some x.
Proof. unfold py_last. destruct (last l); [by intros [= ->]|discriminate]. Qed.

Lemma DomainConcatenation_init_inv args mesh dc :
  DomainConcatenation_init args mesh None = Ok dc ->
  exists c0 rest last_dom last_slice,
    args = map PySymbol (c0 :: rest)
    /\ children (node dc) = c0 :: rest
    /\ get_children_domains args = Ok (domains (node dc))
    /\ _full_mesh dc = mesh
    /\ secondary_dimensions_npts dc
       = _get_auxiliary_domain_repeats dc (domains (node dc))
    /\ _slices dc
       = slice_table mesh (domain (node dc)) (secondary_dimensions_npts dc)
    /\ _children_slices dc
       = map (fun c => slice_table mesh (domain c)
                         (secondary_dimensions_npts dc))
             (children (node dc))
    /\ last (domain (node dc)) = Some last_dom
    /\ last (dd_get (_slices dc) last_dom) = Some last_slice
    /\ _size dc = stop last_slice.
Proof.
  unfold DomainConcatenation_init. intros H.
  apply bind_Ok in H as (base & Hbase & H).
  pose proof (Concatenation_init_children _ _ _ _ _ _ Hbase) as Hargs.
  assert (Hdom : get_children_domains args = Ok (domains base)).
  { unfold Concatenation_init in Hbase.
    destruct (_ && _); [discriminate|].
    apply bind_Ok in Hbase as (d & Hd & Hb).
    apply bind_Ok in Hb as (cs & _ & Hb). by injection Hb as <-. }
  destruct (get_children_domains_symbols _ _ Hdom) as (c0 & rest & Hcs).
  set (reps := _get_auxiliary_domain_repeats
                 (mkDomainConcatenation base mesh 0 [] 0 []) (domains base)) in H.
  rewrite (create_slices_table
             (mkDomainConcatenation base mesh reps [] 0 []) base) in H
    by reflexivity.
  cbn [bind secondary_dimensions_npts full_mesh _full_mesh] in H.
  apply bind_Ok in H as (last_dom & Hld & H).
  apply bind_Ok in H as (last_slice & Hls & H).
  rewrite (map_result_Ok_map _
             (fun c => slice_table mesh (domain c) reps)) in H.
  2:{ intros c. by rewrite create_slices_table. }
  cbn [bind] in H. injection H as <-. cbn.
  exists c0, rest, last_dom, last_slice.
  split; [done|]. split.
  { rewrite Hargs in Hcs. by apply map_PySymbol_inj in Hcs. }
  split; [done|]. split; [done|]. split; [done|]. split; [done|].
  split; [done|]. split; [by apply py_last_Ok|]. split; [by apply py_last_Ok|].
  done.
Qed.

(** ** The table partitions its range *)

Lemma table_cover mesh ks x :
  x < pattern_size mesh ks
  <-> exists dom i s,
        dd_get (dd_of_log (layout mesh ks 0) []) dom !! i = Some s
        /\ in_slice x s.
Proof.
  split.
  - intros Hx. apply pattern_size_cover in Hx as (t & k & Hk & Hr).
    exists k, (occurrences k (take t ks)),
      (Slice (pattern_size mesh (take t ks))
             (pattern_size mesh (take (S t) ks))).
    split; [|done]. apply slice_table_lookup. eauto.
  - intros (dom & i & s & Hs & Hx).
    apply slice_table_lookup in Hs as (t & Ht & -> & _).
    unfold in_slice in Hx. simpl in Hx.
    pose proof (pattern_size_take_all mesh ks (S t)). lia.
Qed.

Lemma table_separated mesh ks dom i s dom' i' s' :
  dd_get (dd_of_log (layout mesh ks 0) []) dom !! i = Some s ->
  dd_get (dd_of_log (layout mesh ks 0) []) dom' !! i' = Some s' ->
  (dom, i) <> (dom', i') ->
  stop s <= start s' \/ stop s' <= start s.
Proof.
  intros Hs Hs' Hne.
  apply slice_table_lookup in Hs as (t & Ht & -> & ->).
  apply slice_table_lookup in Hs' as (t' & Ht' & -> & ->). simpl.
  destruct (Nat.lt_trichotomy t t') as [Hlt|[->|Hgt]].
  - left. apply pattern_size_take_le. lia.
  - congruence.
  - right. apply pattern_size_take_le. lia.
Qed.

Lemma table_bounds mesh ks dom i s :
  dd_get (dd_of_log (layout mesh ks 0) []) dom !! i = Some s ->
  stop s = start s + npts mesh dom /\ stop s <= pattern_size mesh ks.
Proof.
  intros Hs. apply slice_table_lookup in Hs as (t & Ht & -> & _). simpl.
  split; [by apply pattern_size_take_S|apply pattern_size_take_all].
Qed.

Lemma slice_table_repeat mesh D reps r j dom :
  r < reps -> D !! j = Some dom ->
  dd_get (slice_table mesh D reps) dom
    !! (r * occurrences dom D + occurrences dom (take j D))
  = Some (Slice (r * pattern_size mesh D + pattern_size mesh (take j D))
                (r * pattern_size mesh D + pattern_size mesh (take (S j) D))).
Proof.
  intros Hr Hj. apply slice_table_lookup.
  pose proof (lookup_lt_Some _ _ _ Hj) as Hlen.
  exists (r * length D + j). split; [by apply lookup_repeat|].
  replace (S (r * length D + j)) with (r * length D + S j) by lia.
  rewrite !take_repeat by lia.
  rewrite !pattern_size_app, !pattern_size_repeat.
  by rewrite occurrences_app, occurrences_repeat.
Qed.

Lemma slice_table_repeat_length mesh D reps dom :
  length (dd_get (slice_table mesh D reps) dom) = reps * occurrences dom D.
Proof.
  unfold slice_table. by rewrite slice_table_length, occurrences_repeat.
Qed.

Lemma occurrences_last dom D :
  last D = Some dom ->
  occurrences dom D = S (occurrences dom (take (length D - 1) D))
  /\ D !! (length D - 1) = Some dom.
Proof.
  intros Hl. rewrite last_lookup in Hl.
  replace (Nat.pred (length D)) with (length D - 1) in Hl by lia.
  split; [|done].
  rewrite <- (take_drop_middle D _ _ Hl) at 1.
  rewrite occurrences_app. rewrite drop_ge by lia.
  unfold occurrences at 2. simpl. rewrite String.eqb_refl. simpl. lia.
Qed.

(** The slice recorded last is the last one filed under the last name,
    and it ends where the whole layout ends. *)
Lemma slice_table_last mesh D reps dom s :
  last D = Some dom ->
  last (dd_get (slice_table mesh D reps) dom) = Some s ->
  1 <= reps /\ stop s = reps * pattern_size mesh D.
Proof.
  intros Hl Hs. destruct (occurrences_last _ _ Hl) as [Hocc Hj].
  rewrite last_lookup, slice_table_repeat_length in Hs.
  destruct reps as [|r]; [discriminate|].
  split; [lia|].
  replace (Nat.pred (S r * occurrences dom D))
    with (r * occurrences dom D + occurrences dom (take (length D - 1) D))
    in Hs by lia.
  rewrite (slice_table_repeat mesh D (S r) r (length D - 1) dom) in Hs
    by (lia || done).
  injection Hs as <-. simpl.
  pose proof (lookup_lt_Some _ _ _ Hj).
  replace (S (length D - 1)) with (length D) by lia.
  rewrite firstn_all. lia.
Qed.

Lemma DomainConcatenation_init_domain args mesh dc :
  DomainConcatenation_init args mesh None = Ok dc ->
  args = map PySymbol (children (node dc))
  /\ domain (node dc) = concat (map domain (children (node dc)))
  /\ primary_accepted [] (children (node dc)).
Proof.
  intros H.
  apply DomainConcatenation_init_inv in H
    as (c0 & rest & _ & _ & -> & Hch & Hd & _).
  rewrite Hch. split; [done|].
  destruct (get_children_domains_cases c0 rest)
    as [(Hp & _ & E)|[(_ & _ & E)|(_ & E)]];
    rewrite E in Hd; try discriminate.
  injection Hd as Hd. unfold domain at 1. by rewrite <- Hd.
Qed.

(** C1: for a domain concatenation built from children and a mesh, the
    stored slices partition [0, total_size): every index below total_size
    lies in a stored slice and every stored slice lies below total_size,
    two stored slices never share an index, within each repeat the slices
    follow the order of the primary domain names (which is the children's
    order), the pattern is laid out once per repeat, and total_size is the
    stop bound of the slice recorded last. *)
Theorem C1_composite_slices_partition
    (args : list PyObject) (mesh : Mesh) (dc : DomainConcatenation) :
  DomainConcatenation_init args mesh None = Ok dc ->
  let doms := domain (node dc) in
  let reps := secondary_dimensions_npts dc in
  let period := pattern_size mesh doms in
  (forall x, x < _size dc
     <-> exists dom i s, dd_get (_slices dc) dom !! i = Some s /\ in_slice x s)
  /\ (forall dom i s dom' i' s',
        dd_get (_slices dc) dom !! i = Some s ->
        dd_get (_slices dc) dom' !! i' = Some s' ->
        (dom, i) <> (dom', i') ->
        forall x, ~ (in_slice x s /\ in_slice x s'))
  /\ doms = concat (map domain (children (node dc)))
  /\ (forall r j dom, r < reps -> doms !! j = Some dom ->
        dd_get (_slices dc) dom
          !! (r * occurrences dom doms + occurrences dom (take j doms))
        = Some (Slice (r * period + pattern_size mesh (take j doms))
                      (r * period + pattern_size mesh (take (S j) doms))))
  /\ (forall dom,
        length (dd_get (_slices dc) dom) = reps * occurrences dom doms)
  /\ reps = _get_auxiliary_domain_repeats dc (domains (node dc))
  /\ 1 <= reps
  /\ _size dc = reps * period
  /\ exists last_dom last_slice,
       last doms = Some last_dom
       /\ last (dd_get (_slices dc) last_dom) = Some last_slice
       /\ _size dc = stop last_slice
       /\ forall dom i s, dd_get (_slices dc) dom !! i = Some s ->
            stop s <= stop last_slice.
Proof.
  intros Hinit doms reps period.
  destruct (DomainConcatenation_init_domain _ _ _ Hinit) as (_ & Hdoms & _).
  apply DomainConcatenation_init_inv in Hinit
    as (c0 & rest & last_dom & last_slice & _ & _ & _ & _ & Hreps & Hsl & _
        & Hld & Hls & Hsize).
  fold doms reps in Hsl. rewrite Hsl in Hls |- *.
  destruct (slice_table_last _ _ _ _ _ Hld Hls) as [Hpos Hstop].
  assert (Hsz : _size dc = reps * period) by (by rewrite Hsize, Hstop).
  assert (Hps : pattern_size mesh (concat (replicate reps doms))
                = reps * period) by apply pattern_size_repeat.
  repeat apply conj; try done.
  - intros x. rewrite Hsz, <- Hps. apply table_cover.
  - intros dom i s dom' i' s' Hs Hs' Hne x [Hx Hx'].
    destruct (table_separated _ _ _ _ _ _ _ _ Hs Hs' Hne);
      unfold in_slice in *; lia.
  - intros r j dom Hr Hj. by apply slice_table_repeat.
  - intros dom. apply slice_table_repeat_length.
  - exists last_dom, last_slice. split; [done|]. split; [done|].
    split; [done|]. intros dom i s Hs.
    apply table_bounds in Hs as [_ Hs]. lia.
Qed.

(** The running example: 5, 3 and 4 mesh points give the slices [0,5),
    [5,8), [8,12) and total size 12. *)
Lemma C1_witness :
  match DomainConcatenation_init
          [PySymbol (example_symbol "c_n" ["negative electrode"] []);
           PySymbol (example_symbol "c_s" ["separator"] []);
           PySymbol (example_symbol "c_p" ["positive electrode"] [])]
          example_mesh None with
  | Ok dc =>
      _slices dc = [("negative electrode", [Slice 0 5]);
                    ("separator", [Slice 5 8]);
                    ("positive electrode", [Slice 8 12])]
      /\ _size dc = 12
      /\ forall x, x < _size dc
           <-> exists dom i s, dd_get (_slices dc) dom !! i = Some s
                               /\ in_slice x s
  | Raise _ => False
  end.
Proof.
  pose proof (C1_composite_slices_partition
                [PySymbol (example_symbol "c_n" ["negative electrode"] []);
                 PySymbol (example_symbol "c_s" ["separator"] []);
                 PySymbol (example_symbol "c_p" ["positive electrode"] [])]
                example_mesh) as H.
  destruct (DomainConcatenation_init _ example_mesh None) as [dc|e] eqn:E.
  - specialize (H dc eq_refl). vm_compute in E. injection E as <-.
    split; [reflexivity|]. split; [reflexivity|]. apply H.
  - vm_compute in E. discriminate.
Defined.

(** ** The copy-construction path *)

(** The validator looks at the children's domain descriptors only. *)
Lemma get_children_domains_ext cs cs' :
  map domains cs' = map domains cs ->
  get_children_domains (map PySymbol cs')
  = get_children_domains (map PySymbol cs).
Proof.
  intros Hd. unfold get_children_domains.
  assert (Hloop : forall acc,
            for_each combine_domain (map PySymbol cs') acc
            = for_each combine_domain (map PySymbol cs) acc).
  { revert cs' Hd. induction cs as [|c cs IH]; intros [|c' cs'] Hd acc;
      try discriminate; [done|].
    injection Hd as Hc Hd. cbn [map for_each].
    assert (combine_domain acc (PySymbol c') = combine_domain acc (PySymbol c))
      as -> by (unfold combine_domain, domain; by rewrite Hc).
    destruct (combine_domain acc (PySymbol c)); cbn [bind]; [|done].
    by apply IH. }
  rewrite Hloop. destruct (for_each combine_domain _ []); cbn [bind]; [|done].
  destruct cs as [|c cs], cs' as [|c' cs']; try discriminate; [done|].
  injection Hd as Hc Hd. cbn [map py_index lookup list_lookup bind tail].
  rewrite Hc.
  assert (Hrest : forall level dom,
            for_each (check_auxiliary_child level dom) (map PySymbol cs') tt
            = for_each (check_auxiliary_child level dom) (map PySymbol cs) tt).
  { intros level dom. clear -Hd. revert cs' Hd.
    induction cs as [|x cs IH]; intros [|x' cs'] Hd; try discriminate; [done|].
    injection Hd as Hx Hd. cbn [map for_each].
    unfold check_auxiliary_child at 1 3. rewrite Hx.
    destruct (_ || _); cbn [bind]; [|done]. by apply IH. }
  assert (for_each (check_auxiliary_level (map PySymbol cs'))
            (domains_items (domains c)) tt
          = for_each (check_auxiliary_level (map PySymbol cs))
              (domains_items (domains c)) tt) as ->; [|done].
  apply for_each_ext. intros [] [level dom] _.
  unfold check_auxiliary_level. destruct (_ && _); [|done]. apply Hrest.
Qed.

(** Copying the tables of an instance whose children have the same domain
    descriptors gives what building from the children and the mesh gives. *)
Lemma copy_equals_fresh cs cs' mesh mesh' dc :
  DomainConcatenation_init (map PySymbol cs) mesh None = Ok dc ->
  map domains cs' = map domains cs ->
  DomainConcatenation_init (map PySymbol cs') mesh' (Some dc)
  = DomainConcatenation_init (map PySymbol cs') mesh None.
Proof.
  intros Hinit Hd.
  pose proof (DomainConcatenation_init_inv _ _ _ Hinit)
    as (c0 & rest & last_dom & last_slice & _ & Hch & Hdom & Hmesh & Hreps
        & Hsl & Hcs & Hld & Hls & Hsize).
  destruct (DomainConcatenation_init_domain _ _ _ Hinit) as (Hargs & _).
  apply map_PySymbol_inj in Hargs. subst cs.
  rewrite <- (get_children_domains_ext _ _ Hd) in Hdom.
  unfold DomainConcatenation_init, Concatenation_init.
  replace (forallb isinstance_Variable (map PySymbol cs')
           && bool_decide (ClsDomainConcatenation = ClsConcatenation))
    with false by (by rewrite andb_false_r).
  rewrite Hdom, as_symbols_map. cbn [bind default].
  set (base := mkSymbol ClsDomainConcatenation _ cs' (domains (node dc))
                 NoAttrs).
  set (reps := _get_auxiliary_domain_repeats
                 (mkDomainConcatenation base mesh 0 [] 0 []) (domains base)).
  assert (Hr : secondary_dimensions_npts dc = reps).
  { rewrite Hreps. unfold reps, _get_auxiliary_domain_repeats, full_mesh.
    cbn [_full_mesh]. by rewrite Hmesh. }
  rewrite (create_slices_table
             (mkDomainConcatenation base mesh reps [] 0 []) base)
    by reflexivity.
  cbn [bind secondary_dimensions_npts full_mesh _full_mesh].
  change (domain base) with (domain (node dc)).
  rewrite <- Hr, <- Hsl. unfold py_last. rewrite Hld. cbn [bind].
  rewrite Hls. cbn [bind].
  rewrite (map_result_Ok_map _
             (fun c => slice_table mesh (domain c) (secondary_dimensions_npts dc))).
  2:{ intros c. rewrite create_slices_table by exact Hr.
      by cbn [full_mesh _full_mesh secondary_dimensions_npts]. }
  cbn [bind children]. rewrite Hmesh, Hsize. do 2 f_equal.
  rewrite Hcs. unfold domain.
  rewrite <- (map_map domains (fun d => slice_table mesh (primary d) _)).
  rewrite <- (map_map domains (fun d => slice_table mesh (primary d) _) cs').
  by rewrite Hd.
Qed.

(** ** The repeat-count check of [create_slices] *)

Lemma bind_not_ValueError {A B} (r : result A) (k : A -> result B) :
  r <> Raise ValueError -> (forall a, k a <> Raise ValueError) ->
  bind r k <> Raise ValueError.
Proof.
  intros Hr Hk. destruct r; simpl; [apply Hk|].
  intros [= ->]. by apply Hr.
Qed.

Lemma for_each_not_ValueError {A S} (body : S -> A -> result S) xs s :
  (forall s x, body s x <> Raise ValueError) ->
  for_each body xs s <> Raise ValueError.
Proof.
  intros Hb. revert s. induction xs as [|x xs IH]; intros s; simpl; [done|].
  apply bind_not_ValueError; auto.
Qed.

Lemma map_result_not_ValueError {A B} (f : A -> result B) xs :
  (forall x, f x <> Raise ValueError) -> map_result f xs <> Raise ValueError.
Proof.
  intros Hf. induction xs as [|x xs IH]; simpl; [done|].
  apply bind_not_ValueError; [done|]. intros y.
  apply bind_not_ValueError; [done|]. done.
Qed.

Lemma get_children_domains_not_ValueError args :
  get_children_domains args <> Raise ValueError.
Proof.
  unfold get_children_domains.
  apply bind_not_ValueError.
  { apply for_each_not_ValueError. intros acc [|c|]; simpl; try done.
    case_bool_decide; [done|]. by destruct (isdisjoint _ _). }
  intros acc. apply bind_not_ValueError.
  { unfold py_index. by destruct (_ !! _). }
  intros c0. apply bind_not_ValueError; [by destruct c0|].
  intros d. apply bind_not_ValueError; [|done].
  apply for_each_not_ValueError. intros [] [level dom].
  unfold check_auxiliary_level. destruct (_ && _); [|done].
  apply for_each_not_ValueError. intros [] [|c|]; simpl; try done.
  by destruct (_ || _).
Qed.

Lemma Concatenation_init_not_ValueError cls args nm at_ :
  Concatenation_init cls args nm true at_ <> Raise ValueError.
Proof.
  unfold Concatenation_init. destruct (_ && _); [done|].
  apply bind_not_ValueError; [apply get_children_domains_not_ValueError|].
  intros d. apply bind_not_ValueError; [|done].
  apply map_result_not_ValueError. by intros [].
Qed.

(** C3: the slicing pass made for each child computes its repeat count
    from the concatenation's own domains, not from the child's, so the
    comparison with [secondary_dimensions_npts] never fails: constructing a
    domain concatenation from children and a mesh never raises ValueError.
    With a first child over a two-point auxiliary level and a second child
    without auxiliary level, whose own repeat count is 1, construction
    succeeds with repeat count 2. *)
Theorem C3_repeat_check_never_fails :
  (forall args mesh,
     DomainConcatenation_init args mesh None <> Raise ValueError)
  /\ match DomainConcatenation_init
             [PySymbol (example_symbol "c_n" ["negative electrode"]
                          ["current collector"]);
              PySymbol (example_symbol "c_s" ["separator"] [])]
             example_mesh None with
     | Ok dc =>
         secondary_dimensions_npts dc = 2
         /\ _get_auxiliary_domain_repeats dc
              (domains (example_symbol "c_s" ["separator"] [])) = 1
         /\ _children_slices dc
            = [[("negative electrode", [Slice 0 5; Slice 5 10])];
               [("separator", [Slice 0 3; Slice 3 6])]]
     | Raise _ => False
     end.
Proof.
  split.
  - intros args mesh. unfold DomainConcatenation_init.
    apply bind_not_ValueError; [apply Concatenation_init_not_ValueError|].
    intros base.
    set (reps := _get_auxiliary_domain_repeats
                   (mkDomainConcatenation base mesh 0 [] 0 []) (domains base)).
    rewrite (create_slices_table
               (mkDomainConcatenation base mesh reps [] 0 []) base)
      by reflexivity.
    cbn [bind]. apply bind_not_ValueError.
    { unfold py_last. by destruct (last _). }
    intros last_dom. apply bind_not_ValueError.
    { unfold py_last. by destruct (last _). }
    intros last_slice. apply bind_not_ValueError; [|done].
    apply map_result_not_ValueError. intros c.
    by rewrite create_slices_table.
  - vm_compute. done.
Qed.

(** ** The names under which a table files its slices *)

Lemma dd_append_fst d k x :
  map fst (dd_append d k x)
  = if mem_string k (map fst d) then map fst d else map fst d ++ [k].
Proof.
  induction d as [|[k0 v] d IH]; simpl; [done|].
  rewrite (String.eqb_sym k k0). destruct (String.eqb k0 k); simpl; [done|].
  rewrite IH. by destruct (mem_string k (map fst d)).
Qed.

Lemma dd_append_NoDup d k x :
  NoDup (map fst d) -> NoDup (map fst (dd_append d k x)).
Proof.
  intros Hd. rewrite dd_append_fst.
  destruct (mem_string k (map fst d)) eqn:Hm; [done|].
  apply NoDup_app. split; [done|]. split; [|apply NoDup_singleton].
  intros y Hy Hk. apply list_elem_of_singleton in Hk as ->.
  apply mem_string_true in Hy. congruence.
Qed.

Lemma dd_append_elem d k x k' :
  k' ∈ map fst (dd_append d k x) <-> k' = k \/ k' ∈ map fst d.
Proof.
  rewrite dd_append_fst.
  destruct (mem_string k (map fst d)) eqn:Hm.
  - apply mem_string_true in Hm. split; [auto|]. by intros [->|].
  - rewrite elem_of_app, list_elem_of_singleton. tauto.
Qed.

Lemma dd_of_log_NoDup log d :
  NoDup (map fst d) -> NoDup (map fst (dd_of_log log d)).
Proof.
  unfold dd_of_log. revert d.
  induction log as [|e log IH]; intros d Hd; simpl; [done|].
  by apply IH, dd_append_NoDup.
Qed.

Lemma dd_of_log_elem log d k :
  k ∈ map fst (dd_of_log log d) <-> k ∈ map fst d \/ k ∈ map fst log.
Proof.
  unfold dd_of_log. revert d.
  induction log as [|e log IH]; intros d; simpl.
  - rewrite elem_of_nil. tauto.
  - rewrite IH, dd_append_elem, elem_of_cons. tauto.
Qed.

Lemma elem_of_repeat {A} (D : list A) reps x :
  x ∈ concat (replicate reps D) <-> 1 <= reps /\ x ∈ D.
Proof.
  induction reps as [|r IH]; simpl.
  - rewrite elem_of_nil. split; [done|lia].
  - rewrite elem_of_app, IH. split; [intros [?|[_ ?]]; split; auto; lia|].
    intros [_ ?]. by left.
Qed.

Lemma slice_table_NoDup mesh D reps : NoDup (map fst (slice_table mesh D reps)).
Proof. apply dd_of_log_NoDup. constructor. Qed.

Lemma slice_table_elem mesh D reps k :
  k ∈ map fst (slice_table mesh D reps) <-> 1 <= reps /\ k ∈ D.
Proof.
  unfold slice_table. rewrite dd_of_log_elem, layout_fst, elem_of_repeat.
  simpl. rewrite elem_of_nil. tauto.
Qed.

Lemma dd_get_elem d k v :
  NoDup (map fst d) -> (k, v) ∈ d -> dd_get d k = v.
Proof.
  induction d as [|[k0 v0] d IH]; intros Hnd Hin; [by apply elem_of_nil in Hin|].
  simpl in *. apply NoDup_cons in Hnd as [Hk0 Hnd].
  apply elem_of_cons in Hin as [[= -> ->]|Hin].
  - by rewrite String.eqb_refl.
  - destruct (String.eqb k0 k) eqn:E; [|by apply IH].
    apply String.eqb_eq in E as ->. exfalso. apply Hk0.
    apply list_elem_of_fmap. by exists (k, v).
Qed.

(** A table with at most one name, for a non-empty domain and at least one
    repeat, has exactly the entry of that name. *)
Lemma slice_table_single mesh D reps :
  D <> [] -> 1 <= reps -> length (slice_table mesh D reps) <= 1 ->
  exists k, k ∈ D /\ slice_table mesh D reps
                     = [(k, dd_get (slice_table mesh D reps) k)].
Proof.
  intros HD Hr Hlen.
  destruct (slice_table mesh D reps) as [|[k v] [|e T]] eqn:HT;
    [|clear Hlen|simpl in Hlen; lia].
  - destruct D as [|d D]; [done|].
    assert (d ∈ map fst (slice_table mesh (d :: D) reps)) as Hd.
    { apply slice_table_elem. split; [done|left]. }
    rewrite HT in Hd. by apply elem_of_nil in Hd.
  - exists k. split.
    + assert (k ∈ map fst (slice_table mesh D reps)) as Hk.
      { rewrite HT. left. }
      by apply slice_table_elem in Hk as [_ Hk].
    + simpl. by rewrite String.eqb_refl.
Qed.

Lemma slice_table_two_names mesh D reps d1 d2 :
  1 <= reps -> d1 ∈ D -> d2 ∈ D -> d1 <> d2 ->
  2 <= length (slice_table mesh D reps).
Proof.
  intros Hr H1 H2 Hne.
  assert (d1 ∈ map fst (slice_table mesh D reps)) as K1
    by (by apply slice_table_elem).
  assert (d2 ∈ map fst (slice_table mesh D reps)) as K2
    by (by apply slice_table_elem).
  destruct (slice_table mesh D reps) as [|[k v] [|e T]]; simpl in *; [| |lia].
  - by apply elem_of_nil in K1.
  - apply list_elem_of_singleton in K1, K2. congruence.
Qed.

Lemma slice_table_one_name mesh d reps :
  1 <= reps ->
  exists v, slice_table mesh [d] reps = [(d, v)]
    /\ length v = reps
    /\ forall r, r < reps ->
         v !! r = Some (Slice (r * pattern_size mesh [d])
                              (r * pattern_size mesh [d] + pattern_size mesh [d])).
Proof.
  intros Hr.
  assert (Hocc : occurrences d [d] = 1).
  { unfold occurrences. simpl. by rewrite String.eqb_refl. }
  destruct (slice_table_single mesh [d] reps) as (k & Hk & HT); [done|done| |].
  { pose proof (slice_table_NoDup mesh [d] reps) as Hnd.
    destruct (slice_table mesh [d] reps) as [|[k1 v1] [|[k2 v2] T]] eqn:HT;
      simpl; try lia.
    assert (k1 ∈ map fst (slice_table mesh [d] reps)) as K1
      by (rewrite HT; left).
    assert (k2 ∈ map fst (slice_table mesh [d] reps)) as K2
      by (rewrite HT; right; left).
    apply slice_table_elem in K1 as [_ K1], K2 as [_ K2].
    apply list_elem_of_singleton in K1 as ->, K2 as ->.
    simpl in Hnd. apply NoDup_cons in Hnd as [Hnd _].
    exfalso. apply Hnd. left. }
  apply list_elem_of_singleton in Hk as ->.
  exists (dd_get (slice_table mesh [d] reps) d). split; [done|].
  split.
  - rewrite slice_table_repeat_length, Hocc. lia.
  - intros r Hlt.
    pose proof (slice_table_repeat mesh [d] reps r 0 d Hlt eq_refl) as H.
    rewrite Hocc in H. simpl in H.
    replace (r * 1 + occurrences d []) with r in H
      by (unfold occurrences; simpl; lia).
    rewrite H. f_equal. f_equal; unfold pattern_size; simpl; lia.
Qed.

(* ===================================================================== *)
(** * The Jacobian of a [DomainConcatenation] *)
(* ===================================================================== *)

Section jacobian.
Context {J : Type}.
Variable mesh : Mesh.
Variable reps : nat.

Let table (c : Symbol) : SliceDict := slice_table mesh (domain c) reps.

Let block (i : nat) (jac : J) (c : Symbol) : IndexNode J :=
  Index jac (Slice (i * pattern_size mesh (domain c))
                   (i * pattern_size mesh (domain c)
                    + pattern_size mesh (domain c))).

Lemma jac_children_single i (cjs : list J) cs acc :
  i < reps ->
  (forall c, c ∈ cs -> exists d, domain c = [d]) ->
  for_each (jac_child i) (zip cjs (map table cs)) acc
  = Ok (acc ++ zip_with (block i) cjs cs).
Proof.
  intros Hi. revert cjs acc.
  induction cs as [|c cs IH]; intros cjs acc Hone.
  - destruct cjs; simpl; by rewrite app_nil_r.
  - destruct cjs as [|jac cjs]; [simpl; by rewrite app_nil_r|].
    destruct (Hone c) as [d Hd]; [left|].
    destruct (slice_table_one_name mesh d reps) as (v & HT & _ & Hv); [lia|].
    cbn [map zip zip_with for_each]. unfold table at 1. rewrite Hd, HT.
    cbn [jac_child length Nat.ltb Nat.leb bind]. unfold py_index.
    rewrite (Hv i Hi). cbn [bind].
    rewrite IH by (intros c' Hc'; apply Hone; by right).
    unfold block at 2. rewrite Hd. by rewrite <- app_assoc.
Qed.

Lemma jac_repeats_single (cjs : list J) cs a n acc :
  a + n <= reps ->
  (forall c, c ∈ cs -> exists d, domain c = [d]) ->
  for_each (fun jacs i => for_each (jac_child i) (zip cjs (map table cs)) jacs)
    (seq a n) acc
  = Ok (acc ++ flat_map (fun r => zip_with (block r) cjs cs) (seq a n)).
Proof.
  intros Han Hone. revert a acc Han.
  induction n as [|n IH]; intros a acc Han; simpl.
  - by rewrite app_nil_r.
  - rewrite jac_children_single by (lia || done). cbn [bind].
    rewrite IH by lia. by rewrite <- app_assoc.
Qed.

Lemma jac_children_multi i (cjs : list J) cs acc p c d1 d2 :
  i < reps ->
  Forall (fun c => domain c <> []) cs ->
  cs !! p = Some c -> p < length cjs ->
  d1 ∈ domain c -> d2 ∈ domain c -> d1 <> d2 ->
  for_each (jac_child i) (zip cjs (map table cs)) acc
  = Raise NotImplementedError.
Proof.
  intros Hi Hne Hc Hp H1 H2 H12. revert cjs acc p Hc Hp.
  induction Hne as [|c0 cs Hc0 Hne IH]; intros cjs acc p Hc Hp; [done|].
  destruct cjs as [|jac cjs]; [simpl in Hp; lia|].
  cbn [map zip zip_with for_each].
  destruct (decide (2 <= length (table c0))) as [Hlen|Hlen].
  { unfold jac_child.
    replace (1 <? length (table c0)) with true
      by (symmetry; apply Nat.ltb_lt; lia).
    done. }
  destruct (slice_table_single mesh (domain c0) reps) as (k & Hk & HT);
    [done|lia|fold (table c0); lia|].
  fold (table c0) in HT.
  assert (Hv : exists s, dd_get (table c0) k !! i = Some s).
  { apply lookup_lt_is_Some. unfold table.
    rewrite slice_table_repeat_length.
    pose proof (occurrences_pos _ _ Hk). nia. }
  destruct Hv as [s Hs].
  rewrite HT at 1. cbn [jac_child length Nat.ltb Nat.leb bind].
  unfold py_index. rewrite Hs. cbn [bind].
  destruct p as [|p].
  - simpl in Hc. injection Hc as ->. exfalso. apply Hlen.
    by apply (slice_table_two_names mesh (domain c) reps d1 d2); [lia|..].
  - apply (IH _ _ p); [done|simpl in Hp; lia].
Qed.
End jacobian.

Lemma DomainConcatenation_init_nonempty args mesh dc :
  DomainConcatenation_init args mesh None = Ok dc ->
  1 <= secondary_dimensions_npts dc
  /\ Forall (fun c => domain c <> []) (children (node dc)).
Proof.
  intros Hinit.
  destruct (DomainConcatenation_init_domain _ _ _ Hinit) as (_ & _ & Hp & _).
  apply DomainConcatenation_init_inv in Hinit
    as (c0 & rest & last_dom & last_slice & _ & _ & _ & _ & _ & Hsl & _
        & Hld & Hls & _).
  rewrite Hsl in Hls.
  by destruct (slice_table_last _ _ _ _ _ Hld Hls) as [Hpos _].
Qed.

(** C4: for a domain concatenation built from children and a mesh, with
    one Jacobian per child: if some child has two different domain names,
    the Jacobian raises NotImplementedError; if every child has exactly one
    domain, the Jacobian is the SparseStack of the children's row blocks,
    repeat by repeat and within a repeat child by child, that is
    secondary_repeat_count times n_children blocks. *)
Theorem C4_jacobian_blocks {J : Type}
    (args : list PyObject) (mesh : Mesh) (dc : DomainConcatenation)
    (children_jacs : list J) :
  DomainConcatenation_init args mesh None = Ok dc ->
  length children_jacs = length (children (node dc)) ->
  let reps := secondary_dimensions_npts dc in
  ((exists c d1 d2, c ∈ children (node dc)
                    /\ d1 ∈ domain c /\ d2 ∈ domain c /\ d1 <> d2) ->
   _concatenation_jac dc children_jacs = Raise NotImplementedError)
  /\ ((forall c, c ∈ children (node dc) -> exists d, domain c = [d]) ->
      _concatenation_jac dc children_jacs
      = Ok (SparseStack
              (jacobian_blocks mesh reps children_jacs (children (node dc))))
      /\ length (jacobian_blocks mesh reps children_jacs (children (node dc)))
         = reps * length (children (node dc))).
Proof.
  intros Hinit Hlen. cbv zeta.
  destruct (DomainConcatenation_init_nonempty _ _ _ Hinit) as [Hpos Hne].
  apply DomainConcatenation_init_inv in Hinit
    as (c0 & rest & _ & _ & _ & _ & _ & _ & _ & _ & Hcs & _).
  unfold _concatenation_jac. rewrite Hcs.
  set (reps := secondary_dimensions_npts dc) in *. clearbody reps.
  split.
  - intros (c & d1 & d2 & Hc & H1 & H2 & H12).
    apply list_elem_of_lookup in Hc as [p Hp].
    destruct reps as [|r]; [lia|]. cbn [seq for_each].
    rewrite (jac_children_multi mesh (S r) 0 children_jacs _ [] p c d1 d2);
      try done; try lia.
    rewrite Hlen. by eapply lookup_lt_Some.
  - intros Hone. split.
    + rewrite jac_repeats_single by (lia || done). done.
    + unfold jacobian_blocks. clear Hcs Hpos Hne.
      induction reps as [|r IH]; [done|].
      rewrite seq_S, flat_map_app, length_app, IH. simpl.
      rewrite app_nil_r, length_zip_with. lia.
Qed.

(** Two children over a two-point auxiliary level: four blocks, repeat by
    repeat and child by child; and a child over two domains: no Jacobian. *)
Lemma C4_witness :
  match DomainConcatenation_init
          [PySymbol (example_symbol "c_n" ["negative electrode"]
                       ["current collector"]);
           PySymbol (example_symbol "c_s" ["separator"]
                       ["current collector"])]
          example_mesh None with
  | Ok dc =>
      _concatenation_jac dc ["J_n"; "J_s"]
      = Ok (SparseStack [Index "J_n" (Slice 0 5); Index "J_s" (Slice 0 3);
                         Index "J_n" (Slice 5 10); Index "J_s" (Slice 3 6)])
  | Raise _ => False
  end
  /\ match DomainConcatenation_init
             [PySymbol (example_symbol "c_n" ["negative electrode"] []);
              PySymbol (example_symbol "c_sp"
                          ["separator"; "positive electrode"] [])]
             example_mesh None with
     | Ok dc => _concatenation_jac dc ["J_n"; "J_sp"]
                = Raise NotImplementedError
     | Raise _ => False
     end.
Proof.
  split.
  - pose proof (@C4_jacobian_blocks string
                  [PySymbol (example_symbol "c_n" ["negative electrode"]
                               ["current collector"]);
                   PySymbol (example_symbol "c_s" ["separator"]
                               ["current collector"])]
                  example_mesh) as H.
    destruct (DomainConcatenation_init _ example_mesh None) as [dc|e] eqn:E;
      [|vm_compute in E; discriminate].
    specialize (H dc ["J_n"; "J_s"] eq_refl).
    vm_compute in E. injection E as <-.
    destruct (H eq_refl) as [_ Hsingle].
    destruct Hsingle as [-> _]; [|reflexivity].
    intros c Hc. apply list_elem_of_In in Hc. simpl in Hc.
    destruct Hc as [<-|[<-|[]]]; eexists; reflexivity.
  - pose proof (@C4_jacobian_blocks string
                  [PySymbol (example_symbol "c_n" ["negative electrode"] []);
                   PySymbol (example_symbol "c_sp"
                               ["separator"; "positive electrode"] [])]
                  example_mesh) as H.
    destruct (DomainConcatenation_init _ example_mesh None) as [dc|e] eqn:E;
      [|vm_compute in E; discriminate].
    specialize (H dc ["J_n"; "J_sp"] eq_refl).
    vm_compute in E. injection E as <-.
    destruct (H eq_refl) as [Hmulti _]. apply Hmulti.
    exists (example_symbol "c_sp" ["separator"; "positive electrode"] []),
      "separator", "positive electrode".
    split; [right; left|]. split; [left|]. split; [right; left|]. discriminate.
Defined.

(* ===================================================================== *)
(** * Evaluation of a [DomainConcatenation] *)
(* ===================================================================== *)

Section vectors.
Context {A : Type}.
Implicit Types (v w : list A) (s t : slice).

Lemma np_getitem_lookup v s i :
  np_getitem v s !! i
  = if decide (start s + i < stop s) then v !! (start s + i) else None.
Proof.
  unfold np_getitem. rewrite lookup_drop.
  case_decide; [by rewrite lookup_take_lt|by rewrite lookup_take_ge by lia].
Qed.

Lemma np_getitem_length v s :
  stop s <= length v -> length (np_getitem v s) = stop s - start s.
Proof.
  intros Hs. unfold np_getitem. rewrite length_drop, length_take. lia.
Qed.

Lemma lookup_splice v a b w j :
  a <= b -> b <= length v -> length w = b - a ->
  (take a v ++ w ++ drop b v) !! j
  = if decide (j < a) then v !! j
    else if decide (j < b) then w !! (j - a) else v !! j.
Proof.
  intros Hab Hb Hw.
  assert (length (take a v) = a) as Ha by (rewrite length_take; lia).
  case_decide.
  - rewrite lookup_app_l by lia. by rewrite lookup_take_lt.
  - rewrite lookup_app_r by lia. rewrite Ha. case_decide.
    + by rewrite lookup_app_l by lia.
    + rewrite lookup_app_r by lia. rewrite lookup_drop. f_equal. lia.
Qed.

Lemma np_setitem_in_range v s w :
  start s <= stop s -> stop s <= length v -> length w = stop s - start s ->
  np_setitem v s w = Ok (take (start s) v ++ w ++ drop (stop s) v).
Proof.
  intros Hs Hv Hw. unfold np_setitem.
  replace (start s `min` length v) with (start s) by lia.
  replace (start s `max` (stop s `min` length v)) with (stop s) by lia.
  by rewrite Hw, Nat.eqb_refl.
Qed.

Lemma splice_length v a b w :
  a <= b -> b <= length v -> length w = b - a ->
  length (take a v ++ w ++ drop b v) = length v.
Proof.
  intros. rewrite !length_app, length_take, length_drop. lia.
Qed.

Lemma np_getitem_splice_same v s w :
  start s <= stop s -> stop s <= length v -> length w = stop s - start s ->
  np_getitem (take (start s) v ++ w ++ drop (stop s) v) s = w.
Proof.
  intros Hs Hv Hw. apply list_eq. intros i.
  rewrite np_getitem_lookup, lookup_splice by done.
  repeat case_decide; try lia.
  - f_equal. lia.
  - symmetry. apply lookup_ge_None. lia.
Qed.

Lemma np_getitem_splice_other v s w t :
  start s <= stop s -> stop s <= length v -> length w = stop s - start s ->
  separated s t ->
  np_getitem (take (start s) v ++ w ++ drop (stop s) v) t = np_getitem v t.
Proof.
  intros Hs Hv Hw Hsep. apply list_eq. intros i.
  rewrite !np_getitem_lookup, lookup_splice by done.
  unfold separated in Hsep. repeat case_decide; try done; lia.
Qed.

(** Requests whose targets exist, fit the vector and the value, and are
    pairwise separated all succeed; afterwards every target holds its
    value, and what lies apart from all targets is as before. *)
Lemma write_requests_ok (slices : SliceDict) n
    (reqs : list (string * nat * list A)) v :
  length v = n ->
  (forall dom i value, (dom, i, value) ∈ reqs ->
     exists t, dd_get slices dom !! i = Some t
               /\ start t <= stop t /\ stop t <= n
               /\ length value = stop t - start t) ->
  NoDup (map fst reqs) ->
  (forall dom i t dom' i' t',
     dd_get slices dom !! i = Some t -> dd_get slices dom' !! i' = Some t' ->
     (dom, i) <> (dom', i') -> separated t t') ->
  exists v',
    for_each (write_request slices) reqs v = Ok v'
    /\ length v' = n
    /\ (forall dom i value t, (dom, i, value) ∈ reqs ->
          dd_get slices dom !! i = Some t -> np_getitem v' t = value)
    /\ (forall t0, (forall dom i value t, (dom, i, value) ∈ reqs ->
                      dd_get slices dom !! i = Some t -> separated t t0) ->
          np_getitem v' t0 = np_getitem v t0).
Proof.
  intros Hn Hres Hnd Hsep. revert v Hn.
  induction reqs as [|[[dom i] value] reqs IH]; intros v Hn.
  - exists v. split; [done|]. split; [done|]. split; [|done].
    intros ? ? ? ? Hin. by apply elem_of_nil in Hin.
  - destruct (Hres dom i value) as (t & Ht & Hle & Hstop & Hlen); [left|].
    cbn [map] in Hnd. apply NoDup_cons in Hnd as [Hfresh Hnd].
    destruct (IH) with (v := take (start t) v ++ value ++ drop (stop t) v)
      as (v' & Hrun & Hlen' & Hset & Hframe).
    { intros dom' i' value' Hin. apply Hres. by right. }
    { done. }
    { rewrite splice_length; [done|lia|lia|done]. }
    exists v'. split; [|split; [done|split]].
    + cbn [for_each write_request]. unfold py_index. rewrite Ht. cbn [bind].
      rewrite np_setitem_in_range by (lia || done). cbn [bind]. exact Hrun.
    + intros dom' i' value' t' Hin Ht'.
      apply elem_of_cons in Hin as [[= -> -> ->]|Hin]; [|by eapply Hset].
      assert (t' = t) as -> by congruence.
      rewrite Hframe.
      * apply np_getitem_splice_same; lia || done.
      * intros dom' i' value' t' Hin Ht'2.
        apply (Hsep dom' i' t' dom i t); [done|done|].
        intros [= -> ->]. apply Hfresh.
        apply list_elem_of_fmap. by exists (dom, i, value').
    + intros t0 Ht0. rewrite Hframe.
      * apply np_getitem_splice_other; try (lia || done).
        apply (Ht0 dom i value t); [left|done].
      * intros dom' i' value' t' Hin Ht'.
        apply (Ht0 dom' i' value' t'); [by right|done].
Qed.
End vectors.

Lemma for_each_map {A B S} (body : S -> B -> result S) (g : A -> B) xs s :
  for_each body (map g xs) s = for_each (fun s x => body s (g x)) xs s.
Proof.
  revert s. induction xs as [|x xs IH]; intros s; simpl; [done|].
  destruct (body s (g x)); simpl; auto.
Qed.

(** The three nested loops of the evaluation make the requests of the
    children one after the other. *)
Lemma evaluate_as_requests {A} (np_empty : nat -> list A) self children_eval :
  _concatenation_evaluate np_empty self children_eval
  = for_each (write_request (_slices self))
      (flat_map child_requests (zip children_eval (_children_slices self)))
      (np_empty (_size self)).
Proof.
  unfold _concatenation_evaluate. rewrite for_each_flat_map.
  apply for_each_ext. intros vector [cv T] _.
  unfold write_child, child_requests. rewrite for_each_flat_map.
  apply for_each_ext. intros vector' [dom lst] _.
  unfold write_domain. rewrite for_each_map.
  apply for_each_ext. by intros vector'' [i s] _.
Qed.

Lemma elem_of_enumerate {A} (l : list A) i x :
  (i, x) ∈ enumerate l <-> l !! i = Some x.
Proof.
  unfold enumerate. rewrite list_elem_of_lookup. split.
  - intros [j Hj]. apply lookup_zip_with_Some in Hj as (a & b & [= -> ->] & Ha & Hb).
    apply lookup_seq in Ha as [-> _]. done.
  - intros Hx. exists i. apply lookup_zip_with_Some. exists i, x.
    split; [done|]. split; [|done].
    apply lookup_seq. split; [done|]. by eapply lookup_lt_Some.
Qed.

Lemma elem_of_child_requests {A} (cv : list A) T dom i value :
  (dom, i, value) ∈ child_requests (cv, T)
  <-> exists lst s, (dom, lst) ∈ T /\ lst !! i = Some s
                    /\ value = np_getitem cv s.
Proof.
  unfold child_requests. rewrite list_elem_of_In, in_flat_map. split.
  - intros ([dom' lst] & HT & Hin). apply in_map_iff in Hin as ([i' s] & [= -> -> <-] & Hin).
    exists lst, s. split; [by apply list_elem_of_In|].
    split; [|done]. by apply elem_of_enumerate, list_elem_of_In.
  - intros (lst & s & HT & Hs & ->). exists (dom, lst).
    split; [by apply list_elem_of_In|]. apply in_map_iff. exists (i, s).
    split; [done|]. by apply list_elem_of_In, elem_of_enumerate.
Qed.

Lemma NoDup_flat_map {X Y} (f : X -> list Y) xs :
  (forall x, x ∈ xs -> NoDup (f x)) ->
  (forall p q x x' y, p < q -> xs !! p = Some x -> xs !! q = Some x' ->
     y ∈ f x -> y ∉ f x') ->
  NoDup (flat_map f xs).
Proof.
  induction xs as [|x xs IH]; intros Hnd Hdis; simpl; [constructor|].
  apply NoDup_app. split; [apply Hnd; left|]. split.
  - intros y Hy Hin. apply list_elem_of_In, in_flat_map in Hin as (x' & Hx' & Hin).
    apply list_elem_of_In, list_elem_of_lookup in Hx' as [q Hq].
    apply (Hdis 0 (S q) x x' y); [lia|done|done|done|].
    by apply list_elem_of_In.
  - apply IH.
    + intros x' Hx'. apply Hnd. by right.
    + intros p q a b y Hpq Ha Hb. apply (Hdis (S p) (S q)); [lia|done|done].
Qed.

Lemma map_flat_map {X Y Z} (g : Y -> Z) (f : X -> list Y) xs :
  map g (flat_map f xs) = flat_map (fun x => map g (f x)) xs.
Proof.
  induction xs as [|x xs IH]; simpl; [done|]. by rewrite map_app, IH.
Qed.

Lemma child_requests_keys {A} (cv : list A) T dom i :
  (dom, i) ∈ map fst (child_requests (cv, T)) -> dom ∈ map fst T.
Proof.
  intros Hin. apply list_elem_of_fmap in Hin as ([[dom' i'] value] & [= <- <-] & Hin).
  apply elem_of_child_requests in Hin as (lst & s & HT & _).
  apply list_elem_of_fmap. by exists (dom, lst).
Qed.

Lemma child_requests_NoDup {A} (cv : list A) T :
  NoDup (map fst T) -> NoDup (map fst (child_requests (cv, T))).
Proof.
  intros Hnd. unfold child_requests. rewrite map_flat_map.
  assert (Hkeys : forall (dom : string) (lst : list slice),
            map fst (map (fun '(i, s) => (dom, i, np_getitem cv s))
                         (enumerate lst))
            = map (fun i : nat => (dom, i)) (seq 0 (length lst))).
  { intros dom lst. unfold enumerate.
    rewrite <- (fst_zip (seq 0 (length lst)) lst) at 2
      by (rewrite length_seq; lia).
    rewrite !map_map. apply map_ext. by intros [i s]. }
  apply NoDup_flat_map.
  - intros [dom lst] _. rewrite Hkeys.
    apply NoDup_fmap_2_strong; [|apply NoDup_seq]. by intros i j _ _ [= ->].
  - intros p q [dom lst] [dom' lst'] [d i] Hpq Hp Hq. rewrite !Hkeys.
    intros [i1 [[= -> ->] _]]%list_elem_of_fmap [i2 [[= ->] _]]%list_elem_of_fmap.
    assert (p = q); [|lia].
    apply (NoDup_lookup (map fst T) p q dom' Hnd);
      rewrite list_lookup_fmap; [by rewrite Hp|by rewrite Hq].
Qed.

Lemma requests_NoDup {A} (items : list (list A * SliceDict)) :
  (forall item, item ∈ items -> NoDup (map fst item.2)) ->
  (forall p q a b k, p < q -> items !! p = Some a -> items !! q = Some b ->
     k ∈ map fst a.2 -> k ∉ map fst b.2) ->
  NoDup (map fst (flat_map child_requests items)).
Proof.
  intros Hnd Hdis. rewrite map_flat_map. apply NoDup_flat_map.
  - intros [cv T] Hin. apply child_requests_NoDup. by apply (Hnd (cv, T)).
  - intros p q [cv T] [cv' T'] [dom i] Hpq Hp Hq Hin Hin'.
    apply child_requests_keys in Hin, Hin'.
    by apply (Hdis p q (cv, T) (cv', T') dom).
Qed.

(** ** A child's slices and the composite's slices of the same name *)

Lemma occurrences_zero dom D : dom ∉ D -> occurrences dom D = 0.
Proof.
  intros Hn. unfold occurrences.
  destruct (List.filter _ D) as [|k l] eqn:Hf; [done|].
  assert (In k (List.filter (fun k => String.eqb k dom) D)) as Hin
    by (rewrite Hf; left; done).
  apply filter_In in Hin as [Hin Heq]. apply String.eqb_eq in Heq as ->.
  by apply list_elem_of_In in Hin.
Qed.

Lemma occurrences_concat_zero dom (ds : list (list string)) :
  (forall b, b ∈ ds -> dom ∉ b) -> occurrences dom (concat ds) = 0.
Proof.
  induction ds as [|d ds IH]; intros Hn; simpl; [done|].
  rewrite occurrences_app, occurrences_zero by (apply Hn; left).
  rewrite IH; [done|]. intros b Hb. apply Hn. by right.
Qed.

(** A name occurs in the composite's domain exactly as often as in the
    domain of the one child that has it. *)
Lemma occurrences_own_child dom cs p c :
  pairwise_disjoint (map domain cs) -> cs !! p = Some c -> dom ∈ domain c ->
  occurrences dom (concat (map domain cs)) = occurrences dom (domain c).
Proof.
  revert p. induction cs as [|c0 cs IH]; intros p Hpw Hc Hdom; [done|].
  cbn [map concat] in *. apply pairwise_disjoint_cons in Hpw as [H0 Hpw].
  rewrite occurrences_app. destruct p as [|p]; simpl in Hc.
  - injection Hc as ->. rewrite occurrences_concat_zero; [lia|].
    intros b Hb Hin. by apply (H0 b dom).
  - rewrite (IH p) by done. rewrite occurrences_zero; [done|].
    intros Hin. apply (H0 (domain c) dom); [|done|done].
    apply list_elem_of_fmap. exists c. split; [done|].
    by eapply list_elem_of_lookup_2.
Qed.

Lemma dd_get_nonempty_elem d k i s :
  dd_get d k !! i = Some s -> (k, dd_get d k) ∈ d.
Proof.
  induction d as [|[k0 v] d IH]; simpl; [done|].
  destruct (String.eqb k0 k) eqn:E.
  - apply String.eqb_eq in E as ->. intros _. left.
  - intros H. right. by apply IH.
Qed.

Lemma child_request_target {A} mesh reps cs p c (cv : list A) dom i value :
  pairwise_disjoint (map domain cs) -> cs !! p = Some c ->
  child_size mesh reps c <= length cv ->
  (dom, i, value) ∈ child_requests (cv, slice_table mesh (domain c) reps) ->
  exists t,
    dd_get (slice_table mesh (concat (map domain cs)) reps) dom !! i = Some t
    /\ start t <= stop t
    /\ stop t <= reps * pattern_size mesh (concat (map domain cs))
    /\ length value = stop t - start t.
Proof.
  intros Hpw Hc Hcv Hreq.
  apply elem_of_child_requests in Hreq as (lst & s & HT & Hs & ->).
  pose proof (dd_get_elem _ _ _ (slice_table_NoDup mesh (domain c) reps) HT)
    as Hlst.
  assert (dom ∈ domain c) as Hdom.
  { apply (slice_table_elem mesh (domain c) reps).
    apply list_elem_of_fmap. by exists (dom, lst). }
  subst lst. pose proof (lookup_lt_Some _ _ _ Hs) as Hi.
  rewrite slice_table_repeat_length in Hi.
  apply table_bounds in Hs as [Hst Hsb]. rewrite pattern_size_repeat in Hsb.
  destruct (lookup_lt_is_Some_2
              (dd_get (slice_table mesh (concat (map domain cs)) reps) dom) i)
    as [t Ht].
  { rewrite slice_table_repeat_length.
    by rewrite (occurrences_own_child dom cs p c). }
  exists t. split; [done|].
  apply table_bounds in Ht as [Htt Htb]. rewrite pattern_size_repeat in Htb.
  split; [lia|]. split; [done|].
  rewrite np_getitem_length by (unfold child_size in Hcv; lia). lia.
Qed.




(* ===================================================================== *)
(** * Collapsing a concatenation of state vectors *)
(* ===================================================================== *)

Section collapse.
Context `{Pybamm}.

Let pad (longest : nat) (c : Symbol) : list nat :=
  map (fun b : bool => if b then 1 else 0) (indicator_array c)
  ++ replicate (longest - length (indicator_array c)) 0.

Let body (longest : nat) (eval_arrays : list (Symbol * list nat))
    (child : PyObject) : result (list (Symbol * list nat)) :=
  array <- evaluation_array child ;;
  padded <- padded_array longest array ;;
  match child with
  | PySymbol c => Ok (dict_set eval_arrays c padded)
  | _ => Raise TypeError
  end.

Lemma isinstance_state_vectors svs :
  Forall is_state_vector svs ->
  forallb isinstance_StateVector (map PySymbol svs) = true.
Proof.
  induction 1 as [|c svs [Hc _] _ IH]; simpl; [done|].
  rewrite IH, andb_true_r. unfold isinstance_StateVector. simpl.
  by rewrite bool_decide_eq_true_2.
Qed.

Lemma evaluation_array_state_vector c :
  is_state_vector c ->
  evaluation_array (PySymbol c) = Ok (indicator_array c)
  /\ y_slices (PySymbol c) = Ok (slices_of c).
Proof.
  intros [_ Ha]. unfold evaluation_array, y_slices, state_vector_attr.
  by rewrite Ha.
Qed.

Lemma dict_set_fresh {V} (d : list (Symbol * V)) key (value : V) :
  (forall k, k ∈ map fst d -> symbol_eq k key = false) ->
  dict_set d key value = d ++ [(key, value)].
Proof.
  induction d as [|[k v] d IH]; intros Hfresh; simpl; [done|].
  rewrite (Hfresh k) by (simpl; left). f_equal. apply IH.
  intros k' Hk'. apply Hfresh. simpl. by right.
Qed.

Lemma pad_length longest c :
  length (indicator_array c) <= longest -> length (pad longest c) = longest.
Proof.
  intros Hle. unfold pad. rewrite length_app, length_map, length_replicate. lia.
Qed.

Lemma pad_nth longest c k : nth k (pad longest c) 0 = indicator c k.
Proof.
  unfold pad, indicator. rewrite nth_lookup, lookup_app.
  rewrite list_lookup_fmap.
  destruct (indicator_array c !! k) as [[]|] eqn:Hk; simpl; try done.
  destruct (replicate _ 0 !! _) eqn:Hr; [|done].
  by apply lookup_replicate in Hr as [-> _].
Qed.

(** The loop that pads the indicator arrays keeps one array per child, in
    order, when no two children are equal symbols. *)
Lemma eval_arrays_loop longest d todo :
  Forall is_state_vector todo ->
  (forall c, c ∈ todo -> length (indicator_array c) <= longest) ->
  (forall p q a b, p < q -> (map fst d ++ todo) !! p = Some a ->
     (map fst d ++ todo) !! q = Some b -> symbol_eq a b = false) ->
  for_each (body longest) (map PySymbol todo) d
  = Ok (d ++ map (fun c => (c, pad longest c)) todo).
Proof.
  intros Hsv. revert d. induction Hsv as [|c todo Hc Hsv IH]; intros d Hlen Hne.
  - simpl. by rewrite app_nil_r.
  - cbn [map for_each]. unfold body at 1.
    destruct (evaluation_array_state_vector c Hc) as [-> _]. cbn [bind].
    unfold padded_array.
    replace (longest <? length (indicator_array c)) with false.
    2:{ symmetry. apply Nat.ltb_ge, Hlen. left. }
    cbn [bind]. rewrite dict_set_fresh.
    + rewrite IH.
      * by rewrite <- app_assoc.
      * intros c' Hc'. apply Hlen. by right.
      * intros p q a b Hpq. rewrite map_app, <- app_assoc. apply Hne. done.
    + intros k Hk. apply list_elem_of_lookup in Hk as [p Hp].
      apply (Hne p (length (map fst d)) k c).
      * by eapply lookup_lt_Some.
      * by apply lookup_app_l_Some.
      * rewrite lookup_app_r by lia. by rewrite Nat.sub_diag.
Qed.

(** A child whose indicator array is longer than the last child's stops
    the loop with numpy's ValueError. *)
Lemma eval_arrays_loop_too_long longest d todo c :
  Forall is_state_vector todo -> c ∈ todo ->
  longest < length (indicator_array c) ->
  for_each (body longest) (map PySymbol todo) d = Raise ValueError.
Proof.
  intros Hsv Hc Hlong. revert d.
  induction Hsv as [|c0 todo Hc0 Hsv IH]; intros d;
    [by apply elem_of_nil in Hc|].
  cbn [map for_each]. unfold body at 1.
  destruct (evaluation_array_state_vector c0 Hc0) as [-> _]. cbn [bind].
  unfold padded_array.
  destruct (longest <? length (indicator_array c0)) eqn:Hlt; [done|].
  cbn [bind]. apply IH.
  apply elem_of_cons in Hc as [->|Hc]; [|done].
  apply Nat.ltb_ge in Hlt. lia.
Qed.

Lemma zip_add_nth (a b : list nat) k :
  length a = length b ->
  nth k (zip_with Nat.add a b) 0 = nth k a 0 + nth k b 0.
Proof.
  revert b k. induction a as [|x a IH]; intros [|y b] k Hlen;
    simpl in *; try lia.
  - by destruct k.
  - destruct k as [|k]; [done|]. apply IH. lia.
Qed.

Lemma sum_arrays_nth n (a : list nat) rest k :
  length a = n -> Forall (fun r => length r = n) rest ->
  length (fold_left (zip_with Nat.add) rest a) = n
  /\ nth k (fold_left (zip_with Nat.add) rest a) 0
     = nth k a 0 + sum_list_with (fun r => nth k r 0) rest.
Proof.
  intros Ha Hrest. revert a Ha.
  induction Hrest as [|r rest Hr Hrest IH]; intros a Ha; simpl.
  - split; [done|lia].
  - destruct (IH (zip_with Nat.add a r)) as [Hlen Hnth].
    { rewrite length_zip_with. lia. }
    split; [done|]. rewrite Hnth, zip_add_nth by lia. lia.
Qed.

Lemma children_not_equal svs p q a b :
  primary_accepted [] svs -> p < q -> svs !! p = Some a -> svs !! q = Some b ->
  symbol_eq a b = false.
Proof.
  intros (Hne & _ & Hpw) Hpq Ha Hb.
  destruct (symbol_eq a b) eqn:Heq; [|done].
  apply symbol_eq_domain in Heq.
  rewrite Forall_forall in Hne.
  assert (domain a <> []) as Hda
    by (apply Hne; by eapply list_elem_of_lookup_2).
  destruct (domain a) as [|x l] eqn:Hdom; [done|].
  exfalso. apply (Hpw p q (domain a) (domain b) Hpq) with x.
  - by rewrite list_lookup_fmap, Ha.
  - by rewrite list_lookup_fmap, Hb.
  - rewrite Hdom. left.
  - rewrite <- Heq. left.
Qed.

(** C5: the simplification reads the length to which it pads the indicator
    arrays from the last child, not from the longest array, and so departs
    from the claim.  For state-vector children from which the domain
    concatenation can be built: as long as no child's indicator array is
    longer than the last child's, children whose indicators sum to exactly
    1 at every index of the range from the first child's first start to the
    last child's last stop (as far as the last child's array reaches) are
    replaced by one state vector over that whole range, carrying the
    composite's domains, as the claim says; but as soon as some child's
    indicator array is longer than the last child's, the padding of that
    array is asked for a negative length and the simplification raises
    ValueError, whatever the indicators sum to. *)
Theorem C5_state_vectors_collapse (svs : list Symbol) (mesh : Mesh)
    (concat : DomainConcatenation) (c_first c_last : Symbol)
    (s_first s_last : slice) :
  Forall is_state_vector svs ->
  DomainConcatenation_init (map PySymbol svs) mesh None = Ok concat ->
  head svs = Some c_first -> head (slices_of c_first) = Some s_first ->
  last svs = Some c_last -> last (slices_of c_last) = Some s_last ->
  ((forall c, c ∈ svs ->
      length (indicator_array c) <= length (indicator_array c_last)) ->
   (forall k, start s_first <= k < stop s_last ->
      k < length (indicator_array c_last) -> indicator_sum svs k = 1) ->
   simplified_domain_concatenation (map PySymbol svs) mesh None
   = Ok (Collapsed (StateVector (Slice (start s_first) (stop s_last))
                      (domains (node concat)))))
  /\ ((exists c, c ∈ svs
                 /\ length (indicator_array c_last)
                    < length (indicator_array c)) ->
      simplified_domain_concatenation (map PySymbol svs) mesh None
      = Raise ValueError).
Proof.
  intros Hsv Hinit Hfirst Hsf Hlast Hsl.
  destruct (DomainConcatenation_init_domain _ _ _ Hinit) as (Hargs & _ & Hacc).
  apply map_PySymbol_inj in Hargs. rewrite <- Hargs in Hacc.
  assert (Hclast : is_state_vector c_last).
  { rewrite Forall_forall in Hsv. apply Hsv.
    rewrite last_lookup in Hlast. by eapply list_elem_of_lookup_2. }
  assert (Hpylast : py_last (map PySymbol svs) = Ok (PySymbol c_last)).
  { unfold py_last. by rewrite fmap_last, Hlast. }
  set (longest := length (indicator_array c_last)).
  assert (Hunfold : simplified_domain_concatenation (map PySymbol svs) mesh None
    = (eval_arrays <- for_each (body longest) (map PySymbol svs) [] ;;
       first_child <- py_index (map PySymbol svs) 0 ;;
       first_slices <- y_slices first_child ;;
       first_slice <- py_index first_slices 0 ;;
       last_slices <- y_slices (PySymbol c_last) ;;
       last_slice <- py_last last_slices ;;
       total <- sum_arrays (map snd eval_arrays) ;;
       if forallb (fun x => x =? 1)
            (np_getitem total (Slice (start first_slice) (stop last_slice)))
       then Ok (Collapsed (StateVector
                             (Slice (start first_slice) (stop last_slice))
                             (domains (node concat))))
       else Ok (SimplifyIfConstant concat))).
  { unfold simplified_domain_concatenation. rewrite Hinit. cbn [bind].
    rewrite (isinstance_state_vectors _ Hsv), Hpylast. cbn [bind].
    destruct (evaluation_array_state_vector _ Hclast) as [-> _]. done. }
  rewrite Hunfold. clear Hunfold. split.
  - intros Hlen Hsum.
    rewrite (eval_arrays_loop longest [] svs Hsv Hlen).
    2:{ intros p q a b Hpq Ha Hb. by apply (children_not_equal svs p q). }
    cbn [bind app]. destruct svs as [|c0 rest]; [done|].
    injection Hfirst as ->. cbn [map py_index lookup list_lookup bind].
    assert (Hcfirst : is_state_vector c_first) by (by inversion Hsv).
    destruct (evaluation_array_state_vector _ Hcfirst) as [_ ->].
    destruct (evaluation_array_state_vector _ Hclast) as [_ ->].
    cbn [bind]. unfold py_index, py_last.
    rewrite <- head_lookup, Hsf, Hsl. cbn [bind sum_arrays snd].
    rewrite map_map. cbn [snd].
    change (map (fun x => pad longest x) rest) with (map (pad longest) rest).
    destruct (sum_arrays_nth longest (pad longest c_first)
                (map (pad longest) rest)) with (k := 0) as [Htl _].
    { apply pad_length, Hlen. left. }
    { apply Forall_fmap, Forall_forall. intros c Hc.
      apply pad_length, Hlen. by right. }
    replace (forallb _ _) with true; [done|]. symmetry.
    apply forallb_forall. intros x Hx.
    apply list_elem_of_In, list_elem_of_lookup in Hx as [i Hi].
    rewrite np_getitem_lookup in Hi. simpl in Hi.
    case_decide as Hr; [|done].
    pose proof (lookup_lt_Some _ _ _ Hi) as Hbound. rewrite Htl in Hbound.
    apply Nat.eqb_eq.
    assert (x = nth (start s_first + i)
                  (fold_left (zip_with Nat.add) (map (pad longest) rest)
                     (pad longest c_first)) 0) as ->.
    { rewrite nth_lookup, Hi. done. }
    destruct (sum_arrays_nth longest (pad longest c_first)
                (map (pad longest) rest)) with (k := start s_first + i)
      as [_ ->].
    { apply pad_length, Hlen. left. }
    { apply Forall_fmap, Forall_forall. intros c Hc.
      apply pad_length, Hlen. by right. }
    rewrite pad_nth. rewrite <- (Hsum (start s_first + i)) by (lia || done).
    unfold indicator_sum. simpl. f_equal.
    clear. induction rest as [|c rest IH]; simpl; [done|].
    by rewrite pad_nth, IH.
  - intros (c & Hc & Hlong).
    by rewrite (eval_arrays_loop_too_long longest [] svs c Hsv Hc Hlong).
Qed.
End collapse.

(** The running example: state vectors over [0,5), [5,8) and [8,12)
    collapse to one state vector over [0,12). *)
Lemma C5_witness :
  @simplified_domain_concatenation plain_pybamm
    [PySymbol (example_state_vector ["negative electrode"] [Slice 0 5]
                 (replicate 5 true));
     PySymbol (example_state_vector ["separator"] [Slice 5 8]
                 (replicate 5 false ++ replicate 3 true));
     PySymbol (example_state_vector ["positive electrode"] [Slice 8 12]
                 (replicate 8 false ++ replicate 4 true))]
    example_mesh None
  = Ok (Collapsed
          (StateVector (Slice 0 12)
             (mkDomains ["negative electrode"; "separator";
                         "positive electrode"] [] [] []))).
Proof.
  pose proof (@C5_state_vectors_collapse plain_pybamm
                [example_state_vector ["negative electrode"] [Slice 0 5]
                   (replicate 5 true);
                 example_state_vector ["separator"] [Slice 5 8]
                   (replicate 5 false ++ replicate 3 true);
                 example_state_vector ["positive electrode"] [Slice 8 12]
                   (replicate 8 false ++ replicate 4 true)]
                example_mesh) as H.
  cbn [map] in H.
  destruct (DomainConcatenation_init _ example_mesh None) as [dc|e] eqn:E;
    [|vm_compute in E; discriminate].
  specialize (H dc
                (example_state_vector ["negative electrode"] [Slice 0 5]
                   (replicate 5 true))
                (example_state_vector ["positive electrode"] [Slice 8 12]
                   (replicate 8 false ++ replicate 4 true))
                (Slice 0 5) (Slice 8 12)
                ltac:(repeat constructor) eq_refl eq_refl eq_refl eq_refl
                eq_refl).
  destruct H as [Hcollapse _].
  vm_compute in E. injection E as <-.
  apply Hcollapse.
  - intros c Hc. apply list_elem_of_In in Hc. simpl in Hc.
    destruct Hc as [<-|[<-|[<-|[]]]]; simpl; lia.
  - intros k [_ Hk] _. simpl in Hk.
    do 12 (destruct k as [|k]; [reflexivity|]). lia.
Defined.

(** The failing input of C5: the indicators of the state vectors y[0:1,2:3]
    and y[1:2] sum to 1 at both indices of the range [0,2), from the first
    child's first start to the last child's last stop, so that the claim
    asks for one state vector over [0,2); the first child's indicator array
    has three entries, the last child's two, and the simplification raises
    ValueError. *)
Lemma C5_counterexample :
  let svs := [example_state_vector ["negative electrode"]
                [Slice 0 1; Slice 2 3] [true; false; true];
              example_state_vector ["separator"] [Slice 1 2] [false; true]] in
  indicator_sum svs 0 = 1 /\ indicator_sum svs 1 = 1
  /\ @simplified_domain_concatenation plain_pybamm (map PySymbol svs)
       example_mesh None
     = Raise ValueError.
Proof. repeat split; vm_compute; reflexivity. Qed.

(* ===================================================================== *)
(** * Further properties of the module *)
(* ===================================================================== *)

(** ** [all] over fallible predicates *)

Lemma py_all_Ok {A} (p : A -> result bool) (q : A -> bool) xs :
  (forall x, x ∈ xs -> p x = Ok (q x)) -> py_all p xs = Ok (forallb q xs).
Proof.
  induction xs as [|x xs IH]; intros Hp; simpl; [done|].
  rewrite (Hp x) by left. cbn [bind].
  destruct (q x); [|done]. apply IH. intros y Hy. apply Hp. by right.
Qed.

Lemma py_all_true {A} (p : A -> result bool) xs :
  py_all p xs = Ok true -> forall x, x ∈ xs -> p x = Ok true.
Proof.
  induction xs as [|x xs IH]; simpl; intros Hall y Hy.
  - by apply elem_of_nil in Hy.
  - apply bind_Ok in Hall as ([] & Hx & Hall); [|discriminate].
    apply elem_of_cons in Hy as [->|Hy]; [done|by apply IH].
Qed.

Lemma all_agree_true {A} `{EqDecision A} (get : PyObject -> result A)
    children c0 :
  head children = Some c0 ->
  all_agree get children = Ok true ->
  exists a0, get c0 = Ok a0 /\ forall c, c ∈ children -> get c = Ok a0.
Proof.
  intros Hhd Hall. unfold all_agree in Hall.
  assert (Hc0 : c0 ∈ children).
  { destruct children; [discriminate|]. injection Hhd as ->. left. }
  assert (Hidx : py_index children 0 = Ok c0).
  { unfold py_index. destruct children; [discriminate|].
    injection Hhd as ->. done. }
  pose proof (py_all_true _ _ Hall) as Hev.
  pose proof (Hev c0 Hc0) as H0. rewrite Hidx in H0. cbn [bind] in H0.
  destruct (get c0) as [a0|] eqn:Hg0; [|discriminate].
  exists a0. split; [done|]. intros c Hc.
  specialize (Hev c Hc). rewrite Hidx in Hev.
  destruct (get c) as [a|]; [|discriminate]. cbn [bind] in Hev.
  rewrite Hg0 in Hev. cbn [bind] in Hev. injection Hev as Hev.
  by apply bool_decide_eq_true_1 in Hev as ->.
Qed.

Lemma if_Ok_tt (b : bool) e :
  (if b then Ok tt else @Raise unit e) = Ok tt -> b = true.
Proof. by destruct b. Qed.

Lemma variable_attr_Ok {A} (proj : Z -> Z -> Z * Z -> string -> A) c a :
  variable_attr proj c = Ok a ->
  exists v s r b p, c = PySymbol v /\ attrs v = VariableAttrs s r b p
                    /\ a = proj s r b p.
Proof.
  destruct c as [|v|]; simpl; try discriminate.
  destruct (attrs v) as [|s r b p|] eqn:Ha; try discriminate.
  intros [= <-]. by exists v, s, r, b, p.
Qed.

Lemma merged_name_head `{Pybamm} children nm :
  merged_name children = Ok nm -> exists c0, head children = Some c0.
Proof.
  unfold merged_name. intros Hm. apply bind_Ok in Hm as (c0 & Hc0 & _).
  unfold py_index in Hc0. destruct children as [|c cs]; [discriminate|].
  by exists c.
Qed.

(** X1: a [ConcatenationVariable] that could be built carries the scale, the
    reference and the bounds that all its children share: every child is a
    symbol that has these three attributes, with the values the node
    has. *)
Theorem X1_variable_node_shares_attributes `{Pybamm}
    (children : list PyObject) (nd : Symbol) :
  ConcatenationVariable_init children = Ok nd ->
  sym_class nd = ClsConcatenationVariable
  /\ exists scale reference bounds,
       variable_attrs_of nd = Some (scale, reference, bounds)
       /\ forall c, c ∈ children ->
            exists v, c = PySymbol v
                      /\ variable_attrs_of v = Some (scale, reference, bounds).
Proof.
  unfold ConcatenationVariable_init. intros H0.
  apply bind_Ok in H0 as (nm & Hnm & H0).
  destruct (merged_name_head _ _ Hnm) as (c0 & Hhd).
  apply bind_Ok in H0 as (same_scale & Hscale & H0).
  apply bind_Ok in H0 as ([] & Hs & H0). apply if_Ok_tt in Hs as ->.
  apply bind_Ok in H0 as (same_ref & Href & H0).
  apply bind_Ok in H0 as ([] & Hr & H0). apply if_Ok_tt in Hr as ->.
  apply bind_Ok in H0 as (same_lower & Hlo & H0).
  apply bind_Ok in H0 as (same_upper & Hup & H0).
  apply bind_Ok in H0 as ([] & Hu & H0). apply if_Ok_tt in Hu as ->.
  destruct same_lower; [|discriminate].
  apply (all_agree_true _ _ c0 Hhd) in Hscale as (s0 & Hs0 & Hscale).
  apply (all_agree_true _ _ c0 Hhd) in Href as (r0 & Hr0 & Href).
  apply (all_agree_true _ _ c0 Hhd) in Hlo as (lo & Hlo0 & Hlo).
  apply (all_agree_true _ _ c0 Hhd) in Hup as (up & Hup0 & Hup).
  apply bind_Ok in H0 as (c0' & Hc0 & H0).
  assert (c0' = c0) as ->.
  { unfold py_index in Hc0. destruct children; [discriminate|].
    injection Hhd as ->. by injection Hc0 as ->. }
  rewrite Hs0, Hr0 in H0. cbn [bind] in H0.
  apply bind_Ok in H0 as (bounds & Hb & H0).
  apply bind_Ok in H0 as (node & Hnode & H0).
  assert (Hcls : sym_class node = ClsConcatenationVariable).
  { unfold Concatenation_init in Hnode. destruct (_ && _); [discriminate|].
    invert_binds Hnode. by injection Hnode as <-. }
  invert_binds H0. destruct node as [cls nn nc ndm na]. injection H0 as <-.
  split; [exact Hcls|]. exists s0, r0, bounds. split; [done|].
  assert (Hbounds : bounds = (lo, up)).
  { rewrite Hb in Hlo0, Hup0. cbn [bind] in Hlo0, Hup0.
    injection Hlo0 as <-. injection Hup0 as <-. by destruct bounds. }
  intros c Hc.
  specialize (Hscale c Hc). specialize (Href c Hc).
  specialize (Hlo c Hc). specialize (Hup c Hc).
  apply variable_attr_Ok in Hscale as (v & s & r & b & p & -> & Hv & ->).
  exists v. split; [done|]. unfold variable_attrs_of. rewrite Hv.
  unfold sym_reference, sym_bounds, variable_attr in Href, Hlo, Hup.
  rewrite Hv in Href, Hlo, Hup. cbn [bind] in Hlo, Hup.
  injection Href as ->. injection Hlo as Hlo. injection Hup as Hup.
  rewrite Hbounds. destruct b as [b1 b2]. simpl in Hlo, Hup. by subst.
Qed.

Lemma for_each_Ok {A S} (body : S -> A -> result S) (f : S -> A -> S) xs s :
  (forall s x, x ∈ xs -> body s x = Ok (f s x)) ->
  for_each body xs s = Ok (fold_left f xs s).
Proof.
  revert s. induction xs as [|x xs IH]; intros s Hb; simpl; [done|].
  rewrite Hb by left. cbn [bind]. apply IH. intros s' y Hy. apply Hb. by right.
Qed.

Lemma all_agree_symbols {A} `{EqDecision A} (get : PyObject -> result A)
    (g : Symbol -> A) vs v0 :
  head vs = Some v0 ->
  (forall v, v ∈ vs -> get (PySymbol v) = Ok (g v)) ->
  all_agree get (map PySymbol vs)
  = Ok (forallb (fun v => bool_decide (g v = g v0)) vs).
Proof.
  intros Hhd Hg. unfold all_agree.
  assert (Hv0 : v0 ∈ vs).
  { destruct vs; [discriminate|]. injection Hhd as ->. left. }
  assert (Hidx : py_index (map PySymbol vs) 0 = Ok (PySymbol v0)).
  { destruct vs; [discriminate|]. by injection Hhd as ->. }
  rewrite (py_all_Ok _ (fun c => match c with
                                 | PySymbol v => bool_decide (g v = g v0)
                                 | _ => false
                                 end)).
  - f_equal. clear. induction vs as [|v vs IH]; simpl; [done|]. by rewrite IH.
  - intros c Hc. apply list_elem_of_fmap in Hc as (v & -> & Hv).
    rewrite (Hg v Hv), Hidx. cbn [bind]. by rewrite (Hg v0 Hv0).
Qed.

Lemma forallb_false_elem {A} (q : A -> bool) xs :
  forallb q xs = false -> exists x, x ∈ xs /\ q x = false.
Proof.
  induction xs as [|x xs IH]; simpl; [discriminate|].
  destruct (q x) eqn:Hq; simpl.
  - intros (y & Hy & Hqy)%IH. exists y. split; [by right|done].
  - intros _. exists x. split; [left|done].
Qed.

Lemma forallb_true_elem {A} (q : A -> bool) xs :
  forallb q xs = true -> forall x, x ∈ xs -> q x = true.
Proof.
  rewrite forallb_forall. intros Hq x Hx. by apply Hq, list_elem_of_In.
Qed.

Lemma merged_name_symbols `{Pybamm} a b rest :
  exists nm, merged_name (map PySymbol (a :: b :: rest)) = Ok nm.
Proof.
  unfold merged_name. cbn [map py_index lookup list_lookup bind sym_name drop].
  rewrite (for_each_Ok _ (fun nm c => match c with
                                      | PySymbol s => intersect nm (name s)
                                      | _ => nm
                                      end)).
  - cbn [bind]. destruct (fold_left _ _ _) as [|c [|c' r]]; eauto.
  - intros nm c Hc. apply list_elem_of_fmap in Hc as (v & -> & _). done.
Qed.

(** For variables that have their attributes, what [ConcatenationVariable]
    comes to: ValueError when two of them differ in scale, reference or
    bounds; otherwise what the base class makes of the children, with the
    variables' attributes added to the node. *)
Lemma ConcatenationVariable_init_cases `{Pybamm} (vs : list Symbol) :
  2 <= length vs ->
  Forall (fun v => is_Some (variable_attrs_of v)) vs ->
  ((exists u v, u ∈ vs /\ v ∈ vs
                /\ variable_attrs_of u <> variable_attrs_of v)
   /\ ConcatenationVariable_init (map PySymbol vs) = Raise ValueError)
  \/ ((forall u v, u ∈ vs -> v ∈ vs ->
         variable_attrs_of u = variable_attrs_of v)
      /\ exists nm,
           match Concatenation_init ClsConcatenationVariable
                   (map PySymbol vs) nm true NoAttrs with
           | Ok node =>
               exists at_,
                 ConcatenationVariable_init (map PySymbol vs)
                 = Ok (mkSymbol (sym_class node) (name node) (children node)
                         (domains node) at_)
           | Raise e => ConcatenationVariable_init (map PySymbol vs) = Raise e
           end).
Proof.
  intros Hlen Hvars.
  destruct vs as [|a [|b rest]]; simpl in Hlen; try lia. clear Hlen.
  set (vs := a :: b :: rest) in *.
  assert (Hattr : forall v, v ∈ vs ->
            exists s r bd p, attrs v = VariableAttrs s r bd p).
  { intros v Hv. rewrite Forall_forall in Hvars.
    destruct (Hvars v Hv) as [x Hx]. unfold variable_attrs_of in Hx.
    destruct (attrs v) as [|s r bd p|]; try discriminate. by exists s, r, bd, p. }
  set (sc := fun v : Symbol => match attrs v with
                               | VariableAttrs s _ _ _ => s | _ => 0%Z end).
  set (rf := fun v : Symbol => match attrs v with
                               | VariableAttrs _ r _ _ => r | _ => 0%Z end).
  set (bd := fun v : Symbol => match attrs v with
                               | VariableAttrs _ _ b _ => b | _ => (0, 0)%Z end).
  assert (Hof : forall v, v ∈ vs ->
            variable_attrs_of v = Some (sc v, rf v, bd v)).
  { intros v Hv. destruct (Hattr v Hv) as (s & r & b0 & p & Hv').
    unfold variable_attrs_of, sc, rf, bd. by rewrite Hv'. }
  assert (Hsc : all_agree sym_scale (map PySymbol vs)
                = Ok (forallb (fun v => bool_decide (sc v = sc a)) vs)).
  { apply all_agree_symbols; [done|]. intros v Hv.
    destruct (Hattr v Hv) as (s & r & b0 & p & Hv').
    unfold sym_scale, variable_attr, sc. by rewrite Hv'. }
  assert (Hrf : all_agree sym_reference (map PySymbol vs)
                = Ok (forallb (fun v => bool_decide (rf v = rf a)) vs)).
  { apply all_agree_symbols; [done|]. intros v Hv.
    destruct (Hattr v Hv) as (s & r & b0 & p & Hv').
    unfold sym_reference, variable_attr, rf. by rewrite Hv'. }
  assert (Hlo : all_agree (fun c => b0 <- sym_bounds c ;; Ok b0.1)
                  (map PySymbol vs)
                = Ok (forallb (fun v => bool_decide ((bd v).1 = (bd a).1)) vs)).
  { apply (all_agree_symbols _ (fun v => (bd v).1)); [done|]. intros v Hv.
    destruct (Hattr v Hv) as (s & r & b0 & p & Hv').
    unfold sym_bounds, variable_attr, bd. by rewrite Hv'. }
  assert (Hup : all_agree (fun c => b0 <- sym_bounds c ;; Ok b0.2)
                  (map PySymbol vs)
                = Ok (forallb (fun v => bool_decide ((bd v).2 = (bd a).2)) vs)).
  { apply (all_agree_symbols _ (fun v => (bd v).2)); [done|]. intros v Hv.
    destruct (Hattr v Hv) as (s & r & b0 & p & Hv').
    unfold sym_bounds, variable_attr, bd. by rewrite Hv'. }
  assert (Ha : a ∈ vs) by left.
  assert (Hdiff : forall v,
            v ∈ vs -> variable_attrs_of v <> variable_attrs_of a ->
            exists u v, u ∈ vs /\ v ∈ vs
                        /\ variable_attrs_of u <> variable_attrs_of v).
  { intros v Hv Hne. by exists v, a. }
  destruct (merged_name_symbols a b rest) as (nm & Hnm). fold vs in Hnm.
  unfold ConcatenationVariable_init. rewrite Hnm, Hsc. cbn [bind].
  destruct (forallb (fun v => bool_decide (sc v = sc a)) vs) eqn:Esc.
  2:{ cbn [bind]. left. split; [|done].
      apply forallb_false_elem in Esc as (v & Hv & Hq).
      apply bool_decide_eq_false_1 in Hq. apply (Hdiff v Hv).
      rewrite (Hof v Hv), (Hof a Ha). intros [= H1 H2 H3].
      apply Hq. by rewrite ?H1, ?H2, ?H3. }
  cbn [bind]. rewrite Hrf. cbn [bind].
  destruct (forallb (fun v => bool_decide (rf v = rf a)) vs) eqn:Erf.
  2:{ cbn [bind]. left. split; [|done].
      apply forallb_false_elem in Erf as (v & Hv & Hq).
      apply bool_decide_eq_false_1 in Hq. apply (Hdiff v Hv).
      rewrite (Hof v Hv), (Hof a Ha). intros [= H1 H2 H3].
      apply Hq. by rewrite ?H1, ?H2, ?H3. }
  cbn [bind]. rewrite Hlo. cbn [bind].
  destruct (forallb (fun v => bool_decide ((bd v).1 = (bd a).1)) vs) eqn:Elo.
  2:{ cbn [bind]. left. split; [|done].
      apply forallb_false_elem in Elo as (v & Hv & Hq).
      apply bool_decide_eq_false_1 in Hq. apply (Hdiff v Hv).
      rewrite (Hof v Hv), (Hof a Ha). intros [= H1 H2 H3].
      apply Hq. by rewrite ?H1, ?H2, ?H3. }
  rewrite Hup. cbn [bind].
  destruct (forallb (fun v => bool_decide ((bd v).2 = (bd a).2)) vs) eqn:Eup.
  2:{ cbn [bind]. left. split; [|done].
      apply forallb_false_elem in Eup as (v & Hv & Hq).
      apply bool_decide_eq_false_1 in Hq. apply (Hdiff v Hv).
      rewrite (Hof v Hv), (Hof a Ha). intros [= H1 H2 H3].
      apply Hq. by rewrite ?H1, ?H2, ?H3. }
  cbn [bind]. right. split.
  - assert (Hsame : forall w, w ∈ vs ->
              variable_attrs_of w = variable_attrs_of a).
    { intros w Hw. rewrite (Hof w Hw), (Hof a Ha).
      pose proof (forallb_true_elem _ _ Esc w Hw) as H1.
      pose proof (forallb_true_elem _ _ Erf w Hw) as H2.
      pose proof (forallb_true_elem _ _ Elo w Hw) as H3.
      pose proof (forallb_true_elem _ _ Eup w Hw) as H4.
      apply bool_decide_eq_true_1 in H1, H2, H3, H4.
      rewrite H1, H2. destruct (bd w), (bd a). simpl in *. by subst. }
    intros u v Hu Hv. by rewrite (Hsame u Hu), (Hsame v Hv).
  - exists nm. cbn [py_index map lookup list_lookup bind vs].
    destruct (Hattr a Ha) as (s & r & b0 & p & Hv').
    unfold sym_scale, sym_reference, sym_bounds, sym_raw_print_name,
      variable_attr. rewrite Hv'. cbn [bind].
    destruct (Concatenation_init ClsConcatenationVariable _ nm true NoAttrs)
      as [node|e]; cbn [bind]; [|done].
    destruct (Hattr b) as (s' & r' & b0' & p' & Hb'); [right; left|].
    rewrite Hb'. cbn [bind].
    rewrite (for_each_Ok _ (fun q c => match c with
                                       | PySymbol v =>
                                           match attrs v with
                                           | VariableAttrs _ _ _ p1 =>
                                               intersect q p1
                                           | _ => q
                                           end
                                       | _ => q
                                       end)).
    2:{ intros q c Hc. cbn [drop] in Hc.
        apply list_elem_of_fmap in Hc as (v & -> & Hv).
        destruct (Hattr v) as (s1 & r1 & b1 & p1 & Hv1); [by right; right|].
        by rewrite Hv1. }
    cbn [bind]. destruct node. eexists. reflexivity.
Qed.

(** X2: for two or more variables, [ConcatenationVariable] raises ValueError
    exactly when two of them differ in scale, reference or bounds; the
    attribute checks run before the domains are validated, so overlapping
    domains do not change this. *)
Theorem X2_variable_attributes_must_agree `{Pybamm} (vs : list Symbol) :
  2 <= length vs ->
  Forall (fun v => is_Some (variable_attrs_of v)) vs ->
  ConcatenationVariable_init (map PySymbol vs) = Raise ValueError
  <-> exists u v, u ∈ vs /\ v ∈ vs
                  /\ variable_attrs_of u <> variable_attrs_of v.
Proof.
  intros Hlen Hvars.
  destruct (ConcatenationVariable_init_cases vs Hlen Hvars)
    as [[Hex E]|[Hall (nm & E)]].
  - done.
  - split.
    + intros Hraise. exfalso.
      pose proof (Concatenation_init_not_ValueError ClsConcatenationVariable
                    (map PySymbol vs) nm NoAttrs) as Hnv.
      destruct (Concatenation_init _ _ nm true NoAttrs) as [node|e].
      * destruct E as [at_ E]. congruence.
      * rewrite E in Hraise. by injection Hraise as ->.
    + intros (u & v & Hu & Hv & Hne). destruct Hne. by apply Hall.
Qed.


(** Two variables with the default attributes: the node has them too. *)
Lemma X1_witness :
  match @ConcatenationVariable_init plain_pybamm
          [PySymbol (example_variable "c_n" ["negative electrode"]);
           PySymbol (example_variable "c_p" ["positive electrode"])] with
  | Ok nd =>
      sym_class nd = ClsConcatenationVariable
      /\ variable_attrs_of nd = Some (1, 0, (0, 1))%Z
  | Raise _ => False
  end.
Proof.
  pose proof (@X1_variable_node_shares_attributes plain_pybamm
                [PySymbol (example_variable "c_n" ["negative electrode"]);
                 PySymbol (example_variable "c_p" ["positive electrode"])])
    as H.
  destruct (ConcatenationVariable_init _) as [nd|e] eqn:E.
  - destruct (H nd eq_refl) as [Hcls _]. split; [exact Hcls|].
    vm_compute in E. injection E as <-. reflexivity.
  - vm_compute in E. discriminate.
Defined.

(** Two variables whose scales are 1 and 2, over the same domain. *)
Lemma X2_witness :
  @ConcatenationVariable_init plain_pybamm
    (map PySymbol
       [example_variable "c_n" ["negative electrode"];
        example_scaled_variable "c_p" ["negative electrode"]])
  = Raise ValueError.
Proof.
  apply (proj2 (@X2_variable_attributes_must_agree plain_pybamm
                  [example_variable "c_n" ["negative electrode"];
                   example_scaled_variable "c_p" ["negative electrode"]]
                  ltac:(simpl; lia)
                  ltac:(repeat constructor; eexists; reflexivity))).
  exists (example_variable "c_n" ["negative electrode"]),
         (example_scaled_variable "c_p" ["negative electrode"]).
  split; [left|]. split; [right; left|]. discriminate.
Defined.

(** X3: [ConcatenationVariable] reads the names of its first two children
    before anything else, so with fewer than two children it fails with
    IndexError. *)
Theorem X3_variable_needs_two_children `{Pybamm} (vs : list Symbol) :
  length vs < 2 ->
  ConcatenationVariable_init (map PySymbol vs) = Raise IndexError.
Proof.
  intros Hlen. destruct vs as [|a [|b rest]]; simpl in Hlen; try lia; done.
Qed.

(** A single variable. *)
Lemma X3_witness :
  @ConcatenationVariable_init plain_pybamm
    (map PySymbol [example_variable "c_n" ["negative electrode"]])
  = Raise IndexError.
Proof.
  apply (@X3_variable_needs_two_children plain_pybamm
           [example_variable "c_n" ["negative electrode"]]).
  simpl. lia.
Defined.

(** ** Names that have nothing in common *)

Lemma intersect_empty_l `{Pybamm} s : intersect EmptyString s = EmptyString.
Proof.
  unfold intersect. change (all_intersects EmptyString s) with (@nil string).
  pose proof (set_iter_perm []) as Hperm.
  apply Permutation_nil_r in Hperm. by rewrite Hperm.
Qed.

Lemma intersect_no_common `{Pybamm} s1 s2 :
  (forall y, ~ (contiguous_substring y s1 /\ contiguous_substring y s2)) ->
  intersect s1 s2 = EmptyString.
Proof.
  intros Hno.
  destruct (intersect_longest_common s1 s2)
    as [[He _]|(x & _ & H1 & H2 & _)]; [done|].
  destruct (Hno x). done.
Qed.

(** X4: when the names of the first two children have no piece in common,
    the merged name is empty whatever the names of the other children, and
    the [ConcatenationVariable] falls back to the default name
    "concatenation". *)
Theorem X4_unrelated_names_give_default_name `{Pybamm}
    (a b : Symbol) (rest : list PyObject) (nd : Symbol) :
  (forall y, ~ (contiguous_substring y (name a)
                /\ contiguous_substring y (name b))) ->
  ConcatenationVariable_init (PySymbol a :: PySymbol b :: rest) = Ok nd ->
  name nd = "concatenation".
Proof.
  intros Hno Hinit. unfold ConcatenationVariable_init in Hinit.
  apply bind_Ok in Hinit as (nm & Hnm & Hinit).
  assert (nm = None) as ->.
  { unfold merged_name in Hnm.
    cbn [py_index lookup list_lookup bind sym_name drop] in Hnm.
    rewrite (intersect_no_common _ _ Hno) in Hnm.
    apply bind_Ok in Hnm as (n & Hloop & Hnm).
    assert (n = EmptyString) as ->; [|by injection Hnm as <-].
    clear -Hloop. induction rest as [|c rest IH]; simpl in Hloop.
    - by injection Hloop as <-.
    - apply bind_Ok in Hloop as (n' & Hn' & Hloop).
      apply bind_Ok in Hn' as (m & _ & Hn'). injection Hn' as <-.
      rewrite intersect_empty_l in Hloop. by apply IH. }
  invert_binds Hinit.
  match goal with
  | Hnd : Concatenation_init _ _ _ _ _ = Ok ?n |- _ =>
      unfold Concatenation_init in Hnd;
      destruct (_ && _) in Hnd; [discriminate|];
      invert_binds Hnd; injection Hnd as <-
  end.
  by injection Hinit as <-.
Qed.

(** The names abc and xyz share no character. *)
Lemma X4_witness :
  match @ConcatenationVariable_init plain_pybamm
          [PySymbol (example_variable "abc" ["negative electrode"]);
           PySymbol (example_variable "xyz" ["positive electrode"])] with
  | Ok nd => name nd = "concatenation"
  | Raise _ => False
  end.
Proof.
  pose proof (@X4_unrelated_names_give_default_name plain_pybamm
                (example_variable "abc" ["negative electrode"])
                (example_variable "xyz" ["positive electrode"]) []) as H.
  destruct (ConcatenationVariable_init _) as [nd|e] eqn:E.
  - apply (H nd); [|reflexivity].
    intros y Hy. apply elem_of_all_intersects in Hy.
    vm_compute in Hy. by apply elem_of_nil in Hy.
  - vm_compute in E. discriminate.
Defined.

(** ** [intersect]: trimming keeps a common piece *)

Lemma append_nil_r s : String.append s EmptyString = s.
Proof.
  induction s as [|c s IH]; [done|].
  change (String c (String.append s EmptyString) = String c s). by rewrite IH.
Qed.

Lemma append_assoc a b c :
  String.append a (String.append b c) = String.append (String.append a b) c.
Proof.
  induction a as [|x a IH]; [done|].
  change (String x (String.append a (String.append b c))
          = String x (String.append (String.append a b) c)).
  by rewrite IH.
Qed.

Lemma lstrip_suffix s : exists pre, s = String.append pre (lstrip s).
Proof.
  induction s as [|c s [pre IH]]; [by exists EmptyString|]. simpl.
  destruct (is_space c).
  - exists (String c pre).
    change (String c s = String c (String.append pre (lstrip s))).
    by rewrite <- IH.
  - by exists EmptyString.
Qed.

Lemma rstrip_prefix s : exists post, s = String.append (rstrip s) post.
Proof.
  induction s as [|c s [post IH]]; [by exists EmptyString|]. simpl.
  destruct (rstrip s) as [|c' r] eqn:Hr.
  - destruct (is_space c).
    + by exists (String c s).
    + exists post. change (String c s = String c (String.append EmptyString post)).
      by rewrite <- IH.
  - exists post.
    change (String c s = String c (String.append (String c' r) post)).
    by rewrite <- IH.
Qed.

Lemma lstrip_first s c : first_char (lstrip s) = Some c -> is_space c = false.
Proof.
  induction s as [|x s IH]; simpl; [discriminate|].
  destruct (is_space x) eqn:Hx; [done|].
  unfold first_char. simpl. by intros [= <-].
Qed.

Lemma rstrip_first s c :
  first_char s = Some c -> is_space c = false -> first_char (rstrip s) = Some c.
Proof.
  destruct s as [|x s]; [discriminate|]. unfold first_char. simpl.
  intros [= ->] Hc. destruct (rstrip s); [by rewrite Hc|done].
Qed.

Lemma rstrip_last s c : last_char (rstrip s) = Some c -> is_space c = false.
Proof.
  unfold last_char. induction s as [|x s IH]; simpl; [discriminate|].
  destruct (rstrip s) as [|c' r] eqn:Hr.
  - destruct (is_space x) eqn:Hx; [discriminate|]. simpl. by intros [= <-].
  - simpl. simpl in IH. by rewrite Nat.sub_0_r in *.
Qed.

Lemma contiguous_substring_strip x s :
  contiguous_substring x s -> rstrip (lstrip x) <> EmptyString ->
  contiguous_substring (rstrip (lstrip x)) s.
Proof.
  intros [_ (pre & post & ->)] Hne. split; [done|].
  destruct (lstrip_suffix x) as [pre' Hl].
  destruct (rstrip_prefix (lstrip x)) as [post' Hr].
  exists (String.append pre pre'), (String.append post' post).
  rewrite Hl at 1. rewrite Hr at 1.
  by rewrite !append_assoc.
Qed.

(** X5: whatever two strings it is given, [intersect] returns either the
    empty string or a non-empty piece that occurs verbatim in both of them,
    and the result neither begins nor ends with white space. *)
Theorem X5_intersect_is_trimmed_common_piece `{Pybamm} :
  forall s1 s2,
    (intersect s1 s2 = EmptyString
     \/ (contiguous_substring (intersect s1 s2) s1
         /\ contiguous_substring (intersect s1 s2) s2))
    /\ (forall c, first_char (intersect s1 s2) = Some c -> is_space c = false)
    /\ (forall c, last_char (intersect s1 s2) = Some c -> is_space c = false).
Proof.
  intros s1 s2.
  destruct (intersect_longest_common s1 s2)
    as [[He _]|(x & He & H1 & H2 & _)].
  - rewrite He. split; [by left|]. split; intros c; discriminate.
  - rewrite He. split; [|split].
    + destruct (rstrip (lstrip x)) as [|c r] eqn:Hs; [by left|]. right.
      rewrite <- Hs. split; apply contiguous_substring_strip; congruence.
    + intros c Hc.
      destruct (first_char (lstrip x)) as [c'|] eqn:Hf.
      * pose proof (lstrip_first _ _ Hf) as Hsp.
        rewrite (rstrip_first _ _ Hf Hsp) in Hc. by injection Hc as <-.
      * unfold first_char in Hf. destruct (lstrip x); [discriminate|].
        discriminate.
    + apply rstrip_last.
Qed.

(** X6: the longest piece a string has in common with itself is the string:
    [intersect s s] is [s] without its leading and trailing white space. *)
Theorem X6_intersect_with_itself `{Pybamm} :
  forall s, intersect s s = rstrip (lstrip s).
Proof.
  intros s. destruct s as [|c s]; [apply intersect_empty_l|].
  apply intersect_unique_longest.
  - apply elem_of_all_intersects.
    assert (contiguous_substring (String c s) (String c s)); [|done].
    split; [done|]. exists EmptyString, EmptyString.
    by rewrite append_nil_r.
  - intros y [[_ (pre & post & Hy)] _]%elem_of_all_intersects.
    pose proof (f_equal String.length Hy) as Hlen.
    rewrite !append_length in Hlen.
    destruct pre as [|p pre]; [|right; simpl in Hlen |- *; lia].
    destruct post as [|q post].
    + left. simpl in Hy. by rewrite append_nil_r in Hy.
    + right. simpl in Hlen |- *. lia.
Qed.

(** ** The number of substrings *)

Lemma list_sum_countdown a n :
  2 * list_sum (map (fun i => a + n - i) (seq a n)) = n * (n + 1).
Proof.
  revert a. induction n as [|n IH]; intros a; [done|].
  cbn [seq map list_sum].
  assert (map (fun i => a + S n - i) (seq (S a) n)
          = map (fun i => S a + n - i) (seq (S a) n)) as ->.
  { apply map_ext. intros i. lia. }
  specialize (IH (S a)). unfold list_sum in *. cbn [fold_right]. lia.
Qed.

(** X7: [substrings] yields the non-empty contiguous pieces of its argument
    and nothing else, [n * (n + 1) / 2] strings in all (repetitions
    counted) for an argument of length [n], and none for the empty
    string. *)
Theorem X7_substrings_are_the_pieces :
  forall s,
    (forall x, x ∈ substrings s <-> contiguous_substring x s)
    /\ 2 * length (substrings s) = String.length s * (String.length s + 1).
Proof.
  intros s. split; [intros x; apply elem_of_substrings|].
  unfold substrings. rewrite length_flat_map.
  rewrite <- (list_sum_countdown 0 (String.length s)). f_equal. f_equal.
  apply map_ext. intros i. by rewrite length_map, length_seq.
Qed.

(** X8: two or more broadcasts of one and the same child are merged into a
    single broadcast of that child: over the children's primary domains in
    child order when the first child is a primary broadcast, and over the
    merged domains (auxiliary levels of the first child) otherwise. The
    domains are validated first: primary domains that are empty or overlap,
    or incompatible auxiliary levels, give DomainError. *)
Theorem X8_broadcasts_of_one_child_merge `{Pybamm}
    (b0 b1 : Symbol) (bs : list Symbol) (u : Symbol) :
  let cs := b0 :: b1 :: bs in
  head (children b0) = Some u ->
  Forall (broadcast_of u) cs ->
  (primary_accepted [] cs -> auxiliary_accepted b0 (b1 :: bs) ->
   concatenation (map PySymbol cs)
   = if isinstance_PrimaryBroadcast (PySymbol b0)
     then node <- PrimaryBroadcast u (concat (map domain cs)) ;;
          Ok (PySymbol node)
     else node <- FullBroadcast u
                    (domains_with_primary (domains b0)
                       (concat (map domain cs))) ;;
          Ok (PySymbol node))
  /\ (~ (primary_accepted [] cs /\ auxiliary_accepted b0 (b1 :: bs)) ->
      concatenation (map PySymbol cs) = Raise DomainError).
Proof.
  intros cs Hu Hall.
  set (args := PySymbol b0 :: PySymbol b1 :: map PySymbol bs).
  change (map PySymbol cs) with args.
  assert (Hnone : List.filter is_not_None args = args)
    by apply (filter_not_None_symbols cs).
  assert (Hvar : forallb isinstance_Variable args = false).
  { cbn [args forallb]. apply Forall_inv in Hall as [Hb _].
    unfold isinstance_Variable, isinstance_Broadcast, isinstance in *.
    cbn [existsb] in *.
    destruct (bool_decide (sym_class b0 = ClsVariable)) eqn:Hc; [|done].
    apply bool_decide_eq_true_1 in Hc. rewrite Hc in Hb. done. }
  assert (Hsame : forallb (same_broadcast (PySymbol b0)) args = true).
  { rewrite forallb_forall. intros c Hc.
    apply list_elem_of_In in Hc. change args with (map PySymbol cs) in Hc.
    apply list_elem_of_fmap in Hc as (b & -> & Hb).
    rewrite Forall_forall in Hall. destruct (Hall b Hb) as (Hcls & x & Hx & Heq).
    unfold same_broadcast. rewrite Hcls. cbn [andb broadcast_child].
    by rewrite Hx, Hu. }
  unfold concatenation, simplified_concatenation. rewrite Hnone.
  unfold args at 1. cbv iota beta. fold args. rewrite Hvar.
  unfold Concatenation_init. rewrite Hvar. cbn [andb default].
  destruct (get_children_domains_cases b0 (b1 :: bs))
    as [(Hp & Ha & E)|[(Hp & Ha & E)|(Hp & E)]]; fold cs in Hp, E;
    change (map PySymbol cs) with args in E; rewrite E; cbn [bind].
  - split; [|intros Hn; destruct Hn; done]. intros _ _.
    change (as_symbols args) with (as_symbols (map PySymbol cs)).
    rewrite (as_symbols_map cs). cbn [bind]. rewrite Hsame.
    cbn [broadcast_child]. rewrite Hu. done.
  - split; [done|done].
  - split; [done|done].
Qed.

(** Two primary broadcasts of one symbol, over the negative electrode
    and the separator. *)
Lemma X8_witness :
  @concatenation plain_pybamm
    [PySymbol (example_broadcast (example_symbol "x" [] [])
                 ["negative electrode"]);
     PySymbol (example_broadcast (example_symbol "x" [] []) ["separator"])]
  = Ok (PySymbol (example_broadcast (example_symbol "x" [] [])
                    ["negative electrode"; "separator"])).
Proof.
  apply (proj1 (@X8_broadcasts_of_one_child_merge plain_pybamm
                  (example_broadcast (example_symbol "x" [] [])
                     ["negative electrode"])
                  (example_broadcast (example_symbol "x" [] []) ["separator"])
                  [] (example_symbol "x" [] []) eq_refl
                  ltac:(repeat constructor; eexists; split; reflexivity))).
  - split; [repeat constructor; discriminate|]. split.
    + intros c x _ _ Hx. by apply elem_of_nil in Hx.
    + intros i j a b Hij Hi Hj x Hxa Hxb.
      destruct i as [|[|i]], j as [|[|j]]; simpl in Hi, Hj;
        try lia; try discriminate;
        injection Hi as <-; injection Hj as <-;
        apply list_elem_of_In in Hxa, Hxb; simpl in Hxa, Hxb;
        intuition congruence.
  - intros level Hl Hne. destruct level; simpl in Hne; congruence.
Defined.

Lemma Concatenation_init_unchecked cls cs nm at_ :
  cls <> ClsConcatenation ->
  Concatenation_init cls (map PySymbol cs) (Some nm) false at_
  = Ok (mkSymbol cls nm cs EMPTY_DOMAINS at_).
Proof.
  intros Hcls. unfold Concatenation_init.
  rewrite (bool_decide_eq_false_2 _ Hcls), andb_false_r.
  cbn [bind default]. by rewrite as_symbols_map.
Qed.

(** X9: [numpy_concatenation] accepts any symbols: it validates no domains
    and raises nothing of its own, whether the children's domains are
    empty or overlap, and also without children. The node it builds (before
    constant folding) is named "numpy_concatenation", has no domain, and
    has as children the arguments with every numpy concatenation among
    them replaced by its own children and with every child that evaluates
    to a number multiplied by the unit vector. *)
Theorem X9_numpy_concatenation_never_fails `{Pybamm} :
  forall cs : list Symbol,
    numpy_concatenation (map PySymbol cs)
    = Ok (simplify_if_constant
            (mkSymbol ClsNumpyConcatenation "numpy_concatenation"
               (map as_vector (spliced cs)) EMPTY_DOMAINS NoAttrs)).
Proof.
  intros cs. unfold numpy_concatenation, simplified_numpy_concatenation.
  assert (Hnew : new_children (map PySymbol cs) = map PySymbol (spliced cs)).
  { unfold new_children, spliced.
    induction cs as [|c cs IH]; [done|]. cbn [map flat_map].
    rewrite IH, map_app. f_equal.
    unfold isinstance_NumpyConcatenation, isinstance. cbn [existsb].
    rewrite orb_false_r. by destruct (bool_decide _). }
  rewrite Hnew. unfold NumpyConcatenation_init.
  assert (Hvec : forall l : list Symbol,
            map_result
              (fun child => match child with
                            | PySymbol c =>
                                if evaluates_to_number c
                                then Ok (PySymbol (times_unit_vector c))
                                else Ok child
                            | _ => Raise AttributeError
                            end) (map PySymbol l)
            = Ok (map PySymbol (map as_vector l))).
  { induction l as [|c l IH]; [done|]. cbn [map map_result].
    rewrite IH. unfold as_vector. by destruct (evaluates_to_number c). }
  rewrite Hvec. cbn [bind]. by rewrite Concatenation_init_unchecked.
Qed.

Lemma _get_auxiliary_domain_repeats_product self d :
  _get_auxiliary_domain_repeats self d = auxiliary_repeats (full_mesh self) d.
Proof.
  unfold _get_auxiliary_domain_repeats, auxiliary_repeats, level_npts.
  cbn [domains_items fold_left Level_eqb negb andb].
  repeat case_bool_decide; cbn [negb]; lia.
Qed.

Lemma last_is_Some {A} (l : list A) : l <> [] -> is_Some (last l).
Proof.
  intros Hl. rewrite last_lookup. apply lookup_lt_is_Some.
  destruct l; [done|]. simpl. lia.
Qed.

(** X10: what constructing a domain concatenation from children and a mesh
    comes to. An error of the domain validator is passed on. Otherwise the
    repeat count is the product of the mesh's point counts over the
    non-empty auxiliary levels of the validated domains; if that product is
    zero no slice is recorded and construction fails with IndexError; if
    not, construction succeeds, with the validated domains, that repeat
    count and the arguments as children. *)
Theorem X10_domain_concatenation_construction :
  forall (args : list PyObject) (mesh : Mesh),
    (forall e copy_this,
       get_children_domains args = Raise e ->
       DomainConcatenation_init args mesh copy_this = Raise e)
    /\ (forall d,
          get_children_domains args = Ok d ->
          (auxiliary_repeats mesh d = 0 ->
           DomainConcatenation_init args mesh None = Raise IndexError)
          /\ (auxiliary_repeats mesh d <> 0 ->
              exists dc,
                DomainConcatenation_init args mesh None = Ok dc
                /\ domains (node dc) = d
                /\ secondary_dimensions_npts dc = auxiliary_repeats mesh d
                /\ args = map PySymbol (children (node dc)))).
Proof.
  intros args mesh.
  assert (Hcls : forallb isinstance_Variable args
                 && bool_decide (ClsDomainConcatenation = ClsConcatenation)
                 = false) by (by rewrite andb_false_r).
  split.
  - intros e copy_this He. unfold DomainConcatenation_init, Concatenation_init.
    by rewrite Hcls, He.
  - intros d Hd.
    destruct (get_children_domains_symbols _ _ Hd) as (c0 & rest & ->).
    set (cs := c0 :: rest) in *.
    assert (Hdom : primary d = concat (map domain cs)
                   /\ Forall (fun c => domain c <> []) cs).
    { destruct (get_children_domains_cases c0 rest)
        as [((Hne & _) & _ & E)|[(_ & _ & E)|(_ & E)]];
        fold cs in E; rewrite E in Hd; try discriminate.
      by injection Hd as <-. }
    destruct Hdom as [Hprim Hne].
    unfold DomainConcatenation_init, Concatenation_init.
    rewrite Hcls, Hd, as_symbols_map. cbn [bind default].
    set (base := mkSymbol ClsDomainConcatenation _ cs d NoAttrs).
    set (reps := _get_auxiliary_domain_repeats
                   (mkDomainConcatenation base mesh 0 [] 0 []) (domains base)).
    assert (Hreps : reps = auxiliary_repeats mesh d)
      by apply _get_auxiliary_domain_repeats_product.
    rewrite (create_slices_table
               (mkDomainConcatenation base mesh reps [] 0 []) base)
      by reflexivity.
    cbn [bind secondary_dimensions_npts full_mesh _full_mesh].
    split.
    + intros Hz. rewrite Hreps, Hz. unfold py_last.
      destruct (last (domain base)); [|done]. done.
    + intros Hnz.
      destruct (last_is_Some (domain base)) as [last_dom Hld].
      { change (domain base) with (primary d). rewrite Hprim.
        cbn [cs map concat]. apply Forall_inv in Hne.
        destruct (domain c0); [done|discriminate]. }
      destruct (last_is_Some (dd_get (slice_table mesh (domain base) reps)
                                last_dom)) as [last_slice Hls].
      { intros Hnil. apply (f_equal length) in Hnil.
        rewrite slice_table_repeat_length in Hnil. simpl in Hnil.
        assert (1 <= occurrences last_dom (domain base)).
        { apply occurrences_pos. rewrite last_lookup in Hld.
          by eapply list_elem_of_lookup_2. }
        nia. }
      unfold py_last. rewrite Hld. cbn [bind]. rewrite Hls. cbn [bind].
      rewrite (map_result_Ok_map _
                 (fun c => slice_table mesh (domain c) reps)).
      2:{ intros c. by rewrite create_slices_table. }
      cbn [bind]. eexists. split; [reflexivity|]. cbn. done.
Qed.

(** A mesh without points along the auxiliary level. *)
Lemma X10_witness :
  DomainConcatenation_init
    [PySymbol (example_symbol "c_n" ["negative electrode"]
                 ["current collector"])]
    (mkMesh (fun _ => 3) (fun _ => 0)) None
  = Raise IndexError.
Proof.
  apply (proj1 (proj2 (X10_domain_concatenation_construction
                         [PySymbol (example_symbol "c_n" ["negative electrode"]
                                      ["current collector"])]
                         (mkMesh (fun _ => 3) (fun _ => 0)))
                  (mkDomains ["negative electrode"] ["current collector"] [] [])
                  eq_refl)).
  reflexivity.
Defined.

(** X11: copying a domain concatenation that was built from children and a
    mesh, with new children whose domains are those of the old ones,
    re-uses the stored slices and gives exactly what
    [domain_concatenation] gives for the new children and the mesh; in
    particular this is what [create_copy] returns when copying a child
    keeps its domains. *)
Theorem X11_copy_equals_rebuilding `{Pybamm}
    (cs cs' : list Symbol) (mesh : Mesh) (dc : DomainConcatenation) :
  DomainConcatenation_init (map PySymbol cs) mesh None = Ok dc ->
  (map domains cs' = map domains cs ->
   _concatenation_new_copy dc (map PySymbol cs')
   = domain_concatenation (map PySymbol cs') mesh)
  /\ (forall new_copy : Symbol -> Symbol,
        (forall c, domains (new_copy c) = domains c) ->
        create_copy new_copy dc
        = domain_concatenation (map PySymbol (map new_copy cs)) mesh).
Proof.
  intros Hinit.
  assert (Hgen : forall cs', map domains cs' = map domains cs ->
            _concatenation_new_copy dc (map PySymbol cs')
            = domain_concatenation (map PySymbol cs') mesh).
  { intros cs0 Hd.
    unfold _concatenation_new_copy, domain_concatenation,
      simplified_domain_concatenation.
    by rewrite (copy_equals_fresh cs cs0 mesh (full_mesh dc) dc Hinit Hd). }
  split; [apply Hgen|]. intros new_copy Hnew. unfold create_copy.
  destruct (DomainConcatenation_init_domain _ _ _ Hinit) as (Hargs & _).
  apply map_PySymbol_inj in Hargs. rewrite <- Hargs.
  rewrite <- (map_map new_copy PySymbol). apply Hgen.
  rewrite map_map. apply map_ext. intros c. apply Hnew.
Qed.

(** Copying with children of other names over the same domains. *)
Lemma X11_witness :
  match DomainConcatenation_init
          (map PySymbol [example_symbol "c_n" ["negative electrode"] [];
                         example_symbol "c_s" ["separator"] []])
          example_mesh None with
  | Ok dc =>
      @_concatenation_new_copy plain_pybamm dc
        (map PySymbol [example_symbol "d_n" ["negative electrode"] [];
                       example_symbol "d_s" ["separator"] []])
      = @domain_concatenation plain_pybamm
          (map PySymbol [example_symbol "d_n" ["negative electrode"] [];
                         example_symbol "d_s" ["separator"] []])
          example_mesh
  | Raise _ => False
  end.
Proof.
  pose proof (@X11_copy_equals_rebuilding plain_pybamm
                [example_symbol "c_n" ["negative electrode"] [];
                 example_symbol "c_s" ["separator"] []]
                [example_symbol "d_n" ["negative electrode"] [];
                 example_symbol "d_s" ["separator"] []]
                example_mesh) as H.
  destruct (DomainConcatenation_init _ example_mesh None) as [dc|e] eqn:E.
  - apply (H dc eq_refl). reflexivity.
  - vm_compute in E. discriminate.
Defined.

(** ** The size of the evaluated vector *)

Lemma np_setitem_length {A} (v : list A) s w v' :
  np_setitem v s w = Ok v' -> length v' = length v.
Proof.
  unfold np_setitem.
  set (a := start s `min` length v). set (b := a `max` (stop s `min` length v)).
  destruct (length w =? b - a) eqn:Hw.
  - apply Nat.eqb_eq in Hw. intros [= <-].
    rewrite !length_app, length_take, length_drop. lia.
  - destruct w as [|x [|y w]]; try discriminate. intros [= <-].
    rewrite !length_app, length_take, length_replicate, length_drop. lia.
Qed.

Lemma for_each_invariant {A S} (P : S -> Prop) (body : S -> A -> result S)
    xs s s' :
  (forall s x s', P s -> body s x = Ok s' -> P s') ->
  P s -> for_each body xs s = Ok s' -> P s'.
Proof.
  intros Hb. revert s. induction xs as [|x xs IH]; intros s Hs; simpl.
  - by intros [= <-].
  - intros H. apply bind_Ok in H as (s1 & H1 & H). eauto.
Qed.

Lemma _concatenation_evaluate_length {A : Type} (np_empty : nat -> list A)
    (self : DomainConcatenation) (children_eval : list (list A))
    (vector : list A) :
  (forall n, length (np_empty n) = n) ->
  _concatenation_evaluate np_empty self children_eval = Ok vector ->
  length vector = _size self.
Proof.
  intros Hempty. unfold _concatenation_evaluate.
  apply (for_each_invariant (fun v => length v = _size self));
    [|apply Hempty].
  intros v [cv T] v'. unfold write_child.
  apply (for_each_invariant (fun v => length v = _size self)).
  intros v1 [dom lst] v1'. unfold write_domain.
  apply (for_each_invariant (fun v => length v = _size self)).
  intros v2 [i s] v2' Hlen Hw. unfold write_slice in Hw.
  apply bind_Ok in Hw as (t & _ & Hw). apply np_setitem_length in Hw. lia.
Qed.

(** X12: whatever the children's vectors and the stored slices are, an
    evaluation that returns returns a vector of exactly [_size] rows: the
    assignments to slices never change the length of the preallocated
    vector. *)
Theorem X12_evaluation_has_total_size {A : Type} (np_empty : nat -> list A)
    (self : DomainConcatenation) (children_eval : list (list A))
    (vector : list A) :
  (forall n, length (np_empty n) = n) ->
  _concatenation_evaluate np_empty self children_eval = Ok vector ->
  length vector = _size self.
Proof. apply _concatenation_evaluate_length. Qed.

(** Two children of 5 and 3 rows: 8 rows in all. *)
Lemma X12_witness :
  match _concatenation_evaluate (fun n => replicate n 0)
          (mkDomainConcatenation
             (mkSymbol ClsDomainConcatenation "domain_concatenation" []
                EMPTY_DOMAINS NoAttrs)
             example_mesh 1
             [("negative electrode", [Slice 0 5]); ("separator", [Slice 5 8])]
             8
             [[("negative electrode", [Slice 0 5])];
              [("separator", [Slice 0 3])]])
          [[1; 2; 3; 4; 5]; [6; 7; 8]] with
  | Ok vector => length vector = 8
  | Raise _ => False
  end.
Proof.
  pose proof (@X12_evaluation_has_total_size nat (fun n => replicate n 0)
                (mkDomainConcatenation
                   (mkSymbol ClsDomainConcatenation "domain_concatenation" []
                      EMPTY_DOMAINS NoAttrs)
                   example_mesh 1
                   [("negative electrode", [Slice 0 5]);
                    ("separator", [Slice 5 8])]
                   8
                   [[("negative electrode", [Slice 0 5])];
                    [("separator", [Slice 0 3])]])
                [[1; 2; 3; 4; 5]; [6; 7; 8]]) as H.
  destruct (_concatenation_evaluate _ _ _) as [vector|e] eqn:E.
  - apply (H vector); [intros n; apply length_replicate|reflexivity].
  - vm_compute in E. discriminate.
Defined.

(** ** When state vectors collapse *)

Section collapse_only.
Context `{Pybamm}.

Let pad (longest : nat) (c : Symbol) : list nat :=
  map (fun b : bool => if b then 1 else 0) (indicator_array c)
  ++ replicate (longest - length (indicator_array c)) 0.

Let body (longest : nat) (eval_arrays : list (Symbol * list nat))
    (child : PyObject) : result (list (Symbol * list nat)) :=
  array <- evaluation_array child ;;
  padded <- padded_array longest array ;;
  match child with
  | PySymbol c => Ok (dict_set eval_arrays c padded)
  | _ => Raise TypeError
  end.

Lemma eval_arrays_loop_attrs longest d todo d' :
  for_each (body longest) (map PySymbol todo) d = Ok d' ->
  Forall (fun c => attrs c = StateVectorAttrs (slices_of c) (indicator_array c)
                   /\ length (indicator_array c) <= longest) todo.
Proof.
  revert d. induction todo as [|c todo IH]; intros d; [constructor|].
  cbn [map for_each]. intros Hrun.
  apply bind_Ok in Hrun as (d1 & Hc & Hrun). constructor; [|by eapply IH].
  unfold body in Hc. apply bind_Ok in Hc as (arr & Harr & Hc).
  apply bind_Ok in Hc as (padded & Hpad & _).
  unfold evaluation_array, state_vector_attr in Harr.
  unfold slices_of, indicator_array.
  destruct (attrs c) as [| |ys ea]; try discriminate. injection Harr as <-.
  split; [done|]. unfold padded_array in Hpad.
  destruct (longest <? length ea) eqn:Hlt; [discriminate|].
  by apply Nat.ltb_ge in Hlt.
Qed.

Lemma forallb_isinstance_StateVector svs :
  forallb isinstance_StateVector (map PySymbol svs) = true ->
  Forall (fun c => sym_class c = ClsStateVector) svs.
Proof.
  induction svs as [|c svs IH]; [constructor|]. cbn [map forallb].
  intros [Hc Hrest]%andb_prop. constructor; [|by apply IH].
  unfold isinstance_StateVector, isinstance in Hc. cbn [existsb] in Hc.
  rewrite orb_false_r in Hc. by apply bool_decide_eq_true_1 in Hc.
Qed.

(** X13: the simplification returns a single state vector only when it must:
    every child is then a state vector, none with an indicator array longer
    than the last child's, the children's indicators sum to exactly 1 at
    every index between the first child's first start and the last child's
    last stop (as far as the last child's array reaches), and the state
    vector returned spans that range and carries the composite's
    domains. *)
Theorem X13_collapse_only_when_indicators_sum_to_one
    (svs : list Symbol) (mesh : Mesh) (sv : Symbol) :
  simplified_domain_concatenation (map PySymbol svs) mesh None
  = Ok (Collapsed sv) ->
  exists concat c_first c_last s_first s_last,
    DomainConcatenation_init (map PySymbol svs) mesh None = Ok concat
    /\ Forall is_state_vector svs
    /\ head svs = Some c_first /\ head (slices_of c_first) = Some s_first
    /\ last svs = Some c_last /\ last (slices_of c_last) = Some s_last
    /\ sv = StateVector (Slice (start s_first) (stop s_last))
              (domains (node concat))
    /\ (forall c, c ∈ svs ->
          length (indicator_array c) <= length (indicator_array c_last))
    /\ (forall k, start s_first <= k < stop s_last ->
          k < length (indicator_array c_last) -> indicator_sum svs k = 1).
Proof.
  unfold simplified_domain_concatenation. intros Hrun.
  apply bind_Ok in Hrun as (concat & Hinit & Hrun).
  destruct (forallb isinstance_StateVector (map PySymbol svs)) eqn:Hcls;
    [|discriminate].
  apply forallb_isinstance_StateVector in Hcls.
  apply bind_Ok in Hrun as (last_child & Hlast & Hrun).
  apply py_last_Ok in Hlast. rewrite fmap_last in Hlast.
  destruct (last svs) as [c_last|] eqn:Hl; [|discriminate].
  injection Hlast as <-.
  apply bind_Ok in Hrun as (last_array & Hla & Hrun).
  apply bind_Ok in Hrun as (eval_arrays & Hloop & Hrun).
  change (for_each (body (length last_array)) (map PySymbol svs) []
          = Ok eval_arrays) in Hloop.
  pose proof (eval_arrays_loop_attrs _ _ _ _ Hloop) as Hattrs.
  assert (Hsv : Forall is_state_vector svs).
  { rewrite Forall_forall in Hcls, Hattrs |- *. intros c Hc.
    split; [by apply Hcls|]. by apply Hattrs. }
  assert (Hclast : is_state_vector c_last).
  { rewrite Forall_forall in Hsv. apply Hsv.
    rewrite last_lookup in Hl. by eapply list_elem_of_lookup_2. }
  destruct (evaluation_array_state_vector _ Hclast) as [Hea Hys].
  rewrite Hea in Hla. injection Hla as <-.
  set (longest := length (indicator_array c_last)) in *.
  assert (Hlen : forall c, c ∈ svs -> length (indicator_array c) <= longest).
  { rewrite Forall_forall in Hattrs. intros c Hc. by apply Hattrs. }
  destruct (DomainConcatenation_init_domain _ _ _ Hinit) as (Hargs & _ & Hacc).
  apply map_PySymbol_inj in Hargs. rewrite <- Hargs in Hacc.
  assert (Hloop' : for_each (body longest) (map PySymbol svs) []
                   = Ok ([] ++ map (fun c => (c, pad longest c)) svs)).
  { apply (eval_arrays_loop longest [] svs Hsv Hlen).
    intros p q a b Hpq Ha Hb. by apply (children_not_equal svs p q). }
  rewrite Hloop' in Hloop. injection Hloop as <-. cbn [app] in Hrun.
  destruct svs as [|c_first rest]; [discriminate|].
  cbn [map py_index lookup list_lookup bind] in Hrun.
  assert (Hcfirst : is_state_vector c_first) by (by inversion Hsv).
  destruct (evaluation_array_state_vector _ Hcfirst) as [_ Hysf].
  rewrite Hysf, Hys in Hrun. cbn [bind] in Hrun.
  apply bind_Ok in Hrun as (s_first & Hsf & Hrun).
  apply bind_Ok in Hrun as (s_last & Hsl & Hrun).
  apply py_last_Ok in Hsl.
  unfold py_index in Hsf. rewrite <- head_lookup in Hsf.
  destruct (head (slices_of c_first)) as [s0|] eqn:Hhd; [|discriminate].
  injection Hsf as ->.
  cbn [bind sum_arrays snd map] in Hrun. rewrite map_map in Hrun.
  cbn [snd] in Hrun.
  change (map (fun x => pad longest x) rest) with (map (pad longest) rest)
    in Hrun.
  destruct (forallb _ _) eqn:Hall; [|discriminate]. injection Hrun as <-.
  exists concat, c_first, c_last, s_first, s_last.
  repeat (split; [done|]).
  intros k [Hk1 Hk2] Hk.
  assert (Hlens : length (pad longest c_first) = longest
                  /\ Forall (fun r => length r = longest)
                       (map (pad longest) rest)).
  { split; [apply pad_length, Hlen; left|].
    apply Forall_fmap, Forall_forall. intros c Hc.
    apply pad_length, Hlen. by right. }
  destruct Hlens as [Hl1 Hl2].
  destruct (sum_arrays_nth longest (pad longest c_first)
              (map (pad longest) rest) k Hl1 Hl2) as [Htl Hnth].
  rewrite forallb_forall in Hall.
  assert (Hin : nth k (fold_left (zip_with Nat.add) (map (pad longest) rest)
                         (pad longest c_first)) 0
                ∈ np_getitem (fold_left (zip_with Nat.add)
                                (map (pad longest) rest) (pad longest c_first))
                    (Slice (start s_first) (stop s_last))).
  { apply list_elem_of_lookup. exists (k - start s_first).
    rewrite np_getitem_lookup. cbn [start stop].
    rewrite decide_True by lia.
    replace (start s_first + (k - start s_first)) with k by lia.
    destruct (lookup_lt_is_Some_2
                (fold_left (zip_with Nat.add) (map (pad longest) rest)
                   (pad longest c_first)) k) as [y Hy]; [lia|].
    rewrite Hy. f_equal. symmetry. by apply nth_lookup_Some. }
  apply list_elem_of_In, Hall, Nat.eqb_eq in Hin.
  assert (Hpn : forall c, nth k (pad longest c) 0 = indicator c k)
    by (intros c; apply pad_nth).
  rewrite Hnth, Hpn in Hin. rewrite <- Hin.
  unfold indicator_sum. simpl. f_equal.
  clear -Hpn. induction rest as [|c rest IH]; simpl; [done|].
  by rewrite Hpn, IH.
Qed.
End collapse_only.

(** Two state vectors over [0,5) and [5,8) collapse, and their
    indicators sum to 1. *)
Lemma X13_witness :
  let svs := [example_state_vector ["negative electrode"] [Slice 0 5]
                (replicate 5 true);
              example_state_vector ["separator"] [Slice 5 8]
                (replicate 5 false ++ replicate 3 true)] in
  exists concat c_first c_last s_first s_last,
    DomainConcatenation_init (map PySymbol svs) example_mesh None = Ok concat
    /\ Forall is_state_vector svs
    /\ head svs = Some c_first /\ head (slices_of c_first) = Some s_first
    /\ last svs = Some c_last /\ last (slices_of c_last) = Some s_last
    /\ StateVector (Slice 0 8)
         (mkDomains ["negative electrode"; "separator"] [] [] [])
       = StateVector (Slice (start s_first) (stop s_last))
           (domains (node concat))
    /\ (forall c, c ∈ svs ->
          length (indicator_array c) <= length (indicator_array c_last))
    /\ (forall k, start s_first <= k < stop s_last ->
          k < length (indicator_array c_last) -> indicator_sum svs k = 1).
Proof.
  apply (@X13_collapse_only_when_indicators_sum_to_one plain_pybamm
           [example_state_vector ["negative electrode"] [Slice 0 5]
              (replicate 5 true);
            example_state_vector ["separator"] [Slice 5 8]
              (replicate 5 false ++ replicate 3 true)]
           example_mesh
           (StateVector (Slice 0 8)
              (mkDomains ["negative electrode"; "separator"] [] [] []))).
  vm_compute. reflexivity.
Defined.

(** ** Looking into stacked blocks *)

Lemma lookup_concat_block {A} (bs : list (list A)) p b z :
  bs !! p = Some b -> z < length b ->
  concat bs !! (length (concat (take p bs)) + z) = b !! z.
Proof.
  revert p. induction bs as [|b0 bs IH]; intros p Hp Hz; [done|].
  destruct p as [|p]; simpl in *.
  - injection Hp as ->. by rewrite lookup_app_l.
  - rewrite length_app, lookup_app_r by lia.
    replace (length b0 + length (concat (take p bs)) + z - length b0)
      with (length (concat (take p bs)) + z) by lia.
    by apply IH.
Qed.

Lemma lookup_concat_inv {A} (ls : list (list A)) j x :
  concat ls !! j = Some x ->
  exists p l j', ls !! p = Some l /\ l !! j' = Some x
                 /\ j = length (concat (take p ls)) + j'
                 /\ take j (concat ls) = concat (take p ls) ++ take j' l
                 /\ take (S j) (concat ls) = concat (take p ls) ++ take (S j') l.
Proof.
  revert j. induction ls as [|l0 ls IH]; intros j Hj; [done|].
  simpl in Hj. destruct (decide (j < length l0)) as [Hlt|Hge].
  - rewrite lookup_app_l in Hj by done.
    exists 0, l0, j. split; [done|]. split; [done|]. split; [done|].
    simpl. split; by rewrite take_app_le by lia.
  - rewrite lookup_app_r in Hj by lia.
    destruct (IH _ Hj) as (p & l & j' & Hp & Hl & Hjj & Ht & Ht').
    exists (S p), l, j'. split; [done|]. split; [done|].
    simpl. rewrite length_app. split; [lia|].
    replace j with (length l0 + (j - length l0)) at 1 by lia.
    replace (S j) with (length l0 + S (j - length l0)) by lia.
    rewrite !take_app_add, Ht, Ht', <- !app_assoc. done.
Qed.

Lemma lookup_flat_map_rows {A} (f : nat -> list A) n a reps r y :
  (forall i, a <= i < a + reps -> length (f i) = n) -> r < reps -> y < n ->
  flat_map f (seq a reps) !! (r * n + y) = f (a + r) !! y.
Proof.
  revert a r. induction reps as [|reps IH]; intros a r Hf Hr Hy; [lia|].
  simpl. assert (length (f a) = n) as Ha by (apply Hf; lia).
  destruct r as [|r].
  - rewrite lookup_app_l by lia. simpl. by rewrite Nat.add_0_r.
  - rewrite lookup_app_r by lia. rewrite Ha.
    replace (S r * n + y - n) with (r * n + y) by lia.
    rewrite IH; [|intros i Hi; apply Hf; lia|lia|lia].
    by replace (S a + r) with (a + S r) by lia.
Qed.

Lemma length_flat_map_rows {A} (f : nat -> list A) n a reps :
  (forall i, a <= i < a + reps -> length (f i) = n) ->
  length (flat_map f (seq a reps)) = reps * n.
Proof.
  revert a. induction reps as [|reps IH]; intros a Hf; [done|].
  simpl. rewrite length_app, Hf, IH by (try intros i Hi; try apply Hf; lia).
  lia.
Qed.

Lemma pattern_size_concat mesh (ds : list (list string)) :
  pattern_size mesh (concat ds) = sum_list_with (pattern_size mesh) ds.
Proof.
  induction ds as [|d ds IH]; [done|]. simpl.
  by rewrite pattern_size_app, IH.
Qed.

Section stacked.
Context {A : Type}.
Variable mesh : Mesh.
Variable reps : nat.

(** Children's vectors that hold the rows of every repeat. *)
Let fits (children_eval : list (list A)) (cs : list Symbol) : Prop :=
  Forall2 (fun cv c => child_size mesh reps c <= length cv) children_eval cs.

Lemma repeat_rows_length r (cv : list A) c :
  r < reps -> child_size mesh reps c <= length cv ->
  length (repeat_rows mesh r cv c) = pattern_size mesh (domain c).
Proof.
  intros Hr Hcv. unfold repeat_rows. rewrite np_getitem_length; simpl; [lia|].
  unfold child_size in Hcv. nia.
Qed.

Lemma row_blocks_length r children_eval cs :
  r < reps -> fits children_eval cs ->
  length (concat (zip_with (repeat_rows mesh r) children_eval cs))
  = pattern_size mesh (concat (map domain cs)).
Proof.
  intros Hr Hfit. induction Hfit as [|cv c cvs cs Hcv _ IH]; [done|].
  cbn [zip_with concat map]. rewrite length_app, pattern_size_app, IH.
  by rewrite repeat_rows_length.
Qed.

Lemma row_blocks_take r children_eval cs p :
  r < reps -> fits children_eval cs ->
  length (concat (take p (zip_with (repeat_rows mesh r) children_eval cs)))
  = pattern_size mesh (concat (map domain (take p cs))).
Proof.
  intros Hr Hfit. rewrite zip_with_take. apply row_blocks_length; [done|].
  by apply Forall2_take.
Qed.

Lemma stacked_rows_length children_eval cs :
  fits children_eval cs ->
  length (stacked_rows mesh reps children_eval cs)
  = reps * pattern_size mesh (concat (map domain cs)).
Proof.
  intros Hfit. unfold stacked_rows. apply length_flat_map_rows.
  intros r Hr. apply row_blocks_length; [lia|done].
Qed.

(** A row of the stacked vector is a row of the block it falls into. *)
Lemma stacked_rows_lookup children_eval cs r p cv c z :
  fits children_eval cs -> r < reps ->
  children_eval !! p = Some cv -> cs !! p = Some c ->
  z < pattern_size mesh (domain c) ->
  stacked_rows mesh reps children_eval cs
    !! (r * pattern_size mesh (concat (map domain cs))
        + (pattern_size mesh (concat (map domain (take p cs))) + z))
  = cv !! (r * pattern_size mesh (domain c) + z).
Proof.
  intros Hfit Hr Hcv Hc Hz. unfold stacked_rows.
  assert (Hcvlen : child_size mesh reps c <= length cv)
    by apply (Forall2_lookup_lr _ _ _ _ _ _ Hfit Hcv Hc).
  assert (Hblock : zip_with (repeat_rows mesh r) children_eval cs !! p
                   = Some (repeat_rows mesh r cv c)).
  { apply lookup_zip_with_Some. by exists cv, c. }
  assert (Hoff : pattern_size mesh (concat (map domain (take p cs)))
                 + pattern_size mesh (domain c)
                 <= pattern_size mesh (concat (map domain cs))).
  { rewrite <- (take_drop_middle cs p c Hc) at 2.
    rewrite map_app, concat_app, pattern_size_app. cbn [map concat].
    rewrite pattern_size_app. lia. }
  rewrite lookup_flat_map_rows
    with (n := pattern_size mesh (concat (map domain cs)));
    [|intros i Hi; apply row_blocks_length; [lia|done]|done|lia].
  cbn [Nat.add]. rewrite <- (row_blocks_take r children_eval cs p Hr Hfit).
  rewrite (lookup_concat_block _ p (repeat_rows mesh r cv c) z Hblock)
    by (by rewrite repeat_rows_length).
  unfold repeat_rows. rewrite np_getitem_lookup. cbn [start stop].
  by rewrite decide_True by lia.
Qed.
End stacked.

(** ** The evaluated vector, row by row *)

(** Evaluation runs through, and afterwards every target slice holds the
    rows that were requested for it. *)
Lemma evaluate_runs {A : Type} (np_empty : nat -> list A)
    (args : list PyObject) (mesh : Mesh) (dc : DomainConcatenation)
    (children_eval : list (list A)) :
  (forall n, length (np_empty n) = n) ->
  DomainConcatenation_init args mesh None = Ok dc ->
  Forall2 (fun cv c =>
             child_size mesh (secondary_dimensions_npts dc) c <= length cv)
          children_eval (children (node dc)) ->
  exists vector,
    _concatenation_evaluate np_empty dc children_eval = Ok vector
    /\ length vector = _size dc
    /\ (forall dom i value t,
          (dom, i, value)
            ∈ flat_map child_requests
                (zip children_eval (_children_slices dc)) ->
          dd_get (_slices dc) dom !! i = Some t ->
          np_getitem vector t = value).
Proof.
  intros Hempty Hinit Hlen.
  destruct (DomainConcatenation_init_domain _ _ _ Hinit)
    as (_ & Hdoms & _ & _ & Hpw).
  pose proof Hinit as Hinv. apply DomainConcatenation_init_inv in Hinv
    as (c0 & rest & last_dom & last_slice & _ & _ & _ & _ & _ & Hsl & Hcs
        & Hld & Hls & Hsize).
  rewrite Hsl in Hls.
  destruct (slice_table_last _ _ _ _ _ Hld Hls) as [Hpos Hstop].
  set (reps := secondary_dimensions_npts dc) in *.
  set (cs := children (node dc)) in *.
  assert (Hitem : forall p cv T,
            children_eval !! p = Some cv -> _children_slices dc !! p = Some T ->
            exists c, cs !! p = Some c
                      /\ T = slice_table mesh (domain c) reps
                      /\ child_size mesh reps c <= length cv).
  { intros p cv T Hcv HT. rewrite Hcs, list_lookup_fmap in HT.
    destruct (cs !! p) as [c|] eqn:Hc; [|done]. injection HT as <-.
    exists c. split; [done|]. split; [done|].
    by apply (Forall2_lookup_lr _ _ _ _ _ _ Hlen Hcv Hc). }
  assert (Hreq : forall dom i value,
            (dom, i, value)
              ∈ flat_map child_requests (zip children_eval (_children_slices dc)) ->
            exists p cv T, children_eval !! p = Some cv
                           /\ _children_slices dc !! p = Some T
                           /\ (dom, i, value) ∈ child_requests (cv, T)).
  { intros dom i value Hin.
    apply list_elem_of_In, in_flat_map in Hin as ([cv T] & Hitm & Hin).
    apply list_elem_of_In, list_elem_of_lookup in Hitm as [p Hp].
    apply lookup_zip_with_Some in Hp as (a & b & [= <- <-] & Ha & Hb).
    exists p, cv, T. split; [done|]. split; [done|]. by apply list_elem_of_In. }
  destruct (write_requests_ok (_slices dc) (_size dc)
              (flat_map child_requests (zip children_eval (_children_slices dc)))
              (np_empty (_size dc))) as (vector & Hrun & Hvlen & Hset & _).
  - apply Hempty.
  - intros dom i value Hin.
    destruct (Hreq _ _ _ Hin) as (p & cv & T & Hcv & HT & Hin').
    destruct (Hitem _ _ _ Hcv HT) as (c & Hc & -> & Hcvlen).
    destruct (child_request_target mesh reps cs p c cv dom i value Hpw Hc
                Hcvlen Hin') as (t & Ht & Hle & Hb & Hv).
    exists t. rewrite Hsl, Hdoms. split; [done|]. split; [done|].
    split; [|done]. rewrite Hsize, Hstop, Hdoms. done.
  - apply requests_NoDup.
    + intros [cv T] Hin. apply list_elem_of_lookup in Hin as [p Hp].
      apply lookup_zip_with_Some in Hp as (a & b & [= <- <-] & Ha & Hb).
      destruct (Hitem _ _ _ Ha Hb) as (c & _ & -> & _).
      apply slice_table_NoDup.
    + intros p q [cv T] [cv' T'] k Hpq Hp Hq Hk Hk'.
      apply lookup_zip_with_Some in Hp as (a & b & [= <- <-] & Ha & Hb).
      apply lookup_zip_with_Some in Hq as (a' & b' & [= <- <-] & Ha' & Hb').
      destruct (Hitem _ _ _ Ha Hb) as (c & Hc & -> & _).
      destruct (Hitem _ _ _ Ha' Hb') as (c' & Hc' & -> & _).
      simpl in Hk, Hk'.
      apply slice_table_elem in Hk as [_ Hk], Hk' as [_ Hk'].
      apply (Hpw p q (domain c) (domain c') Hpq) with k; try done.
      * by rewrite list_lookup_fmap, Hc.
      * by rewrite list_lookup_fmap, Hc'.
  - intros dom i t dom' i' t'. rewrite Hsl. apply table_separated.
  - exists vector. split; [by rewrite evaluate_as_requests|]. done.
Qed.

(** A name of child [p] does not occur in the domains of the children
    before it. *)
Lemma occurrences_before_child dom cs p c :
  pairwise_disjoint (map domain cs) -> cs !! p = Some c -> dom ∈ domain c ->
  occurrences dom (concat (take p (map domain cs))) = 0.
Proof.
  intros Hpw Hc Hdom. apply occurrences_concat_zero. intros b Hb Hin.
  apply list_elem_of_lookup in Hb as [q Hq].
  pose proof (lookup_lt_Some _ _ _ Hq) as Hqp. rewrite length_take in Hqp.
  rewrite lookup_take_lt in Hq by lia.
  apply (Hpw q p b (domain c)) with dom; try done; [lia|].
  by rewrite list_lookup_fmap, Hc.
Qed.

Lemma evaluate_stacked {A : Type} (np_empty : nat -> list A)
    (args : list PyObject) (mesh : Mesh) (dc : DomainConcatenation)
    (children_eval : list (list A)) :
  (forall n, length (np_empty n) = n) ->
  DomainConcatenation_init args mesh None = Ok dc ->
  Forall2 (fun cv c =>
             child_size mesh (secondary_dimensions_npts dc) c <= length cv)
          children_eval (children (node dc)) ->
  _concatenation_evaluate np_empty dc children_eval
  = Ok (stacked_rows mesh (secondary_dimensions_npts dc) children_eval
          (children (node dc))).
Proof.
  intros Hempty Hinit Hfit.
  destruct (evaluate_runs np_empty args mesh dc children_eval Hempty Hinit Hfit)
    as (vector & Hrun & Hvlen & Hset).
  rewrite Hrun. f_equal.
  destruct (DomainConcatenation_init_domain _ _ _ Hinit)
    as (_ & Hdoms & _ & _ & Hpw).
  pose proof Hinit as Hinv. apply DomainConcatenation_init_inv in Hinv
    as (c0 & rest & last_dom & last_slice & _ & _ & _ & _ & _ & Hsl & Hcs
        & Hld & Hls & Hsize).
  rewrite Hsl in Hls.
  destruct (slice_table_last _ _ _ _ _ Hld Hls) as [Hpos Hstop].
  rewrite Hdoms in Hsl, Hstop. clear Hld Hls Hdoms.
  remember (secondary_dimensions_npts dc) as reps eqn:Ereps.
  remember (children (node dc)) as cs eqn:Ecs.
  remember (concat (map domain cs)) as D eqn:ED.
  remember (pattern_size mesh D) as period eqn:Eperiod.
  assert (Hsz : _size dc = reps * period) by (by rewrite Hsize, Hstop).
  pose proof (stacked_rows_length mesh reps children_eval cs Hfit) as Hslen.
  rewrite <- ED, <- Eperiod in Hslen.
  apply list_eq. intros x.
  destruct (decide (x < reps * period)) as [Hx|Hx].
  2:{ rewrite !lookup_ge_None_2; [done|lia|lia]. }
  assert (Hperiod : 0 < period) by (destruct period; [lia|lia]).
  remember (x / period) as r eqn:Er. remember (x mod period) as y eqn:Ey.
  assert (Hxy : x = r * period + y).
  { subst r y. rewrite (Nat.div_mod_eq x period) at 1. lia. }
  assert (Hy : y < period) by (subst y; apply Nat.mod_upper_bound; lia).
  assert (Hr : r < reps).
  { subst r. apply Nat.Div0.div_lt_upper_bound. lia. }
  clear Er Ey. rewrite Eperiod in Hy.
  destruct (pattern_size_cover mesh D y Hy) as (j & dom & Hj & Hj1 & Hj2).
  pose proof Hj as HjD. rewrite ED in Hj.
  destruct (lookup_concat_inv _ _ _ Hj)
    as (p & Dc & j' & Hp & Hj' & Hjj & Htake & HtakeS).
  rewrite <- ED in Htake, HtakeS.
  rewrite list_lookup_fmap in Hp.
  destruct (cs !! p) as [c|] eqn:Hc; [|done]. injection Hp as <-.
  destruct (Forall2_lookup_r _ _ _ _ _ Hfit Hc) as (cv & Hcv & Hcvlen).
  assert (Hdom : dom ∈ domain c) by (by eapply list_elem_of_lookup_2).
  (* the composite's slice and the child's slice *)
  pose proof (slice_table_repeat mesh D reps r j dom Hr HjD) as Ht.
  pose proof (slice_table_repeat mesh (domain c) reps r j' dom Hr Hj') as Hs.
  assert (Hocc : occurrences dom D = occurrences dom (domain c)).
  { rewrite ED. by apply (occurrences_own_child dom cs p c). }
  assert (Hocc' : occurrences dom (take j D)
                  = occurrences dom (take j' (domain c))).
  { rewrite Htake, occurrences_app.
    by rewrite (occurrences_before_child dom cs p c). }
  assert (Hps : pattern_size mesh (take j D)
                = pattern_size mesh (concat (map domain (take p cs)))
                  + pattern_size mesh (take j' (domain c))
                /\ pattern_size mesh (take (S j) D)
                   = pattern_size mesh (concat (map domain (take p cs)))
                     + pattern_size mesh (take (S j') (domain c))).
  { rewrite Htake, HtakeS. by rewrite !pattern_size_app, !fmap_take. }
  destruct Hps as [Hps HpsS]. rewrite Hocc, Hocc', <- Eperiod in Ht.
  assert (Hreq : (dom, r * occurrences dom (domain c)
                       + occurrences dom (take j' (domain c)),
                  np_getitem cv
                    (Slice (r * pattern_size mesh (domain c)
                            + pattern_size mesh (take j' (domain c)))
                           (r * pattern_size mesh (domain c)
                            + pattern_size mesh (take (S j') (domain c)))))
                   ∈ flat_map child_requests
                       (zip children_eval (_children_slices dc))).
  { apply list_elem_of_In, in_flat_map.
    exists (cv, slice_table mesh (domain c) reps). split.
    - apply list_elem_of_In, list_elem_of_lookup. exists p.
      apply lookup_zip_with_Some.
      exists cv, (slice_table mesh (domain c) reps).
      split; [done|]. split; [done|].
      by rewrite Hcs, list_lookup_fmap, Hc.
    - apply list_elem_of_In, elem_of_child_requests.
      exists (dd_get (slice_table mesh (domain c) reps) dom). eexists.
      split; [by eapply dd_get_nonempty_elem|]. done. }
  rewrite <- Hsl in Ht. pose proof (Hset dom _ _ _ Hreq Ht) as Hrows.
  pose proof (pattern_size_take_all mesh (domain c) (S j')) as Hin.
  pose proof (f_equal (fun l => l !! (y - pattern_size mesh (take j D))) Hrows)
    as Hrow.
  cbn beta in Hrow. rewrite !np_getitem_lookup in Hrow.
  cbn [start stop] in Hrow.
  rewrite !decide_True in Hrow by lia.
  replace (r * period + pattern_size mesh (take j D)
           + (y - pattern_size mesh (take j D))) with x in Hrow by lia.
  rewrite Hrow. symmetry.
  replace x with (r * pattern_size mesh (concat (map domain cs))
                  + (pattern_size mesh (concat (map domain (take p cs)))
                     + (pattern_size mesh (take j' (domain c))
                        + (y - pattern_size mesh (take j D))))).
  2:{ rewrite <- ED, <- Eperiod. lia. }
  rewrite (stacked_rows_lookup mesh reps children_eval cs r p cv c);
    [|done|done|done|done|lia].
  f_equal. lia.
Qed.

Lemma map_result_Forall2 {A B} (f : A -> result B) xs ys :
  Forall2 (fun y x => f x = Ok y) ys xs -> map_result f xs = Ok ys.
Proof.
  induction 1 as [|y x ys xs Hx _ IH]; [done|]. simpl. by rewrite Hx, IH.
Qed.

(** X14: evaluating a domain concatenation built from children and a mesh
    evaluates the children in order and returns the vector that stacks,
    repeat by repeat and within a repeat child by child, the rows of that
    repeat in the child's vector (each child's vector holding the rows of
    all repeats); the vector has [_size] rows. *)
Theorem X14_evaluation_stacks_repeat_rows {A : Type} (np_empty : nat -> list A)
    (evaluate_child : Symbol -> result (list A))
    (args : list PyObject) (mesh : Mesh) (dc : DomainConcatenation)
    (children_eval : list (list A)) :
  (forall n, length (np_empty n) = n) ->
  DomainConcatenation_init args mesh None = Ok dc ->
  Forall2 (fun cv c =>
             evaluate_child c = Ok cv
             /\ child_size mesh (secondary_dimensions_npts dc) c <= length cv)
          children_eval (children (node dc)) ->
  evaluate np_empty evaluate_child dc
  = Ok (stacked_rows mesh (secondary_dimensions_npts dc) children_eval
          (children (node dc)))
  /\ length (stacked_rows mesh (secondary_dimensions_npts dc) children_eval
               (children (node dc))) = _size dc.
Proof.
  intros Hempty Hinit Hall.
  assert (Hfit : Forall2 (fun cv c =>
                   child_size mesh (secondary_dimensions_npts dc) c <= length cv)
                   children_eval (children (node dc))).
  { eapply Forall2_impl; [exact Hall|]. by intros cv c [_ Hc]. }
  assert (Hev : map_result evaluate_child (children (node dc))
                = Ok children_eval).
  { apply map_result_Forall2. eapply Forall2_impl; [exact Hall|].
    by intros cv c [Hc _]. }
  pose proof (evaluate_stacked np_empty args mesh dc children_eval Hempty Hinit
                Hfit) as Hrun.
  split.
  - unfold evaluate. rewrite Hev. exact Hrun.
  - by eapply (_concatenation_evaluate_length np_empty).
Qed.

(** Two children over a two-point auxiliary level: the rows of the first
    repeat of both children come before those of the second. *)
Lemma X14_witness :
  match DomainConcatenation_init
          [PySymbol (example_symbol "c_n" ["negative electrode"]
                       ["current collector"]);
           PySymbol (example_symbol "c_s" ["separator"]
                       ["current collector"])]
          example_mesh None with
  | Ok dc =>
      evaluate (fun n => replicate n 0)
        (fun c => if String.eqb (name c) "c_n"
                  then Ok [1; 2; 3; 4; 5; 6; 7; 8; 9; 10]
                  else Ok [11; 12; 13; 14; 15; 16]) dc
      = Ok [1; 2; 3; 4; 5; 11; 12; 13; 6; 7; 8; 9; 10; 14; 15; 16]
  | Raise _ => False
  end.
Proof.
  pose proof (@X14_evaluation_stacks_repeat_rows nat (fun n => replicate n 0)
                (fun c => if String.eqb (name c) "c_n"
                          then Ok [1; 2; 3; 4; 5; 6; 7; 8; 9; 10]
                          else Ok [11; 12; 13; 14; 15; 16])
                [PySymbol (example_symbol "c_n" ["negative electrode"]
                             ["current collector"]);
                 PySymbol (example_symbol "c_s" ["separator"]
                             ["current collector"])]
                example_mesh) as H.
  destruct (DomainConcatenation_init _ example_mesh None) as [dc|e] eqn:E;
    [|vm_compute in E; discriminate].
  specialize (H dc [[1; 2; 3; 4; 5; 6; 7; 8; 9; 10]; [11; 12; 13; 14; 15; 16]]
                (fun n => length_replicate n 0) eq_refl).
  vm_compute in E. injection E as <-.
  destruct H as [Hrun _].
  { repeat constructor; vm_compute; lia. }
  exact Hrun.
Defined.

(** X15: with a single repeat (no auxiliary level, or one mesh point along
    each) and children's vectors that have exactly the rows of their
    domains, a domain concatenation evaluates to what the base class
    computes with [np.concatenate], that is to what a numpy concatenation
    of the same children evaluates to: the children's vectors one after
    the other. *)
Theorem X15_single_repeat_is_numpy_concatenation {A : Type}
    (np_empty : nat -> list A)
    (args : list PyObject) (mesh : Mesh) (dc : DomainConcatenation)
    (children_eval : list (list A)) :
  (forall n, length (np_empty n) = n) ->
  DomainConcatenation_init args mesh None = Ok dc ->
  secondary_dimensions_npts dc = 1 ->
  Forall2 (fun cv c => length cv = pattern_size mesh (domain c))
          children_eval (children (node dc)) ->
  _concatenation_evaluate np_empty dc children_eval
  = Concatenation_concatenation_evaluate np_concatenate children_eval
  /\ _concatenation_evaluate np_empty dc children_eval
     = Ok (concat children_eval).
Proof.
  intros Hempty Hinit Hone Hexact.
  assert (Hfit : Forall2 (fun cv c =>
                   child_size mesh (secondary_dimensions_npts dc) c <= length cv)
                   children_eval (children (node dc))).
  { eapply Forall2_impl; [exact Hexact|]. intros cv c Hc.
    unfold child_size. rewrite Hone. cbn beta in Hc. lia. }
  rewrite (evaluate_stacked np_empty args mesh dc children_eval Hempty Hinit
             Hfit).
  rewrite Hone. unfold stacked_rows. cbn [seq flat_map]. rewrite app_nil_r.
  assert (Hrows : zip_with (repeat_rows mesh 0) children_eval
                    (children (node dc)) = children_eval).
  { clear -Hexact. induction Hexact as [|cv c cvs cs Hc _ IH]; [done|].
    cbn [zip_with]. rewrite IH. f_equal.
    unfold repeat_rows, np_getitem. cbn [start stop Nat.mul Nat.add].
    rewrite drop_0. apply take_ge. lia. }
  rewrite Hrows. split; [|done].
  unfold Concatenation_concatenation_evaluate, np_concatenate.
  destruct (DomainConcatenation_init_inv _ _ _ Hinit)
    as (c0 & rest & _ & _ & _ & Hch & _).
  rewrite Hch in Hexact. inversion Hexact; subst. done.
Qed.

(** Without auxiliary level the children's vectors follow one another. *)
Lemma X15_witness :
  match DomainConcatenation_init
          [PySymbol (example_symbol "c_n" ["negative electrode"] []);
           PySymbol (example_symbol "c_s" ["separator"] [])]
          example_mesh None with
  | Ok dc =>
      _concatenation_evaluate (fun n => replicate n 0) dc
        [[1; 2; 3; 4; 5]; [6; 7; 8]]
      = Ok [1; 2; 3; 4; 5; 6; 7; 8]
  | Raise _ => False
  end.
Proof.
  pose proof (@X15_single_repeat_is_numpy_concatenation nat
                (fun n => replicate n 0)
                [PySymbol (example_symbol "c_n" ["negative electrode"] []);
                 PySymbol (example_symbol "c_s" ["separator"] [])]
                example_mesh) as H.
  destruct (DomainConcatenation_init _ example_mesh None) as [dc|e] eqn:E;
    [|vm_compute in E; discriminate].
  specialize (H dc [[1; 2; 3; 4; 5]; [6; 7; 8]]
                (fun n => length_replicate n 0) eq_refl).
  vm_compute in E. injection E as <-.
  destruct H as [_ Hrun]; [reflexivity|repeat constructor|].
  exact Hrun.
Defined.

(** ** Printing a concatenation *)

Lemma substring_shorter a b n :
  n <= String.length a ->
  substring 0 n (String.append a b) = substring 0 n a.
Proof.
  revert n. induction a as [|c a IH]; intros n Hn; simpl in Hn.
  - assert (n = 0) as -> by lia. by destruct b.
  - destruct n as [|n]; [done|].
    change (String c (substring 0 n (String.append a b))
            = String c (substring 0 n a)).
    rewrite IH by lia. done.
Qed.

Lemma fold_left_append (str : Symbol -> string) cs out :
  fold_left (fun out child =>
               String.append out (String.append (str child) ", ")) cs out
  = String.append out
      (fold_right (fun child rest =>
                     String.append (String.append (str child) ", ") rest)
                  EmptyString cs).
Proof.
  revert out. induction cs as [|c cs IH]; intros out; simpl.
  - by rewrite append_nil_r.
  - by rewrite IH, <- append_assoc.
Qed.

Lemma joined_with_trailing_separator (str : Symbol -> string) c cs :
  fold_right (fun child rest =>
                String.append (String.append (str child) ", ") rest)
             EmptyString (c :: cs)
  = String.append (String.concat ", " (map str (c :: cs))) ", ".
Proof.
  revert c. induction cs as [|c' cs IH]; intros c.
  - simpl. by rewrite append_nil_r.
  - change (String.append (String.append (str c) ", ")
              (fold_right (fun child rest =>
                             String.append (String.append (str child) ", ") rest)
                          EmptyString (c' :: cs))
            = String.append
                (String.append (str c)
                   (String.append ", "
                      (String.concat ", " (map str (c' :: cs))))) ", ").
    rewrite IH. by rewrite !append_assoc.
Qed.

(** X16: a concatenation with children prints as its name followed by the
    children's strings, separated by ", " and enclosed in parentheses; one
    without children loses the opening parenthesis and the last character
    of its name to the slice that removes the trailing separator, and
    prints as the rest of the name followed by ")". *)
Theorem X16_str_lists_the_children :
  forall (str : Symbol -> string) (self : Symbol),
    (children self <> [] ->
     __str__ str self
     = String.append (name self)
         (String.append "("
            (String.append (String.concat ", " (map str (children self)))
               ")")))
    /\ (children self = [] ->
        __str__ str self
        = String.append
            (substring 0 (String.length (name self) - 1) (name self)) ")").
Proof.
  intros str self. unfold __str__. split.
  - intros Hne. destruct (children self) as [|c cs]; [done|].
    rewrite fold_left_append, joined_with_trailing_separator.
    rewrite !append_assoc.
    set (body := String.append (String.append (name self) "(")
                   (String.concat ", " (map str (c :: cs)))).
    rewrite append_length. cbn [String.length].
    replace (String.length body + 2 - 2) with (String.length body) by lia.
    by rewrite substring_prefix.
  - intros ->. cbn [fold_left]. rewrite append_length. cbn [String.length].
    replace (String.length (name self) + 1 - 2)
      with (String.length (name self) - 1) by lia.
    rewrite substring_shorter by lia. done.
Qed.

(** ** The Jacobian's blocks and the evaluated vector *)

(** X17: for children with one domain each, whose vectors hold the rows of
    all repeats (each vector has at least repeat count times the mesh
    points of its child's domain rows), the Jacobian and the evaluation
    follow the same stacking rule: the Jacobian is the stack of blocks
    [Index(child, slice)], and the evaluated vector consists of the rows
    these blocks select in the children's vectors, block after block. *)
Theorem X17_evaluation_follows_jacobian_blocks {A : Type}
    (np_empty : nat -> list A)
    (args : list PyObject) (mesh : Mesh) (dc : DomainConcatenation)
    (children_eval : list (list A)) :
  (forall n, length (np_empty n) = n) ->
  DomainConcatenation_init args mesh None = Ok dc ->
  (forall c, c ∈ children (node dc) -> exists d, domain c = [d]) ->
  Forall2 (fun cv c =>
             child_size mesh (secondary_dimensions_npts dc) c <= length cv)
          children_eval (children (node dc)) ->
  exists blocks,
    _concatenation_jac dc children_eval = Ok (SparseStack blocks)
    /\ _concatenation_evaluate np_empty dc children_eval
       = Ok (flat_map block_rows blocks)
    /\ length blocks
       = secondary_dimensions_npts dc * length (children (node dc)).
Proof.
  intros Hempty Hinit Hone Hfit.
  exists (jacobian_blocks mesh (secondary_dimensions_npts dc) children_eval
            (children (node dc))).
  pose proof (evaluate_stacked np_empty args mesh dc children_eval Hempty Hinit
                Hfit) as Hrun.
  pose proof (Forall2_length _ _ _ Hfit) as Hlen.
  apply DomainConcatenation_init_inv in Hinit
    as (c0 & rest & _ & _ & _ & _ & _ & _ & _ & _ & Hcs & _).
  remember (secondary_dimensions_npts dc) as reps eqn:Ereps.
  set (cs := children (node dc)) in *. clearbody cs.
  split; [|split].
  - unfold _concatenation_jac. rewrite Hcs, <- Ereps.
    rewrite jac_repeats_single by (lia || done). done.
  - rewrite Hrun. f_equal. unfold stacked_rows, jacobian_blocks.
    clear. induction (seq 0 reps) as [|r rs IH]; [done|].
    cbn [flat_map]. rewrite flat_map_app, IH. f_equal.
    clear. revert cs. induction children_eval as [|cv cvs IH]; intros [|c cs];
      try done.
    cbn [zip_with concat flat_map]. by rewrite IH.
  - unfold jacobian_blocks. clear -Hlen.
    induction reps as [|r IH]; [done|].
    rewrite seq_S, flat_map_app, length_app, IH. simpl.
    rewrite app_nil_r, length_zip_with. lia.
Qed.

(** Two children over a two-point auxiliary level: four blocks. *)
Lemma X17_witness :
  match DomainConcatenation_init
          [PySymbol (example_symbol "c_n" ["negative electrode"]
                       ["current collector"]);
           PySymbol (example_symbol "c_s" ["separator"]
                       ["current collector"])]
          example_mesh None with
  | Ok dc =>
      exists blocks,
        _concatenation_jac dc
          [[1; 2; 3; 4; 5; 6; 7; 8; 9; 10]; [11; 12; 13; 14; 15; 16]]
        = Ok (SparseStack blocks)
        /\ _concatenation_evaluate (fun n => replicate n 0) dc
             [[1; 2; 3; 4; 5; 6; 7; 8; 9; 10]; [11; 12; 13; 14; 15; 16]]
           = Ok (flat_map block_rows blocks)
        /\ length blocks = 4
  | Raise _ => False
  end.
Proof.
  pose proof (@X17_evaluation_follows_jacobian_blocks nat
                (fun n => replicate n 0)
                [PySymbol (example_symbol "c_n" ["negative electrode"]
                             ["current collector"]);
                 PySymbol (example_symbol "c_s" ["separator"]
                             ["current collector"])]
                example_mesh) as H.
  destruct (DomainConcatenation_init _ example_mesh None) as [dc|e] eqn:E;
    [|vm_compute in E; discriminate].
  specialize (H dc [[1; 2; 3; 4; 5; 6; 7; 8; 9; 10]; [11; 12; 13; 14; 15; 16]]
                (fun n => length_replicate n 0) eq_refl).
  vm_compute in E. injection E as <-.
  apply H.
  - intros c Hc. apply list_elem_of_In in Hc. simpl in Hc.
    destruct Hc as [<-|[<-|[]]]; eexists; reflexivity.
  - repeat constructor; vm_compute; lia.
Defined.

(** ** The pressure variables *)

Lemma dict_setitem_fresh {V} (d : list (string * V)) key (value : V) :
  key ∉ map fst d -> dict_setitem d key value = d ++ [(key, value)].
Proof.
  induction d as [|[k v] d IH]; intros Hfresh; simpl; [done|].
  simpl in Hfresh. apply not_elem_of_cons in Hfresh as [Hk Hd].
  destruct (String.eqb k key) eqn:E.
  - apply String.eqb_eq in E. congruence.
  - by rewrite IH.
Qed.

Lemma fill_p_dict_values variables domains values p_dict :
  NoDup (map fst p_dict ++ domains) ->
  Forall2 (fun d v => dict_getitem variables
                        (String.append (str_capitalize d) " pressure")
                      = Some v) domains values ->
  fill_p_dict variables domains p_dict
  = Returned (p_dict ++ zip domains values).
Proof.
  intros Hnd Hall. revert p_dict Hnd.
  induction Hall as [|d v ds vs Hd _ IH]; intros p_dict Hnd; simpl.
  - by rewrite app_nil_r.
  - rewrite Hd. apply NoDup_app in Hnd as (Hnd1 & Hdis & Hnd2).
    apply NoDup_cons in Hnd2 as [Hfresh Hnd2].
    rewrite dict_setitem_fresh.
    2:{ intros Hin. apply (Hdis d Hin). left. }
    rewrite IH.
    + by rewrite <- app_assoc.
    + rewrite map_app. simpl. rewrite <- app_assoc. simpl.
      apply NoDup_app. split; [done|]. split; [|by constructor].
      intros x Hx1 Hx2. by apply (Hdis x Hx1).
Qed.

Lemma fill_p_dict_missing variables seen d rest p_dict :
  Forall (fun d' => is_Some (dict_getitem variables
                               (String.append (str_capitalize d') " pressure")))
         seen ->
  dict_getitem variables (String.append (str_capitalize d) " pressure") = None ->
  fill_p_dict variables (seen ++ d :: rest) p_dict
  = KeyError (String.append (str_capitalize d) " pressure").
Proof.
  intros Hseen Hd. revert p_dict.
  induction Hseen as [|d' seen [v Hv] _ IH]; intros p_dict; simpl.
  - by rewrite Hd.
  - rewrite Hv. apply IH.
Qed.

(** X18: the convection submodel's "Pressure" variable is the
    [concatenation] of the variables "<Domain> pressure" of the whole-cell
    domains, in the order of the domains (an exception of the concatenation
    is passed on); when the variable of a domain is missing, the call fails
    with the KeyError of the first missing name, before anything is
    concatenated. *)
Theorem X18_pressure_concatenates_the_domains `{Pybamm} :
  forall (whole_cell_domains : list string)
         (variables : list (string * PyObject)),
    (forall values,
       NoDup whole_cell_domains ->
       Forall2 (fun d v => dict_getitem variables
                             (String.append (str_capitalize d) " pressure")
                           = Some v) whole_cell_domains values ->
       _get_standard_whole_cell_pressure_variables whole_cell_domains variables
       = match concatenation values with
         | Ok p => Returned [("Pressure", p)]
         | Raise e => Raised e
         end)
    /\ (forall seen d rest,
          whole_cell_domains = seen ++ d :: rest ->
          Forall (fun d' => is_Some (dict_getitem variables
                                       (String.append (str_capitalize d')
                                          " pressure"))) seen ->
          dict_getitem variables
            (String.append (str_capitalize d) " pressure") = None ->
          _get_standard_whole_cell_pressure_variables whole_cell_domains
            variables
          = KeyError (String.append (str_capitalize d) " pressure")).
Proof.
  intros whole_cell_domains variables. split.
  - intros values Hnd Hall. unfold _get_standard_whole_cell_pressure_variables.
    rewrite (fill_p_dict_values variables whole_cell_domains values [])
      by done.
    cbn [app]. rewrite snd_zip; [done|].
    apply Forall2_length in Hall. lia.
  - intros seen d rest -> Hseen Hd.
    unfold _get_standard_whole_cell_pressure_variables.
    by rewrite (fill_p_dict_missing variables seen d rest []).
Qed.

(** A half cell with both pressures, and with the positive electrode's
    pressure missing. *)
Lemma X18_witness :
  @_get_standard_whole_cell_pressure_variables plain_pybamm
    ["separator"; "positive electrode"]
    [("Separator pressure", PySymbol (example_symbol "p_s" ["separator"] []));
     ("Positive electrode pressure",
      PySymbol (example_symbol "p_p" ["positive electrode"] []))]
  = Returned
      [("Pressure",
        PySymbol (mkSymbol ClsConcatenation "concatenation"
                    [example_symbol "p_s" ["separator"] [];
                     example_symbol "p_p" ["positive electrode"] []]
                    (mkDomains ["separator"; "positive electrode"] [] [] [])
                    NoAttrs))]
  /\ @_get_standard_whole_cell_pressure_variables plain_pybamm
       ["separator"; "positive electrode"]
       [("Separator pressure",
         PySymbol (example_symbol "p_s" ["separator"] []))]
     = KeyError "Positive electrode pressure".
Proof.
  split.
  - apply (proj1 (@X18_pressure_concatenates_the_domains plain_pybamm
                    ["separator"; "positive electrode"] _)
             [PySymbol (example_symbol "p_s" ["separator"] []);
              PySymbol (example_symbol "p_p" ["positive electrode"] [])]).
    + apply NoDup_cons. split; [|apply NoDup_singleton].
      intros Hin. apply list_elem_of_singleton in Hin. discriminate.
    + repeat constructor.
  - apply (proj2 (@X18_pressure_concatenates_the_domains plain_pybamm
                    ["separator"; "positive electrode"] _)
             ["separator"] "positive electrode" []);
      [reflexivity|repeat constructor; by eexists|reflexivity].
Defined.

(** ** The shape of a domain concatenation *)

Lemma length_concat_sizes {A} mesh reps (cvs : list (list A)) cs :
  Forall2 (fun cv c => length cv = child_size mesh reps c) cvs cs ->
  length (concat cvs) = reps * pattern_size mesh (concat (map domain cs)).
Proof.
  induction 1 as [|cv c cvs cs Hc _ IH]; simpl; [lia|].
  rewrite length_app, pattern_size_app, IH, Hc. unfold child_size. lia.
Qed.

(** X19: the vector a domain concatenation evaluates to for its shape (the
    children's shape vectors one after the other, since the node stores no
    concatenation function) has as many rows as the vector it evaluates
    to, namely [_size], when every child's vector has the rows of all
    repeats of the child's domains. *)
Theorem X19_shape_has_total_size {A : Type}
    (evaluate_for_shape : Symbol -> result (list A))
    (args : list PyObject) (mesh : Mesh) (dc : DomainConcatenation)
    (children_eval : list (list A)) :
  DomainConcatenation_init args mesh None = Ok dc ->
  Forall2 (fun cv c =>
             evaluate_for_shape c = Ok cv
             /\ length cv = child_size mesh (secondary_dimensions_npts dc) c)
          children_eval (children (node dc)) ->
  _evaluate_for_shape None evaluate_for_shape (node dc)
  = Ok (concat children_eval)
  /\ length (concat children_eval) = _size dc.
Proof.
  intros Hinit Hall.
  assert (Hev : map_result evaluate_for_shape (children (node dc))
                = Ok children_eval).
  { apply map_result_Forall2. eapply Forall2_impl; [exact Hall|].
    by intros cv c [Hc _]. }
  assert (Hsizes : Forall2 (fun cv c =>
                     length cv
                     = child_size mesh (secondary_dimensions_npts dc) c)
                     children_eval (children (node dc))).
  { eapply Forall2_impl; [exact Hall|]. by intros cv c [_ Hc]. }
  destruct (DomainConcatenation_init_domain _ _ _ Hinit) as (_ & Hdoms & _).
  pose proof Hinit as Hinv. apply DomainConcatenation_init_inv in Hinv
    as (c0 & rest & last_dom & last_slice & _ & Hch & _ & _ & _ & Hsl & _
        & Hld & Hls & Hsize).
  rewrite Hsl in Hls.
  destruct (slice_table_last _ _ _ _ _ Hld Hls) as [_ Hstop].
  split.
  - unfold _evaluate_for_shape. rewrite Hev, Hch. cbn [length Nat.eqb bind].
    cbn [default]. rewrite Hch in Hsizes. inversion Hsizes; subst. done.
  - rewrite (length_concat_sizes mesh _ _ _ Hsizes).
    by rewrite Hsize, Hstop, Hdoms.
Qed.

(** Two children over a two-point auxiliary level: 10 + 6 rows. *)
Lemma X19_witness :
  match DomainConcatenation_init
          [PySymbol (example_symbol "c_n" ["negative electrode"]
                       ["current collector"]);
           PySymbol (example_symbol "c_s" ["separator"]
                       ["current collector"])]
          example_mesh None with
  | Ok dc =>
      _evaluate_for_shape None
        (fun c => if String.eqb (name c) "c_n"
                  then Ok (replicate 10 0) else Ok (replicate 6 0)) (node dc)
      = Ok (replicate 16 0)
      /\ _size dc = 16
  | Raise _ => False
  end.
Proof.
  pose proof (@X19_shape_has_total_size nat
                (fun c => if String.eqb (name c) "c_n"
                          then Ok (replicate 10 0) else Ok (replicate 6 0))
                [PySymbol (example_symbol "c_n" ["negative electrode"]
                             ["current collector"]);
                 PySymbol (example_symbol "c_s" ["separator"]
                             ["current collector"])]
                example_mesh) as H.
  destruct (DomainConcatenation_init _ example_mesh None) as [dc|e] eqn:E;
    [|vm_compute in E; discriminate].
  specialize (H dc [replicate 10 0; replicate 6 0] eq_refl).
  vm_compute in E. injection E as <-.
  destruct H as [Hrun Hlen].
  { repeat constructor. }
  split; [exact Hrun|]. symmetry. exact Hlen.
Defined.

(** ** The merged name occurs in every name *)

Lemma contiguous_substring_trans x y z :
  contiguous_substring x y -> contiguous_substring y z ->
  contiguous_substring x z.
Proof.
  intros [Hx (p1 & q1 & ->)] [_ (p2 & q2 & ->)]. split; [done|].
  exists (String.append p2 p1), (String.append q1 q2).
  by rewrite !append_assoc.
Qed.

Lemma intersect_nonempty_common `{Pybamm} s1 s2 :
  intersect s1 s2 <> EmptyString ->
  contiguous_substring (intersect s1 s2) s1
  /\ contiguous_substring (intersect s1 s2) s2.
Proof.
  intros Hne.
  destruct (intersect_longest_common s1 s2)
    as [[He _]|(x & He & H1 & H2 & _)]; [done|].
  rewrite He in Hne |- *. split; by apply contiguous_substring_strip.
Qed.

Lemma merged_name_loop `{Pybamm} (vs : list Symbol) (acc raw : string) :
  for_each (fun name child => n <- sym_name child ;; Ok (intersect name n))
    (map PySymbol vs) acc = Ok raw ->
  raw <> EmptyString ->
  contiguous_substring raw acc
  /\ forall v, v ∈ vs -> contiguous_substring raw (name v).
Proof.
  revert acc. induction vs as [|v vs IH]; intros acc Hrun Hne.
  - simpl in Hrun. injection Hrun as ->. split.
    + split; [done|]. exists EmptyString, EmptyString. by rewrite append_nil_r.
    + intros v Hv. by apply elem_of_nil in Hv.
  - cbn [map for_each sym_name bind] in Hrun.
    destruct (IH _ Hrun Hne) as [Hacc Hall].
    assert (Hnn : intersect acc (name v) <> EmptyString).
    { intros He. rewrite He in Hacc. destruct Hacc as [_ (p & q & Hpq)].
      destruct p; [|discriminate]. simpl in Hpq.
      destruct raw; [done|discriminate]. }
    destruct (intersect_nonempty_common _ _ Hnn) as [H1 H2]. split.
    + by eapply contiguous_substring_trans.
    + intros v' [->|Hv']%elem_of_cons; [|by apply Hall].
      by eapply contiguous_substring_trans.
Qed.

(** X20: however many children there are, the name a [ConcatenationVariable]
    gives itself is, up to the capitalization of its first character, a
    piece that occurs verbatim in the name of every child. *)
Theorem X20_merged_name_occurs_in_every_name `{Pybamm}
    (vs : list Symbol) (nm : string) :
  merged_name (map PySymbol vs) = Ok (Some nm) ->
  exists raw,
    (forall v, v ∈ vs -> contiguous_substring raw (name v))
    /\ (nm = raw
        \/ exists c rest, raw = String c rest
                          /\ nm = String (capitalize c) rest).
Proof.
  unfold merged_name. intros Hm.
  destruct vs as [|a [|b rest]]; try discriminate.
  cbn [map py_index lookup list_lookup bind sym_name drop] in Hm.
  apply bind_Ok in Hm as (raw & Hloop & Hm).
  assert (Hne : raw <> EmptyString) by (intros ->; discriminate).
  destruct (merged_name_loop rest _ _ Hloop Hne) as [Hacc Hall].
  assert (Hnn : intersect (name a) (name b) <> EmptyString).
  { intros He. rewrite He in Hacc. destruct Hacc as [_ (p & q & Hpq)].
    destruct p; [|discriminate]. simpl in Hpq.
    destruct raw; [done|discriminate]. }
  destruct (intersect_nonempty_common _ _ Hnn) as [H1 H2].
  exists raw. split.
  - intros v [->|[->|Hv]%elem_of_cons]%elem_of_cons.
    + by eapply contiguous_substring_trans.
    + by eapply contiguous_substring_trans.
    + by apply Hall.
  - destruct raw as [|c [|c' r]]; [done| |].
    + left. by injection Hm as <-.
    + right. exists c, (String c' r). split; [done|]. by injection Hm as <-.
Qed.

(** The names c_n, c_s and c_p share the piece c_. *)
Lemma X20_witness :
  exists raw,
    (forall v, v ∈ [example_variable "c_n" ["negative electrode"];
                    example_variable "c_s" ["separator"];
                    example_variable "c_p" ["positive electrode"]] ->
       contiguous_substring raw (name v))
    /\ ("C_" = raw
        \/ exists c rest, raw = String c rest
                          /\ "C_" = String (capitalize c) rest).
Proof.
  apply (@X20_merged_name_occurs_in_every_name plain_pybamm
           [example_variable "c_n" ["negative electrode"];
            example_variable "c_s" ["separator"];
            example_variable "c_p" ["positive electrode"]] "C_").
  vm_compute. reflexivity.
Defined.

(** ** The errors of the domain validator *)

Lemma split_at_first_non_symbol (args : list PyObject) :
  (exists cs, args = map PySymbol cs)
  \/ (exists cs x rest, args = map PySymbol cs ++ x :: rest /\ not_a_symbol x).
Proof.
  induction args as [|a args IH]; [left; by exists []|].
  destruct a as [|c|].
  - right. by exists [], PyNone, args.
  - destruct IH as [[cs ->]|(cs & x & rest & -> & Hx)].
    + left. by exists (c :: cs).
    + right. by exists (c :: cs), x, rest.
  - right. by exists [], PyOther, args.
Qed.

Lemma get_children_domains_non_symbol cs x rest :
  not_a_symbol x ->
  (primary_accepted [] cs
   /\ get_children_domains (map PySymbol cs ++ x :: rest) = Raise TypeError)
  \/ (~ primary_accepted [] cs
      /\ get_children_domains (map PySymbol cs ++ x :: rest)
         = Raise DomainError).
Proof.
  intros Hx. unfold get_children_domains. rewrite for_each_app.
  destruct (combine_domain_loop cs []) as [[Hp ->]|[Hp ->]]; cbn [bind].
  - left. split; [done|]. cbn [for_each]. by destruct x.
  - right. done.
Qed.

(** X21: the domain validator fails in three ways only. It raises
    IndexError exactly for an empty list of children; TypeError exactly
    when some child is not a symbol and the children before the first such
    child have non-empty, pairwise disjoint domains; and DomainError
    otherwise. No other exception leaves it. *)
Theorem X21_validator_errors :
  forall args : list PyObject,
    (forall e, get_children_domains args = Raise e ->
       e = DomainError \/ e = TypeError \/ e = IndexError)
    /\ (get_children_domains args = Raise IndexError <-> args = [])
    /\ (get_children_domains args = Raise TypeError
        <-> exists cs x rest,
              args = map PySymbol cs ++ x :: rest /\ not_a_symbol x
              /\ primary_accepted [] cs).
Proof.
  intros args.
  destruct (split_at_first_non_symbol args)
    as [[cs ->]|(cs & x & rest & -> & Hx)].
  - assert (Hno : forall cs' y rest',
              map PySymbol cs = map PySymbol cs' ++ y :: rest' ->
              ~ not_a_symbol y).
    { intros cs' y rest' Heq Hy.
      assert (y ∈ map PySymbol cs) as Hin.
      { rewrite Heq. apply elem_of_app. right. left. }
      apply list_elem_of_fmap in Hin as (c & -> & _). done. }
    destruct cs as [|c0 rest].
    + split; [intros e [= <-]; auto|]. split; [done|].
      split; [discriminate|]. intros (cs' & y & rest' & Heq & _).
      by destruct cs'.
    + destruct (get_children_domains_cases c0 rest)
        as [(_ & _ & E)|[(_ & _ & E)|(_ & E)]]; rewrite E.
      * split; [discriminate|]. split; [done|]. split; [discriminate|].
        intros (cs' & y & rest' & Heq & Hy & _). by destruct (Hno _ _ _ Heq).
      * split; [intros e [= <-]; auto|]. split; [done|].
        split; [discriminate|].
        intros (cs' & y & rest' & Heq & Hy & _). by destruct (Hno _ _ _ Heq).
      * split; [intros e [= <-]; auto|]. split; [done|].
        split; [discriminate|].
        intros (cs' & y & rest' & Heq & Hy & _). by destruct (Hno _ _ _ Heq).
  - assert (Hsplit : forall cs' y rest',
              map PySymbol cs ++ x :: rest = map PySymbol cs' ++ y :: rest' ->
              not_a_symbol y -> cs' = cs).
    { clear -Hx. induction cs as [|c cs IH]; intros [|c' cs'] y rest' Heq Hy;
        simpl in Heq.
      - done.
      - injection Heq as -> _. done.
      - injection Heq as <- _. done.
      - injection Heq as -> Heq. f_equal. by eapply IH. }
    destruct (get_children_domains_non_symbol cs x rest Hx)
      as [[Hp E]|[Hp E]]; rewrite E.
    + split; [intros e [= <-]; auto|]. split.
      { split; [discriminate|]. by destruct cs. }
      split; [intros _|done]. by exists cs, x, rest.
    + split; [intros e [= <-]; auto|]. split.
      { split; [discriminate|]. by destruct cs. }
      split; [discriminate|].
      intros (cs' & y & rest' & Heq & Hy & Hp').
      by rewrite (Hsplit _ _ _ Heq Hy) in Hp'.
Qed.

(** ** What [concatenation] returns and raises *)

(** The base class on symbols, with the domains checked, when it does not
    refuse its children as variables. *)
Lemma Concatenation_init_checked cls c0 rest nm at_ :
  forallb isinstance_Variable (map PySymbol (c0 :: rest))
  && bool_decide (cls = ClsConcatenation) = false ->
  let cs := c0 :: rest in
  (primary_accepted [] cs /\ auxiliary_accepted c0 rest
   /\ Concatenation_init cls (map PySymbol cs) nm true at_
      = Ok (mkSymbol cls (default "concatenation" nm) cs
              (domains_with_primary (domains c0) (concat (map domain cs)))
              at_))
  \/ (~ (primary_accepted [] cs /\ auxiliary_accepted c0 rest)
      /\ Concatenation_init cls (map PySymbol cs) nm true at_
         = Raise DomainError).
Proof.
  intros Hchk cs. subst cs. unfold Concatenation_init. rewrite Hchk.
  destruct (get_children_domains_cases c0 rest)
    as [(Hp & Ha & E)|[(Hp & Ha & E)|(Hp & E)]]; rewrite E; cbn [bind].
  - left. split; [done|]. split; [done|]. by rewrite as_symbols_map.
  - right. split; [|done]. by intros [_ H].
  - right. split; [|done]. by intros [H _].
Qed.

Lemma ConcatenationVariable_init_node `{Pybamm} args nd :
  ConcatenationVariable_init args = Ok nd ->
  exists nm node,
    Concatenation_init ClsConcatenationVariable args nm true NoAttrs = Ok node
    /\ sym_class nd = sym_class node /\ children nd = children node
    /\ domains nd = domains node.
Proof.
  unfold ConcatenationVariable_init. intros H0.
  apply bind_Ok in H0 as (nm & _ & H0).
  invert_binds H0.
  match goal with
  | Hnd : Concatenation_init _ _ _ _ _ = Ok ?n |- _ =>
      exists nm, n; split; [exact Hnd|]; destruct n
  end.
  by injection H0 as <-.
Qed.

(** X22: what [concatenation] builds from two or more symbols that are all
    variables, or not all broadcasts of one child: a node whose children
    are the arguments in order, whose primary domain is the children's
    primary domains one after the other and whose auxiliary levels are the
    first child's; it is a [ConcatenationVariable] when all children are
    variables and a plain [Concatenation] otherwise. The children's domains
    are then non-empty, pairwise disjoint and compatible at the auxiliary
    levels. *)
Theorem X22_concatenation_builds_node `{Pybamm}
    (c0 c1 : Symbol) (rest : list Symbol) (r : PyObject) :
  let cs := c0 :: c1 :: rest in
  builds_concatenation_node (map PySymbol cs) = true ->
  concatenation (map PySymbol cs) = Ok r ->
  exists nd,
    r = PySymbol nd
    /\ sym_class nd = node_class cs
    /\ children nd = cs
    /\ domains nd
       = domains_with_primary (domains c0) (concat (map domain cs))
    /\ primary_accepted [] cs /\ auxiliary_accepted c0 (c1 :: rest).
Proof.
  intros cs Hb Hr.
  set (args := PySymbol c0 :: PySymbol c1 :: map PySymbol rest).
  change (map PySymbol cs) with args in *.
  assert (Hnone : List.filter is_not_None args = args)
    by apply (filter_not_None_symbols cs).
  unfold builds_concatenation_node in Hb. rewrite Hnone in Hb.
  unfold args at 1 in Hb. cbv iota beta in Hb. fold args in Hb.
  unfold concatenation, simplified_concatenation in Hr. rewrite Hnone in Hr.
  unfold args at 1 in Hr. cbv iota beta in Hr. fold args in Hr.
  unfold node_class. change (map PySymbol cs) with args.
  destruct (forallb isinstance_Variable args) eqn:Hv.
  - apply bind_Ok in Hr as (nd & Hnd & Hr). injection Hr as <-.
    exists nd. split; [done|].
    apply ConcatenationVariable_init_node in Hnd
      as (nm & node & Hnode & -> & -> & ->).
    destruct (Concatenation_init_checked ClsConcatenationVariable c0
                (c1 :: rest) nm NoAttrs) as [(Hp & Ha & E)|[_ E]];
      [by rewrite andb_false_r| |];
      change (map PySymbol (c0 :: c1 :: rest)) with args in E;
      rewrite E in Hnode; [|discriminate].
    injection Hnode as <-. done.
  - cbn [orb] in Hb. apply negb_true_iff in Hb.
    apply bind_Ok in Hr as (nd & Hnd & Hr). rewrite Hb in Hr.
    injection Hr as <-. exists nd. split; [done|].
    destruct (Concatenation_init_checked ClsConcatenation c0
                (c1 :: rest) None NoAttrs) as [(Hp & Ha & E)|[_ E]];
      [change (map PySymbol (c0 :: c1 :: rest)) with args; by rewrite Hv| |];
      change (map PySymbol (c0 :: c1 :: rest)) with args in E;
      rewrite E in Hnd; [|discriminate].
    injection Hnd as <-. done.
Qed.

(** Two plain symbols over the negative electrode and the separator. *)
Lemma X22_witness :
  exists nd,
    PySymbol (mkSymbol ClsConcatenation "concatenation"
                [example_symbol "c_n" ["negative electrode"] [];
                 example_symbol "c_s" ["separator"] []]
                (mkDomains ["negative electrode"; "separator"] [] [] [])
                NoAttrs)
    = PySymbol nd
    /\ sym_class nd
       = node_class [example_symbol "c_n" ["negative electrode"] [];
                     example_symbol "c_s" ["separator"] []]
    /\ children nd = [example_symbol "c_n" ["negative electrode"] [];
                      example_symbol "c_s" ["separator"] []]
    /\ domains nd
       = domains_with_primary
           (domains (example_symbol "c_n" ["negative electrode"] []))
           (concat (map domain
                      [example_symbol "c_n" ["negative electrode"] [];
                       example_symbol "c_s" ["separator"] []]))
    /\ primary_accepted []
         [example_symbol "c_n" ["negative electrode"] [];
          example_symbol "c_s" ["separator"] []]
    /\ auxiliary_accepted (example_symbol "c_n" ["negative electrode"] [])
         [example_symbol "c_s" ["separator"] []].
Proof.
  apply (@X22_concatenation_builds_node plain_pybamm
           (example_symbol "c_n" ["negative electrode"] [])
           (example_symbol "c_s" ["separator"] []) []); reflexivity.
Defined.

(** X23: given symbols (variables with their attributes, and broadcast
    constructors that do not fail), [concatenation] raises ValueError or
    DomainError and nothing else: ValueError exactly when there is no child
    at all, or when the children, two or more, are all variables and two
    of them differ in scale, reference or bounds; DomainError in the other
    failing cases. In particular the TypeError of the base class, which
    refuses variables, is never met. *)
Theorem X23_concatenation_errors `{Pybamm} (cs : list Symbol) :
  Forall (fun c => sym_class c = ClsVariable -> is_Some (variable_attrs_of c))
         cs ->
  (forall u d, exists b, PrimaryBroadcast u d = Ok b) ->
  (forall u d, exists b, FullBroadcast u d = Ok b) ->
  (forall e, concatenation (map PySymbol cs) = Raise e ->
     e = ValueError \/ e = DomainError)
  /\ (concatenation (map PySymbol cs) = Raise ValueError
      <-> cs = []
          \/ (2 <= length cs
              /\ forallb isinstance_Variable (map PySymbol cs) = true
              /\ exists u v, u ∈ cs /\ v ∈ cs
                             /\ variable_attrs_of u <> variable_attrs_of v)).
Proof.
  intros Hattrs Hprim Hfull.
  destruct cs as [|c0 [|c1 rest]].
  - split; [intros e [= <-]; by left|]. split; [by left|done].
  - split; [discriminate|]. split; [discriminate|].
    intros [?|(Hlen & _)]; [done|simpl in Hlen; lia].
  - set (cs := c0 :: c1 :: rest) in *.
    set (args := PySymbol c0 :: PySymbol c1 :: map PySymbol rest).
    change (map PySymbol cs) with args.
    assert (Hnone : List.filter is_not_None args = args)
      by apply (filter_not_None_symbols cs).
    assert (Hdef : concatenation args
                   = if forallb isinstance_Variable args then
                       node <- ConcatenationVariable_init args ;;
                       Ok (PySymbol node)
                     else
                       concat <- Concatenation_init ClsConcatenation args None
                                   true NoAttrs ;;
                       if forallb (same_broadcast (PySymbol c0)) args then
                         match broadcast_child (PySymbol c0) with
                         | Some unique_child =>
                             if isinstance_PrimaryBroadcast (PySymbol c0) then
                               node <- PrimaryBroadcast unique_child
                                         (domain concat) ;;
                               Ok (PySymbol node)
                             else
                               node <- FullBroadcast unique_child
                                         (domains concat) ;;
                               Ok (PySymbol node)
                         | None => Raise IndexError
                         end
                       else Ok (PySymbol concat)).
    { unfold concatenation, simplified_concatenation. rewrite Hnone.
      reflexivity. }
    rewrite Hdef. clear Hdef.
    destruct (forallb isinstance_Variable args) eqn:Hv.
    + assert (Hvars : Forall (fun v => is_Some (variable_attrs_of v)) cs).
      { rewrite Forall_forall in Hattrs |- *. intros v Hin. apply Hattrs; [done|].
        rewrite forallb_forall in Hv.
        specialize (Hv (PySymbol v)).
        unfold isinstance_Variable, isinstance in Hv. cbn [existsb] in Hv.
        rewrite orb_false_r in Hv.
        apply (bool_decide_eq_true_1 (sym_class v = ClsVariable)). apply Hv.
        apply list_elem_of_In. change args with (map PySymbol cs).
        apply list_elem_of_fmap. by exists v. }
      destruct (ConcatenationVariable_init_cases cs ltac:(simpl; lia) Hvars)
        as [[Hex E]|[Hall (nm & E)]];
        change (map PySymbol cs) with args in E.
      * rewrite E. cbn [bind]. split; [intros e [= <-]; by left|].
        split; [intros _|done]. right. split; [simpl; lia|]. done.
      * destruct (Concatenation_init_checked ClsConcatenationVariable c0
                    (c1 :: rest) nm NoAttrs) as [(_ & _ & E')|[_ E']];
          [by rewrite andb_false_r| |];
          change (map PySymbol (c0 :: c1 :: rest)) with args in E';
          rewrite E' in E.
        -- destruct E as [at_ ->]. cbn [bind].
           split; [discriminate|]. split; [discriminate|].
           intros [?|(_ & _ & u & v & Hu & Hv' & Hne)]; [done|].
           destruct Hne. by apply Hall.
        -- rewrite E. cbn [bind]. split; [intros e [= <-]; by right|].
           split; [discriminate|].
           intros [?|(_ & _ & u & v & Hu & Hv' & Hne)]; [done|].
           destruct Hne. by apply Hall.
    + assert (Hnot : ~ (cs = []
                        \/ (2 <= length cs /\ false = true
                            /\ exists u v, u ∈ cs /\ v ∈ cs
                                 /\ variable_attrs_of u
                                    <> variable_attrs_of v)))
        by (intros [?|(_ & ? & _)]; done).
      destruct (Concatenation_init_checked ClsConcatenation c0
                  (c1 :: rest) None NoAttrs) as [(_ & _ & E')|[_ E']];
        [change (map PySymbol (c0 :: c1 :: rest)) with args; by rewrite Hv| |];
        change (map PySymbol (c0 :: c1 :: rest)) with args in E'; rewrite E';
        cbn [bind].
      2:{ split; [intros e [= <-]; by right|]. split; [discriminate|done]. }
      destruct (forallb (same_broadcast (PySymbol c0)) args) eqn:Hsame.
      2:{ split; [discriminate|]. split; [discriminate|done]. }
      assert (Hfirst : same_broadcast (PySymbol c0) (PySymbol c0) = true).
      { rewrite forallb_forall in Hsame. apply Hsame. by left. }
      unfold same_broadcast in Hfirst.
      apply andb_prop in Hfirst as [_ Hfirst].
      destruct (broadcast_child (PySymbol c0)) as [u|]; [|done].
      destruct (isinstance_PrimaryBroadcast (PySymbol c0)).
      * match goal with
        | |- context [PrimaryBroadcast ?a ?d] =>
            destruct (Hprim a d) as [b ->]
        end.
        cbn [bind]. split; [discriminate|]. split; [discriminate|done].
      * match goal with
        | |- context [FullBroadcast ?a ?d] =>
            destruct (Hfull a d) as [b ->]
        end.
        cbn [bind]. split; [discriminate|]. split; [discriminate|done].
Qed.

(** Two variables whose scales differ. *)
Lemma X23_witness :
  @concatenation plain_pybamm
    (map PySymbol
       [example_variable "c_n" ["negative electrode"];
        example_scaled_variable "c_p" ["positive electrode"]])
  = Raise ValueError.
Proof.
  apply (proj2 (@X23_concatenation_errors plain_pybamm
                  [example_variable "c_n" ["negative electrode"];
                   example_scaled_variable "c_p" ["positive electrode"]]
                  ltac:(repeat constructor; intros _; eexists; reflexivity)
                  ltac:(intros u d; eexists; reflexivity)
                  ltac:(intros u d; eexists; reflexivity))).
  right. split; [simpl; lia|]. split; [reflexivity|].
  exists (example_variable "c_n" ["negative electrode"]),
         (example_scaled_variable "c_p" ["positive electrode"]).
  split; [left|]. split; [right; left|]. discriminate.
Defined.

(** ** Reordering the children after the first *)

Lemma pairwise_disjoint_perm (l l' : list (list string)) :
  l ≡ₚ l' -> pairwise_disjoint l -> pairwise_disjoint l'.
Proof.
  induction 1 as [|a l l' Hperm IH|a b l|l1 l2 l3 _ IH1 _ IH2]; [done| | |auto].
  - rewrite !pairwise_disjoint_cons. intros [Ha Hl]. split; [|by apply IH].
    intros b x Hb. apply Ha. by rewrite Hperm.
  - rewrite !pairwise_disjoint_cons. intros (Hb & Ha & Hl).
    split; [|split; [|done]].
    + intros c x [->|Hc]%elem_of_cons Hx.
      * intros Hxb. apply (Hb a x); [left|done|done].
      * by apply Ha.
    + intros c x Hc. apply Hb. by right.
Qed.

Lemma primary_accepted_perm c0 rest rest' :
  rest ≡ₚ rest' ->
  primary_accepted [] (c0 :: rest) -> primary_accepted [] (c0 :: rest').
Proof.
  intros Hperm (Hne & _ & Hpw). split; [|split].
  - by rewrite <- Hperm.
  - intros c x _ _ Hx. by apply elem_of_nil in Hx.
  - apply (pairwise_disjoint_perm (map domain (c0 :: rest))); [|done].
    cbn [map]. by rewrite Hperm.
Qed.

Lemma auxiliary_accepted_perm c0 rest rest' :
  rest ≡ₚ rest' -> auxiliary_accepted c0 rest -> auxiliary_accepted c0 rest'.
Proof.
  intros Hperm Ha level Hl Hne c Hc. apply Ha; [done|done|].
  by rewrite Hperm.
Qed.

(** X24: the order of the children after the first one does not matter for
    validity: a reordering of them is accepted by the domain validator
    exactly when the original order is, with the same auxiliary levels
    (those of the first child) and with the children's primary domains
    concatenated in the new order. *)
Theorem X24_later_children_may_be_reordered
    (c0 : Symbol) (rest rest' : list Symbol) :
  rest ≡ₚ rest' ->
  (forall d, get_children_domains (map PySymbol (c0 :: rest)) = Ok d ->
     get_children_domains (map PySymbol (c0 :: rest'))
     = Ok (domains_with_primary d (concat (map domain (c0 :: rest')))))
  /\ (forall e, get_children_domains (map PySymbol (c0 :: rest)) = Raise e ->
        get_children_domains (map PySymbol (c0 :: rest')) = Raise e).
Proof.
  intros Hperm.
  destruct (get_children_domains_cases c0 rest)
    as [(Hp & Ha & E)|[(Hp & Ha & E)|(Hp & E)]]; rewrite E;
    destruct (get_children_domains_cases c0 rest')
      as [(Hp' & Ha' & E')|[(Hp' & Ha' & E')|(Hp' & E')]]; rewrite E'.
  - split; [|discriminate]. by intros d [= <-].
  - destruct Ha'. by apply (auxiliary_accepted_perm c0 rest).
  - destruct Hp'. by apply (primary_accepted_perm c0 rest).
  - destruct Ha. by apply (auxiliary_accepted_perm c0 rest').
  - split; [discriminate|]. by intros e [= <-].
  - destruct Hp'. by apply (primary_accepted_perm c0 rest).
  - destruct Hp. by apply (primary_accepted_perm c0 rest').
  - split; [discriminate|]. by intros e [= <-].
  - split; [discriminate|]. by intros e [= <-].
Qed.

(** Separator and positive electrode exchanged. *)
Lemma X24_witness :
  get_children_domains
    (map PySymbol [example_symbol "c_n" ["negative electrode"] [];
                   example_symbol "c_p" ["positive electrode"] [];
                   example_symbol "c_s" ["separator"] []])
  = Ok (mkDomains ["negative electrode"; "positive electrode"; "separator"]
          [] [] []).
Proof.
  apply (proj1 (X24_later_children_may_be_reordered
                  (example_symbol "c_n" ["negative electrode"] [])
                  [example_symbol "c_s" ["separator"] [];
                   example_symbol "c_p" ["positive electrode"] []]
                  [example_symbol "c_p" ["positive electrode"] [];
                   example_symbol "c_s" ["separator"] []]
                  (perm_swap _ _ []))
           (mkDomains ["negative electrode"; "separator"; "positive electrode"]
              [] [] [])).
  reflexivity.
Defined.
